(** * ambf_addon: kinematic core of the Blender <-> ADF converter

    A shallow embedding of the kinematic core of [ambf_addon.py]: the
    rotation-between-two-vectors primitives, the hierarchy ordering pass,
    the joint classifier, the export-side pivot/axis/offset extraction and
    the import-side joint composition.

    Numbers.  The add-on computes with Python floats.  They are embedded as
    the real numbers of the Standard Library: every threshold, comparison
    and formula is the one of the source, evaluated exactly.  Statements
    proved here are therefore statements about the exact arithmetic the
    code approximates. *)

From Stdlib Require Import Reals Lra Lia ZArith List RNsatz Psatz.
From stdpp Require Import base option list gmap strings.

(** ** Comparisons on reals as booleans *)

Definition Rltb (x y : R) : bool := if Rlt_dec x y then true else false.
Definition Rleb (x y : R) : bool := if Rle_dec x y then true else false.
Definition Reqb (x y : R) : bool := if Req_dec_T x y then true else false.

(** ** Blender's [mathutils]

    [mathutils] is Blender's C vector library, not part of the add-on.  Its
    primitives are embedded by what they compute (Blender 2.8x sources),
    with indices written row-then-column as the Python API shows them. *)

Module mathutils.
Local Open Scope R_scope.

Record Vector : Type := mkVec { vx : R; vy : R; vz : R }.

Record Matrix3 : Type := mkMat3 {
  m00 : R; m01 : R; m02 : R;
  m10 : R; m11 : R; m12 : R;
  m20 : R; m21 : R; m22 : R }.

(** A 4x4 matrix of the add-on is always affine (last row 0 0 0 1): it is
    kept as its 3x3 block and its translation column. *)
Record Matrix4 : Type := mkMat4 { to_3x3 : Matrix3; translation : Vector }.

Record Quaternion : Type := mkQuat { qw : R; qx : R; qy : R; qz : R }.

Definition vzero : Vector := mkVec 0 0 0.
Definition dot (a b : Vector) : R := vx a * vx b + vy a * vy b + vz a * vz b.
Definition cross (a b : Vector) : Vector :=
  mkVec (vy a * vz b - vz a * vy b)
        (vz a * vx b - vx a * vz b)
        (vx a * vy b - vy a * vx b).
Definition vadd (a b : Vector) : Vector := mkVec (vx a + vx b) (vy a + vy b) (vz a + vz b).
Definition vsub (a b : Vector) : Vector := mkVec (vx a - vx b) (vy a - vy b) (vz a - vz b).
Definition vscale (k : R) (a : Vector) : Vector := mkVec (k * vx a) (k * vy a) (k * vz a).
Definition vneg (a : Vector) : Vector := mkVec (- vx a) (- vy a) (- vz a).
Definition length (a : Vector) : R := sqrt (dot a a).

(** [Vector.angle(other)]: raises [ValueError] on a zero-length vector,
    otherwise the arc cosine (clamped to [-1,1], as [acos] of the Standard
    Library is) of the normalised dot product. *)
Definition angle (a b : Vector) : option R :=
  if Reqb (dot a a) 0 || Reqb (dot b b) 0 then None
  else Some (acos (dot a b / (sqrt (dot a a) * sqrt (dot b b)))).

(** [normalize_v3]: vectors of squared length at most 1e-35 become zero. *)
Definition normalize (a : Vector) : Vector :=
  if Rltb (1 / 10 ^ 35) (dot a a) then vscale (1 / sqrt (dot a a)) a else vzero.

Definition Identity3 : Matrix3 := mkMat3 1 0 0 0 1 0 0 0 1.

Definition row0 (m : Matrix3) := mkVec (m00 m) (m01 m) (m02 m).
Definition row1 (m : Matrix3) := mkVec (m10 m) (m11 m) (m12 m).
Definition row2 (m : Matrix3) := mkVec (m20 m) (m21 m) (m22 m).
Definition col0 (m : Matrix3) := mkVec (m00 m) (m10 m) (m20 m).
Definition col1 (m : Matrix3) := mkVec (m01 m) (m11 m) (m21 m).
Definition col2 (m : Matrix3) := mkVec (m02 m) (m12 m) (m22 m).

Definition of_cols (c0 c1 c2 : Vector) : Matrix3 :=
  mkMat3 (vx c0) (vx c1) (vx c2) (vy c0) (vy c1) (vy c2) (vz c0) (vz c1) (vz c2).

(** [M @ v] *)
Definition mulv (m : Matrix3) (v : Vector) : Vector :=
  mkVec (dot (row0 m) v) (dot (row1 m) v) (dot (row2 m) v).

(** [A @ B] *)
Definition mul3 (a b : Matrix3) : Matrix3 :=
  of_cols (mulv a (col0 b)) (mulv a (col1 b)) (mulv a (col2 b)).

Definition add3 (a b : Matrix3) : Matrix3 :=
  mkMat3 (m00 a + m00 b) (m01 a + m01 b) (m02 a + m02 b)
         (m10 a + m10 b) (m11 a + m11 b) (m12 a + m12 b)
         (m20 a + m20 b) (m21 a + m21 b) (m22 a + m22 b).

(** [M * k] *)
Definition scale3 (a : Matrix3) (k : R) : Matrix3 :=
  mkMat3 (m00 a * k) (m01 a * k) (m02 a * k)
         (m10 a * k) (m11 a * k) (m12 a * k)
         (m20 a * k) (m21 a * k) (m22 a * k).

Definition transpose3 (m : Matrix3) : Matrix3 := of_cols (row0 m) (row1 m) (row2 m).

Definition trace3 (m : Matrix3) : R := m00 m + m11 m + m22 m.

Definition det3 (m : Matrix3) : R := dot (row0 m) (cross (row1 m) (row2 m)).

Definition adjugate3 (m : Matrix3) : Matrix3 :=
  of_cols (cross (row1 m) (row2 m)) (cross (row2 m) (row0 m)) (cross (row0 m) (row1 m)).

(** [Matrix.invert()]: raises [ValueError] when the determinant is zero. *)
Definition invert3 (m : Matrix3) : option Matrix3 :=
  if Reqb (det3 m) 0 then None else Some (scale3 (adjugate3 m) (1 / det3 m)).

(** [normalize_m3]: every column is normalised. *)
Definition normalize_m3 (m : Matrix3) : Matrix3 :=
  of_cols (normalize (col0 m)) (normalize (col1 m)) (normalize (col2 m)).

(** [Matrix.Rotation(angle, 3, axis)] with a vector axis
    ([axis_angle_to_mat3]): the axis is normalised, a zero axis gives the
    identity, otherwise Rodrigues' matrix. *)
Definition Rotation3 (theta : R) (axis : Vector) : Matrix3 :=
  let n := normalize axis in
  if Reqb (dot n n) 0 then Identity3
  else
    let co := cos theta in
    let si := sin theta in
    let ico := 1 - co in
    mkMat3 (vx n * vx n * ico + co) (vx n * vy n * ico - vz n * si) (vx n * vz n * ico + vy n * si)
           (vx n * vy n * ico + vz n * si) (vy n * vy n * ico + co) (vy n * vz n * ico - vx n * si)
           (vx n * vz n * ico - vy n * si) (vy n * vz n * ico + vx n * si) (vz n * vz n * ico + co).

Definition Identity4 : Matrix4 := mkMat4 Identity3 vzero.

Definition to_4x4 (m : Matrix3) : Matrix4 := mkMat4 m vzero.

(** [Matrix.Rotation(angle, 4, axis)] *)
Definition Rotation4 (theta : R) (axis : Vector) : Matrix4 := to_4x4 (Rotation3 theta axis).

(** [m.translation = t] *)
Definition set_translation (m : Matrix4) (t : Vector) : Matrix4 := mkMat4 (to_3x3 m) t.

(** [A @ B] on affine 4x4 matrices *)
Definition mul4 (a b : Matrix4) : Matrix4 :=
  mkMat4 (mul3 (to_3x3 a) (to_3x3 b))
         (vadd (mulv (to_3x3 a) (translation b)) (translation a)).

(** [Matrix.invert()] on an affine 4x4 matrix: its determinant is the one
    of the 3x3 block. *)
Definition invert4 (m : Matrix4) : option Matrix4 :=
  r ← invert3 (to_3x3 m);
  Some (mkMat4 r (vneg (mulv r (translation m)))).

(** [normalize_qt] *)
Definition normalize_qt (q : Quaternion) : Quaternion :=
  let len := sqrt (qw q * qw q + qx q * qx q + qy q * qy q + qz q * qz q) in
  if Reqb len 0 then mkQuat 0 1 0 0
  else mkQuat (qw q / len) (qx q / len) (qy q / len) (qz q / len).

(** [mat3_normalized_to_quat] *)
Definition mat3_normalized_to_quat (m : Matrix3) : Quaternion :=
  let tr := 25 / 100 * (1 + m00 m + m11 m + m22 m) in
  normalize_qt
    (if Rltb (1 / 10 ^ 4) tr then
       let s := sqrt tr in
       let k := 1 / (4 * s) in
       mkQuat s ((m21 m - m12 m) * k) ((m02 m - m20 m) * k) ((m10 m - m01 m) * k)
     else if Rltb (m11 m) (m00 m) && Rltb (m22 m) (m00 m) then
       let s := 2 * sqrt (1 + m00 m - m11 m - m22 m) in
       mkQuat ((m21 m - m12 m) * (1 / s)) (25 / 100 * s)
              ((m01 m + m10 m) * (1 / s)) ((m02 m + m20 m) * (1 / s))
     else if Rltb (m22 m) (m11 m) then
       let s := 2 * sqrt (1 + m11 m - m00 m - m22 m) in
       mkQuat ((m02 m - m20 m) * (1 / s)) ((m01 m + m10 m) * (1 / s))
              (25 / 100 * s) ((m12 m + m21 m) * (1 / s))
     else
       let s := 2 * sqrt (1 + m22 m - m00 m - m11 m) in
       mkQuat ((m10 m - m01 m) * (1 / s)) ((m02 m + m20 m) * (1 / s))
              ((m12 m + m21 m) * (1 / s)) (25 / 100 * s)).

(** [Matrix.to_quaternion()] on a 3x3 matrix ([mat3_to_quat]) *)
Definition to_quaternion (m : Matrix3) : Quaternion :=
  mat3_normalized_to_quat (normalize_m3 m).

(** [Quaternion.to_axis_angle()]: [quat_to_axis_angle] on the normalised
    quaternion, then a zero axis is replaced by the X axis. *)
Definition to_axis_angle (q : Quaternion) : Vector * R :=
  let t := normalize_qt q in
  let ha := acos (qw t) in
  let si := sin ha in
  let si' := if Rltb (Rabs si) (5 / 10000) then 1 else si in
  let axis := mkVec (qx t / si') (qy t / si') (qz t / si') in
  (if Reqb (dot axis axis) 0 then mkVec 1 0 0 else axis, ha * 2).

(** [atan2f(y, x)] *)
Definition atan2 (y x : R) : R :=
  if Rltb 0 x then atan (y / x)
  else if Rltb x 0 then
    if Rleb 0 y then atan (y / x) + PI else atan (y / x) - PI
  else if Rltb 0 y then PI / 2
  else if Rltb y 0 then - (PI / 2)
  else 0.

(** [FLT_EPSILON] and [FLT_MAX] of C: 2^-23 and (2^24 - 1) * 2^104. *)
Definition FLT_EPSILON : R := 1 / 8388608.
Definition FLT_MAX : R := 340282346638528859811704183484516925440.

(** [mat3_normalized_to_eul2]: the two XYZ Euler triples of a normalised
    matrix, each kept as a vector of three angles.  The C code indexes
    [mat[column][row]]. *)
Definition mat3_normalized_to_eul2 (m : Matrix3) : Vector * Vector :=
  let cy := sqrt (m00 m * m00 m + m10 m * m10 m) in
  if Rltb (16 * FLT_EPSILON) cy then
    (mkVec (atan2 (m21 m) (m22 m)) (atan2 (- m20 m) cy) (atan2 (m10 m) (m00 m)),
     mkVec (atan2 (- m21 m) (- m22 m)) (atan2 (- m20 m) (- cy)) (atan2 (- m10 m) (- m00 m)))
  else
    let eul1 := mkVec (atan2 (- m12 m) (m11 m)) (atan2 (- m20 m) cy) 0 in
    (eul1, eul1).

(** [mat3_normalized_to_eul]: of the two triples, the one with the
    smaller sum of absolute angles, the first on a tie. *)
Definition mat3_normalized_to_eul (m : Matrix3) : Vector :=
  let '(eul1, eul2) := mat3_normalized_to_eul2 m in
  if Rltb (Rabs (vx eul2) + Rabs (vy eul2) + Rabs (vz eul2))
          (Rabs (vx eul1) + Rabs (vy eul1) + Rabs (vz eul1))
  then eul2 else eul1.

(** [Matrix.to_euler()], XYZ order: the columns are normalised first. *)
Definition to_euler (m : Matrix3) : Vector := mat3_normalized_to_eul (normalize_m3 m).

(** [Euler.to_matrix()], XYZ order ([eul_to_mat3]) *)
Definition eul_to_mat3 (eul : Vector) : Matrix3 :=
  let ci := cos (vx eul) in
  let cj := cos (vy eul) in
  let ch := cos (vz eul) in
  let si := sin (vx eul) in
  let sj := sin (vy eul) in
  let sh := sin (vz eul) in
  let cc := ci * ch in
  let cs := ci * sh in
  let sc := si * ch in
  let ss := si * sh in
  mkMat3 (cj * ch) (sj * sc - cs) (sj * cc + ss)
         (cj * sh) (sj * ss + cc) (sj * cs - sc)
         (- sj) (cj * si) (cj * ci).

(** [m.to_euler().to_matrix()] *)
Definition to_euler_to_matrix (m : Matrix3) : Matrix3 := eul_to_mat3 (to_euler m).

Definition orthonormal (m : Matrix3) : Prop := mul3 (transpose3 m) m = Identity3.

End mathutils.

Import mathutils.

(** ** Python's [round(x, ndigits)] on floats: nearest multiple of
    [10^-ndigits], ties to the even one. *)

Definition round_half_even (x : R) : Z :=
  let f := Zfloor x in
  let d := (x - IZR f)%R in
  if Rltb d (1 / 2) then f
  else if Rltb (1 / 2) d then (f + 1)%Z
  else if Z.even f then f else (f + 1)%Z.

Definition round (x : R) (ndigits : nat) : R :=
  (IZR (round_half_even (x * 10 ^ ndigits)) / 10 ^ ndigits)%R.

(** A number is written with four decimals when it is an integer multiple
    of 1e-4. *)
Definition four_decimals (x : R) : Prop := exists k : Z, x = (IZR k / 10000)%R.

(** ** VectorMath: the module-level helpers of [ambf_addon.py] *)

Module VectorMath.
Local Open Scope R_scope.

(** [skew_mat(v)] *)
Definition skew_mat (v : Vector) : Matrix3 :=
  mkMat3 0 (- vz v) (vy v)
         (vz v) 0 (- vx v)
         (- vy v) (vx v) 0.

(** [vec_norm(v)] *)
Definition vec_norm (v : Vector) : R := sqrt (vx v ^ 2 + vy v ^ 2 + vz v ^ 2).

(** [round_vec(v)] *)
Definition round_vec (v : Vector) : Vector :=
  mkVec (round (vx v) 4) (round (vy v) 4) (round (vz v) 4).

(** [rot_matrix_from_vecs(v1, v2)].  [None] is a Python exception:
    [Vector.angle] on a zero vector, or the float division by zero of the
    last branch. *)
Definition rot_matrix_from_vecs (v1 v2 : Vector) : option Matrix3 :=
  let out := Identity3 in
  let vcross := cross v1 v2 in
  let vdot := dot v1 v2 in
  rot_angle ← angle v1 v2;
  if Rltb (1 - vdot) (1 / 10) then Some out
  else if Rltb (1 + vdot) (1 / 10) then
    let nx := mkVec 1 0 0 in
    temp_ang ← angle v1 nx;
    if Rltb (1 / 10) (Rabs temp_ang) && Rltb (Rabs temp_ang) (313 / 100) then
      let axis := cross v1 nx in
      Some (Rotation3 rot_angle axis)
    else
      let ny := mkVec 0 1 0 in
      let axis := cross v1 ny in
      Some (Rotation3 rot_angle axis)
  else
    let skew_v := skew_mat vcross in
    if Reqb (vec_norm vcross ^ 2) 0 then None
    else Some (add3 (add3 Identity3 skew_v)
                    (scale3 (mul3 skew_v skew_v) ((1 - vdot) / vec_norm vcross ^ 2))).

(** The rotation axis [get_rot_mat_from_vecs] settles on, given the angle
    between the two vectors. *)
Definition rot_axis_from_vecs (vecA vecB : Vector) (angle : R) : option Vector :=
  if Rleb (Rabs angle) (1 / 10) then Some (mkVec 0 1 0)
  else if Rleb (313 / 100) (Rabs angle) then
    let nx := mkVec 1 0 0 in
    temp_ang ← mathutils.angle vecA nx;
    if Rltb (1 / 10) (Rabs temp_ang) && Rltb (Rabs temp_ang) (313 / 100) then
      Some (cross vecA nx)
    else
      let ny := mkVec 0 1 0 in
      Some (cross vecA ny)
  else Some (cross vecA vecB).

(** [get_rot_mat_from_vecs(vecA, vecB)]: the 4x4 rotation and the angle. *)
Definition get_rot_mat_from_vecs (vecA vecB : Vector) : option (Matrix4 * R) :=
  angle ← mathutils.angle vecA vecB;
  axis ← rot_axis_from_vecs vecA vecB angle;
  let rot_mat := Rotation4 angle axis in
  Some (rot_mat, angle).

End VectorMath.

Import VectorMath.


(** ** Strings: the few [str] methods the add-on uses *)

Module PyStr.

(** [s.rfind(sub)]: the highest index where [sub] starts in [s], -1 when
    there is none. *)
Fixpoint rfind_from (i : nat) (s sub : string) : option nat :=
  match s with
  | EmptyString => if String.prefix sub s then Some i else None
  | String _ s' =>
      match rfind_from (S i) s' sub with
      | Some j => Some j
      | None => if String.prefix sub s then Some i else None
      end
  end.

Definition rfind (s sub : string) : Z :=
  match rfind_from 0 s sub with
  | Some j => Z.of_nat j
  | None => (-1)%Z
  end.

(** [s[i:]] *)
Definition slice_from (s : string) (i : nat) : string :=
  String.substring i (String.length s - i) s.

(** The double quote character, as a string. *)
Definition dquote : string := String (Ascii.ascii_of_nat 34) EmptyString.

(** [a + b + c + ...] *)
Definition concat (l : list string) : string := fold_right String.append EmptyString l.

(** [s in l] for a list of strings *)
Definition in_list (s : string) (l : list string) : bool := bool_decide (s ∈ l).

End PyStr.

(** ** Data model *)

(** A joint record of the ADF document.  In the add-on it is a Python dict
    used as a record; a key that may be absent is an [option] field.
    ['name'], ['parent'] and ['child'] are read unconditionally by the
    importer. *)

Record xyz : Type := mkXYZ { xyz_x : R; xyz_y : R; xyz_z : R }.

Definition xyz_to_vec (d : xyz) : Vector := mkVec (xyz_x d) (xyz_y d) (xyz_z d).

(** What a YAML flag may hold: [detached: true] or [detached: 'True']. *)
Inductive yaml_flag : Type :=
  | YBool (b : bool)
  | YStr (s : string).

(** ['joint limits']: a dict whose ['low'] and ['high'] keys the exporter
    sometimes deletes. *)
Record joint_limits : Type := mkLimits { low : option R; high : option R }.

Record pid_gains : Type := mkGains { gain_P : R; gain_I : R; gain_D : R }.

Record JointData : Type := mkJoint {
  jd_name : string;
  jd_parent : string;
  jd_child : string;
  jd_parent_axis : option xyz;
  jd_parent_pivot : option xyz;
  jd_child_axis : option xyz;
  jd_child_pivot : option xyz;
  jd_joint_limits : option joint_limits;
  jd_enable_feedback : option bool;
  jd_passive : option bool;
  jd_controller : option pid_gains;
  jd_body_rotation : option Matrix3;
  jd_type : option string;
  jd_offset : option R;
  jd_detached : option yaml_flag;
  jd_redundant : option yaml_flag;
  jd_damping : option R;
  jd_stiffness : option R;
  jd_max_motor_impulse : option R }.

(** [get_xyz_ordered_dict()] *)
Definition get_xyz_ordered_dict : xyz := mkXYZ 0 0 0.

(** [JointTemplate()._ambf_data] *)
Definition JointTemplate : JointData :=
  {| jd_name := EmptyString; jd_parent := EmptyString; jd_child := EmptyString;
     jd_parent_axis := Some get_xyz_ordered_dict;
     jd_parent_pivot := Some get_xyz_ordered_dict;
     jd_child_axis := Some get_xyz_ordered_dict;
     jd_child_pivot := Some get_xyz_ordered_dict;
     jd_joint_limits := Some (mkLimits (Some (- (12 / 10))%R) (Some (12 / 10)%R));
     jd_enable_feedback := Some false;
     jd_passive := Some false;
     jd_controller := Some (mkGains 1000 0 1);
     jd_body_rotation := Some (mkMat3 0 0 0 0 0 0 0 0 0);
     jd_type := None; jd_offset := None; jd_detached := None; jd_redundant := None;
     jd_damping := None; jd_stiffness := None; jd_max_motor_impulse := None |}.

(** Field updates, one per key the code assigns. *)
Definition set_name v (j : JointData) := mkJoint v (jd_parent j) (jd_child j) (jd_parent_axis j) (jd_parent_pivot j) (jd_child_axis j) (jd_child_pivot j) (jd_joint_limits j) (jd_enable_feedback j) (jd_passive j) (jd_controller j) (jd_body_rotation j) (jd_type j) (jd_offset j) (jd_detached j) (jd_redundant j) (jd_damping j) (jd_stiffness j) (jd_max_motor_impulse j).
Definition set_parent v (j : JointData) := mkJoint (jd_name j) v (jd_child j) (jd_parent_axis j) (jd_parent_pivot j) (jd_child_axis j) (jd_child_pivot j) (jd_joint_limits j) (jd_enable_feedback j) (jd_passive j) (jd_controller j) (jd_body_rotation j) (jd_type j) (jd_offset j) (jd_detached j) (jd_redundant j) (jd_damping j) (jd_stiffness j) (jd_max_motor_impulse j).
Definition set_child v (j : JointData) := mkJoint (jd_name j) (jd_parent j) v (jd_parent_axis j) (jd_parent_pivot j) (jd_child_axis j) (jd_child_pivot j) (jd_joint_limits j) (jd_enable_feedback j) (jd_passive j) (jd_controller j) (jd_body_rotation j) (jd_type j) (jd_offset j) (jd_detached j) (jd_redundant j) (jd_damping j) (jd_stiffness j) (jd_max_motor_impulse j).
Definition set_parent_axis v (j : JointData) := mkJoint (jd_name j) (jd_parent j) (jd_child j) v (jd_parent_pivot j) (jd_child_axis j) (jd_child_pivot j) (jd_joint_limits j) (jd_enable_feedback j) (jd_passive j) (jd_controller j) (jd_body_rotation j) (jd_type j) (jd_offset j) (jd_detached j) (jd_redundant j) (jd_damping j) (jd_stiffness j) (jd_max_motor_impulse j).
Definition set_parent_pivot v (j : JointData) := mkJoint (jd_name j) (jd_parent j) (jd_child j) (jd_parent_axis j) v (jd_child_axis j) (jd_child_pivot j) (jd_joint_limits j) (jd_enable_feedback j) (jd_passive j) (jd_controller j) (jd_body_rotation j) (jd_type j) (jd_offset j) (jd_detached j) (jd_redundant j) (jd_damping j) (jd_stiffness j) (jd_max_motor_impulse j).
Definition set_child_axis v (j : JointData) := mkJoint (jd_name j) (jd_parent j) (jd_child j) (jd_parent_axis j) (jd_parent_pivot j) v (jd_child_pivot j) (jd_joint_limits j) (jd_enable_feedback j) (jd_passive j) (jd_controller j) (jd_body_rotation j) (jd_type j) (jd_offset j) (jd_detached j) (jd_redundant j) (jd_damping j) (jd_stiffness j) (jd_max_motor_impulse j).
Definition set_child_pivot v (j : JointData) := mkJoint (jd_name j) (jd_parent j) (jd_child j) (jd_parent_axis j) (jd_parent_pivot j) (jd_child_axis j) v (jd_joint_limits j) (jd_enable_feedback j) (jd_passive j) (jd_controller j) (jd_body_rotation j) (jd_type j) (jd_offset j) (jd_detached j) (jd_redundant j) (jd_damping j) (jd_stiffness j) (jd_max_motor_impulse j).
Definition set_joint_limits v (j : JointData) := mkJoint (jd_name j) (jd_parent j) (jd_child j) (jd_parent_axis j) (jd_parent_pivot j) (jd_child_axis j) (jd_child_pivot j) v (jd_enable_feedback j) (jd_passive j) (jd_controller j) (jd_body_rotation j) (jd_type j) (jd_offset j) (jd_detached j) (jd_redundant j) (jd_damping j) (jd_stiffness j) (jd_max_motor_impulse j).
Definition set_enable_feedback v (j : JointData) := mkJoint (jd_name j) (jd_parent j) (jd_child j) (jd_parent_axis j) (jd_parent_pivot j) (jd_child_axis j) (jd_child_pivot j) (jd_joint_limits j) v (jd_passive j) (jd_controller j) (jd_body_rotation j) (jd_type j) (jd_offset j) (jd_detached j) (jd_redundant j) (jd_damping j) (jd_stiffness j) (jd_max_motor_impulse j).
Definition set_passive v (j : JointData) := mkJoint (jd_name j) (jd_parent j) (jd_child j) (jd_parent_axis j) (jd_parent_pivot j) (jd_child_axis j) (jd_child_pivot j) (jd_joint_limits j) (jd_enable_feedback j) v (jd_controller j) (jd_body_rotation j) (jd_type j) (jd_offset j) (jd_detached j) (jd_redundant j) (jd_damping j) (jd_stiffness j) (jd_max_motor_impulse j).
Definition set_controller v (j : JointData) := mkJoint (jd_name j) (jd_parent j) (jd_child j) (jd_parent_axis j) (jd_parent_pivot j) (jd_child_axis j) (jd_child_pivot j) (jd_joint_limits j) (jd_enable_feedback j) (jd_passive j) v (jd_body_rotation j) (jd_type j) (jd_offset j) (jd_detached j) (jd_redundant j) (jd_damping j) (jd_stiffness j) (jd_max_motor_impulse j).
Definition set_body_rotation v (j : JointData) := mkJoint (jd_name j) (jd_parent j) (jd_child j) (jd_parent_axis j) (jd_parent_pivot j) (jd_child_axis j) (jd_child_pivot j) (jd_joint_limits j) (jd_enable_feedback j) (jd_passive j) (jd_controller j) v (jd_type j) (jd_offset j) (jd_detached j) (jd_redundant j) (jd_damping j) (jd_stiffness j) (jd_max_motor_impulse j).
Definition set_type v (j : JointData) := mkJoint (jd_name j) (jd_parent j) (jd_child j) (jd_parent_axis j) (jd_parent_pivot j) (jd_child_axis j) (jd_child_pivot j) (jd_joint_limits j) (jd_enable_feedback j) (jd_passive j) (jd_controller j) (jd_body_rotation j) v (jd_offset j) (jd_detached j) (jd_redundant j) (jd_damping j) (jd_stiffness j) (jd_max_motor_impulse j).
Definition set_offset v (j : JointData) := mkJoint (jd_name j) (jd_parent j) (jd_child j) (jd_parent_axis j) (jd_parent_pivot j) (jd_child_axis j) (jd_child_pivot j) (jd_joint_limits j) (jd_enable_feedback j) (jd_passive j) (jd_controller j) (jd_body_rotation j) (jd_type j) v (jd_detached j) (jd_redundant j) (jd_damping j) (jd_stiffness j) (jd_max_motor_impulse j).
Definition set_detached v (j : JointData) := mkJoint (jd_name j) (jd_parent j) (jd_child j) (jd_parent_axis j) (jd_parent_pivot j) (jd_child_axis j) (jd_child_pivot j) (jd_joint_limits j) (jd_enable_feedback j) (jd_passive j) (jd_controller j) (jd_body_rotation j) (jd_type j) (jd_offset j) v (jd_redundant j) (jd_damping j) (jd_stiffness j) (jd_max_motor_impulse j).
Definition set_damping v (j : JointData) := mkJoint (jd_name j) (jd_parent j) (jd_child j) (jd_parent_axis j) (jd_parent_pivot j) (jd_child_axis j) (jd_child_pivot j) (jd_joint_limits j) (jd_enable_feedback j) (jd_passive j) (jd_controller j) (jd_body_rotation j) (jd_type j) (jd_offset j) (jd_detached j) (jd_redundant j) v (jd_stiffness j) (jd_max_motor_impulse j).
Definition set_stiffness v (j : JointData) := mkJoint (jd_name j) (jd_parent j) (jd_child j) (jd_parent_axis j) (jd_parent_pivot j) (jd_child_axis j) (jd_child_pivot j) (jd_joint_limits j) (jd_enable_feedback j) (jd_passive j) (jd_controller j) (jd_body_rotation j) (jd_type j) (jd_offset j) (jd_detached j) (jd_redundant j) (jd_damping j) v (jd_max_motor_impulse j).
Definition set_max_motor_impulse v (j : JointData) := mkJoint (jd_name j) (jd_parent j) (jd_child j) (jd_parent_axis j) (jd_parent_pivot j) (jd_child_axis j) (jd_child_pivot j) (jd_joint_limits j) (jd_enable_feedback j) (jd_passive j) (jd_controller j) (jd_body_rotation j) (jd_type j) (jd_offset j) (jd_detached j) (jd_redundant j) (jd_damping j) (jd_stiffness j) v.

(** ** Blender objects *)

(** Objects are referred to by handle. *)
Definition handle : Type := nat.

(** One degree of freedom of a rigid body constraint: [use_limit_lin_x], [limit_lin_x_lower], [limit_lin_x_upper], [use_spring_x], [spring_damping_x], [spring_stiffness_x] and their likes for the other five. *)
Record AxisLimit : Type := mkAxisLimit {
  use_limit : bool;
  limit_lower : R;
  limit_upper : R;
  use_spring : bool;
  spring_damping : R;
  spring_stiffness : R }.

Definition set_use_limit (v : bool) (o : AxisLimit) : AxisLimit :=
  mkAxisLimit v (limit_lower o) (limit_upper o) (use_spring o) (spring_damping o) (spring_stiffness o).
Definition set_limit_lower (v : R) (o : AxisLimit) : AxisLimit :=
  mkAxisLimit (use_limit o) v (limit_upper o) (use_spring o) (spring_damping o) (spring_stiffness o).
Definition set_limit_upper (v : R) (o : AxisLimit) : AxisLimit :=
  mkAxisLimit (use_limit o) (limit_lower o) v (use_spring o) (spring_damping o) (spring_stiffness o).
Definition set_use_spring (v : bool) (o : AxisLimit) : AxisLimit :=
  mkAxisLimit (use_limit o) (limit_lower o) (limit_upper o) v (spring_damping o) (spring_stiffness o).
Definition set_spring_damping (v : R) (o : AxisLimit) : AxisLimit :=
  mkAxisLimit (use_limit o) (limit_lower o) (limit_upper o) (use_spring o) v (spring_stiffness o).
Definition set_spring_stiffness (v : R) (o : AxisLimit) : AxisLimit :=
  mkAxisLimit (use_limit o) (limit_lower o) (limit_upper o) (use_spring o) (spring_damping o) v.

(** [obj.rigid_body_constraint] *)
Record Constraint : Type := mkConstraint {
  rbc_type : string;
  rbc_object1 : option handle;
  rbc_object2 : option handle;
  lin_x : AxisLimit;
  lin_y : AxisLimit;
  lin_z : AxisLimit;
  ang_x : AxisLimit;
  ang_y : AxisLimit;
  ang_z : AxisLimit }.

Definition set_lin_x (v : AxisLimit) (o : Constraint) : Constraint :=
  mkConstraint (rbc_type o) (rbc_object1 o) (rbc_object2 o) v (lin_y o) (lin_z o) (ang_x o) (ang_y o) (ang_z o).
Definition set_ang_z (v : AxisLimit) (o : Constraint) : Constraint :=
  mkConstraint (rbc_type o) (rbc_object1 o) (rbc_object2 o) (lin_x o) (lin_y o) (lin_z o) (ang_x o) (ang_y o) v.

(** The add-on's custom properties of an object. *)
Record AmbfProps : Type := mkAmbfProps {
  ambf_object_type : string;
  ambf_constraint_enable : bool;
  ambf_constraint_parent : option handle;
  ambf_constraint_child : option handle;
  ambf_constraint_name : string;
  ambf_constraint_axis : string;
  ambf_constraint_type : string;
  ambf_constraint_limits_enable : bool;
  ambf_constraint_limits_lower : R;
  ambf_constraint_limits_higher : R;
  ambf_constraint_max_motor_impulse : R;
  ambf_constraint_stiffness : R;
  ambf_constraint_damping : R;
  ambf_constraint_enable_controller_gains : bool;
  ambf_constraint_controller_p_gain : R;
  ambf_constraint_controller_i_gain : R;
  ambf_constraint_controller_d_gain : R;
  ambf_constraint_enable_feedback : bool;
  ambf_constraint_passive : bool;
  ambf_enable_joint_props : bool;
  ambf_joint_controller_p_gain : R;
  ambf_joint_controller_i_gain : R;
  ambf_joint_controller_d_gain : R;
  ambf_joint_damping : R }.

Definition set_ambf_object_type (v : string) (o : AmbfProps) : AmbfProps :=
  mkAmbfProps v (ambf_constraint_enable o) (ambf_constraint_parent o) (ambf_constraint_child o) (ambf_constraint_name o) (ambf_constraint_axis o) (ambf_constraint_type o) (ambf_constraint_limits_enable o) (ambf_constraint_limits_lower o) (ambf_constraint_limits_higher o) (ambf_constraint_max_motor_impulse o) (ambf_constraint_stiffness o) (ambf_constraint_damping o) (ambf_constraint_enable_controller_gains o) (ambf_constraint_controller_p_gain o) (ambf_constraint_controller_i_gain o) (ambf_constraint_controller_d_gain o) (ambf_constraint_enable_feedback o) (ambf_constraint_passive o) (ambf_enable_joint_props o) (ambf_joint_controller_p_gain o) (ambf_joint_controller_i_gain o) (ambf_joint_controller_d_gain o) (ambf_joint_damping o).
Definition set_ambf_constraint_enable (v : bool) (o : AmbfProps) : AmbfProps :=
  mkAmbfProps (ambf_object_type o) v (ambf_constraint_parent o) (ambf_constraint_child o) (ambf_constraint_name o) (ambf_constraint_axis o) (ambf_constraint_type o) (ambf_constraint_limits_enable o) (ambf_constraint_limits_lower o) (ambf_constraint_limits_higher o) (ambf_constraint_max_motor_impulse o) (ambf_constraint_stiffness o) (ambf_constraint_damping o) (ambf_constraint_enable_controller_gains o) (ambf_constraint_controller_p_gain o) (ambf_constraint_controller_i_gain o) (ambf_constraint_controller_d_gain o) (ambf_constraint_enable_feedback o) (ambf_constraint_passive o) (ambf_enable_joint_props o) (ambf_joint_controller_p_gain o) (ambf_joint_controller_i_gain o) (ambf_joint_controller_d_gain o) (ambf_joint_damping o).
Definition set_ambf_constraint_parent (v : option handle) (o : AmbfProps) : AmbfProps :=
  mkAmbfProps (ambf_object_type o) (ambf_constraint_enable o) v (ambf_constraint_child o) (ambf_constraint_name o) (ambf_constraint_axis o) (ambf_constraint_type o) (ambf_constraint_limits_enable o) (ambf_constraint_limits_lower o) (ambf_constraint_limits_higher o) (ambf_constraint_max_motor_impulse o) (ambf_constraint_stiffness o) (ambf_constraint_damping o) (ambf_constraint_enable_controller_gains o) (ambf_constraint_controller_p_gain o) (ambf_constraint_controller_i_gain o) (ambf_constraint_controller_d_gain o) (ambf_constraint_enable_feedback o) (ambf_constraint_passive o) (ambf_enable_joint_props o) (ambf_joint_controller_p_gain o) (ambf_joint_controller_i_gain o) (ambf_joint_controller_d_gain o) (ambf_joint_damping o).
Definition set_ambf_constraint_child (v : option handle) (o : AmbfProps) : AmbfProps :=
  mkAmbfProps (ambf_object_type o) (ambf_constraint_enable o) (ambf_constraint_parent o) v (ambf_constraint_name o) (ambf_constraint_axis o) (ambf_constraint_type o) (ambf_constraint_limits_enable o) (ambf_constraint_limits_lower o) (ambf_constraint_limits_higher o) (ambf_constraint_max_motor_impulse o) (ambf_constraint_stiffness o) (ambf_constraint_damping o) (ambf_constraint_enable_controller_gains o) (ambf_constraint_controller_p_gain o) (ambf_constraint_controller_i_gain o) (ambf_constraint_controller_d_gain o) (ambf_constraint_enable_feedback o) (ambf_constraint_passive o) (ambf_enable_joint_props o) (ambf_joint_controller_p_gain o) (ambf_joint_controller_i_gain o) (ambf_joint_controller_d_gain o) (ambf_joint_damping o).
Definition set_ambf_constraint_name (v : string) (o : AmbfProps) : AmbfProps :=
  mkAmbfProps (ambf_object_type o) (ambf_constraint_enable o) (ambf_constraint_parent o) (ambf_constraint_child o) v (ambf_constraint_axis o) (ambf_constraint_type o) (ambf_constraint_limits_enable o) (ambf_constraint_limits_lower o) (ambf_constraint_limits_higher o) (ambf_constraint_max_motor_impulse o) (ambf_constraint_stiffness o) (ambf_constraint_damping o) (ambf_constraint_enable_controller_gains o) (ambf_constraint_controller_p_gain o) (ambf_constraint_controller_i_gain o) (ambf_constraint_controller_d_gain o) (ambf_constraint_enable_feedback o) (ambf_constraint_passive o) (ambf_enable_joint_props o) (ambf_joint_controller_p_gain o) (ambf_joint_controller_i_gain o) (ambf_joint_controller_d_gain o) (ambf_joint_damping o).
Definition set_ambf_constraint_axis (v : string) (o : AmbfProps) : AmbfProps :=
  mkAmbfProps (ambf_object_type o) (ambf_constraint_enable o) (ambf_constraint_parent o) (ambf_constraint_child o) (ambf_constraint_name o) v (ambf_constraint_type o) (ambf_constraint_limits_enable o) (ambf_constraint_limits_lower o) (ambf_constraint_limits_higher o) (ambf_constraint_max_motor_impulse o) (ambf_constraint_stiffness o) (ambf_constraint_damping o) (ambf_constraint_enable_controller_gains o) (ambf_constraint_controller_p_gain o) (ambf_constraint_controller_i_gain o) (ambf_constraint_controller_d_gain o) (ambf_constraint_enable_feedback o) (ambf_constraint_passive o) (ambf_enable_joint_props o) (ambf_joint_controller_p_gain o) (ambf_joint_controller_i_gain o) (ambf_joint_controller_d_gain o) (ambf_joint_damping o).
Definition set_ambf_constraint_type (v : string) (o : AmbfProps) : AmbfProps :=
  mkAmbfProps (ambf_object_type o) (ambf_constraint_enable o) (ambf_constraint_parent o) (ambf_constraint_child o) (ambf_constraint_name o) (ambf_constraint_axis o) v (ambf_constraint_limits_enable o) (ambf_constraint_limits_lower o) (ambf_constraint_limits_higher o) (ambf_constraint_max_motor_impulse o) (ambf_constraint_stiffness o) (ambf_constraint_damping o) (ambf_constraint_enable_controller_gains o) (ambf_constraint_controller_p_gain o) (ambf_constraint_controller_i_gain o) (ambf_constraint_controller_d_gain o) (ambf_constraint_enable_feedback o) (ambf_constraint_passive o) (ambf_enable_joint_props o) (ambf_joint_controller_p_gain o) (ambf_joint_controller_i_gain o) (ambf_joint_controller_d_gain o) (ambf_joint_damping o).
Definition set_ambf_constraint_limits_enable (v : bool) (o : AmbfProps) : AmbfProps :=
  mkAmbfProps (ambf_object_type o) (ambf_constraint_enable o) (ambf_constraint_parent o) (ambf_constraint_child o) (ambf_constraint_name o) (ambf_constraint_axis o) (ambf_constraint_type o) v (ambf_constraint_limits_lower o) (ambf_constraint_limits_higher o) (ambf_constraint_max_motor_impulse o) (ambf_constraint_stiffness o) (ambf_constraint_damping o) (ambf_constraint_enable_controller_gains o) (ambf_constraint_controller_p_gain o) (ambf_constraint_controller_i_gain o) (ambf_constraint_controller_d_gain o) (ambf_constraint_enable_feedback o) (ambf_constraint_passive o) (ambf_enable_joint_props o) (ambf_joint_controller_p_gain o) (ambf_joint_controller_i_gain o) (ambf_joint_controller_d_gain o) (ambf_joint_damping o).
Definition set_ambf_constraint_limits_lower (v : R) (o : AmbfProps) : AmbfProps :=
  mkAmbfProps (ambf_object_type o) (ambf_constraint_enable o) (ambf_constraint_parent o) (ambf_constraint_child o) (ambf_constraint_name o) (ambf_constraint_axis o) (ambf_constraint_type o) (ambf_constraint_limits_enable o) v (ambf_constraint_limits_higher o) (ambf_constraint_max_motor_impulse o) (ambf_constraint_stiffness o) (ambf_constraint_damping o) (ambf_constraint_enable_controller_gains o) (ambf_constraint_controller_p_gain o) (ambf_constraint_controller_i_gain o) (ambf_constraint_controller_d_gain o) (ambf_constraint_enable_feedback o) (ambf_constraint_passive o) (ambf_enable_joint_props o) (ambf_joint_controller_p_gain o) (ambf_joint_controller_i_gain o) (ambf_joint_controller_d_gain o) (ambf_joint_damping o).
Definition set_ambf_constraint_limits_higher (v : R) (o : AmbfProps) : AmbfProps :=
  mkAmbfProps (ambf_object_type o) (ambf_constraint_enable o) (ambf_constraint_parent o) (ambf_constraint_child o) (ambf_constraint_name o) (ambf_constraint_axis o) (ambf_constraint_type o) (ambf_constraint_limits_enable o) (ambf_constraint_limits_lower o) v (ambf_constraint_max_motor_impulse o) (ambf_constraint_stiffness o) (ambf_constraint_damping o) (ambf_constraint_enable_controller_gains o) (ambf_constraint_controller_p_gain o) (ambf_constraint_controller_i_gain o) (ambf_constraint_controller_d_gain o) (ambf_constraint_enable_feedback o) (ambf_constraint_passive o) (ambf_enable_joint_props o) (ambf_joint_controller_p_gain o) (ambf_joint_controller_i_gain o) (ambf_joint_controller_d_gain o) (ambf_joint_damping o).
Definition set_ambf_constraint_max_motor_impulse (v : R) (o : AmbfProps) : AmbfProps :=
  mkAmbfProps (ambf_object_type o) (ambf_constraint_enable o) (ambf_constraint_parent o) (ambf_constraint_child o) (ambf_constraint_name o) (ambf_constraint_axis o) (ambf_constraint_type o) (ambf_constraint_limits_enable o) (ambf_constraint_limits_lower o) (ambf_constraint_limits_higher o) v (ambf_constraint_stiffness o) (ambf_constraint_damping o) (ambf_constraint_enable_controller_gains o) (ambf_constraint_controller_p_gain o) (ambf_constraint_controller_i_gain o) (ambf_constraint_controller_d_gain o) (ambf_constraint_enable_feedback o) (ambf_constraint_passive o) (ambf_enable_joint_props o) (ambf_joint_controller_p_gain o) (ambf_joint_controller_i_gain o) (ambf_joint_controller_d_gain o) (ambf_joint_damping o).
Definition set_ambf_constraint_stiffness (v : R) (o : AmbfProps) : AmbfProps :=
  mkAmbfProps (ambf_object_type o) (ambf_constraint_enable o) (ambf_constraint_parent o) (ambf_constraint_child o) (ambf_constraint_name o) (ambf_constraint_axis o) (ambf_constraint_type o) (ambf_constraint_limits_enable o) (ambf_constraint_limits_lower o) (ambf_constraint_limits_higher o) (ambf_constraint_max_motor_impulse o) v (ambf_constraint_damping o) (ambf_constraint_enable_controller_gains o) (ambf_constraint_controller_p_gain o) (ambf_constraint_controller_i_gain o) (ambf_constraint_controller_d_gain o) (ambf_constraint_enable_feedback o) (ambf_constraint_passive o) (ambf_enable_joint_props o) (ambf_joint_controller_p_gain o) (ambf_joint_controller_i_gain o) (ambf_joint_controller_d_gain o) (ambf_joint_damping o).
Definition set_ambf_constraint_damping (v : R) (o : AmbfProps) : AmbfProps :=
  mkAmbfProps (ambf_object_type o) (ambf_constraint_enable o) (ambf_constraint_parent o) (ambf_constraint_child o) (ambf_constraint_name o) (ambf_constraint_axis o) (ambf_constraint_type o) (ambf_constraint_limits_enable o) (ambf_constraint_limits_lower o) (ambf_constraint_limits_higher o) (ambf_constraint_max_motor_impulse o) (ambf_constraint_stiffness o) v (ambf_constraint_enable_controller_gains o) (ambf_constraint_controller_p_gain o) (ambf_constraint_controller_i_gain o) (ambf_constraint_controller_d_gain o) (ambf_constraint_enable_feedback o) (ambf_constraint_passive o) (ambf_enable_joint_props o) (ambf_joint_controller_p_gain o) (ambf_joint_controller_i_gain o) (ambf_joint_controller_d_gain o) (ambf_joint_damping o).
Definition set_ambf_constraint_enable_controller_gains (v : bool) (o : AmbfProps) : AmbfProps :=
  mkAmbfProps (ambf_object_type o) (ambf_constraint_enable o) (ambf_constraint_parent o) (ambf_constraint_child o) (ambf_constraint_name o) (ambf_constraint_axis o) (ambf_constraint_type o) (ambf_constraint_limits_enable o) (ambf_constraint_limits_lower o) (ambf_constraint_limits_higher o) (ambf_constraint_max_motor_impulse o) (ambf_constraint_stiffness o) (ambf_constraint_damping o) v (ambf_constraint_controller_p_gain o) (ambf_constraint_controller_i_gain o) (ambf_constraint_controller_d_gain o) (ambf_constraint_enable_feedback o) (ambf_constraint_passive o) (ambf_enable_joint_props o) (ambf_joint_controller_p_gain o) (ambf_joint_controller_i_gain o) (ambf_joint_controller_d_gain o) (ambf_joint_damping o).
Definition set_ambf_constraint_controller_p_gain (v : R) (o : AmbfProps) : AmbfProps :=
  mkAmbfProps (ambf_object_type o) (ambf_constraint_enable o) (ambf_constraint_parent o) (ambf_constraint_child o) (ambf_constraint_name o) (ambf_constraint_axis o) (ambf_constraint_type o) (ambf_constraint_limits_enable o) (ambf_constraint_limits_lower o) (ambf_constraint_limits_higher o) (ambf_constraint_max_motor_impulse o) (ambf_constraint_stiffness o) (ambf_constraint_damping o) (ambf_constraint_enable_controller_gains o) v (ambf_constraint_controller_i_gain o) (ambf_constraint_controller_d_gain o) (ambf_constraint_enable_feedback o) (ambf_constraint_passive o) (ambf_enable_joint_props o) (ambf_joint_controller_p_gain o) (ambf_joint_controller_i_gain o) (ambf_joint_controller_d_gain o) (ambf_joint_damping o).
Definition set_ambf_constraint_controller_i_gain (v : R) (o : AmbfProps) : AmbfProps :=
  mkAmbfProps (ambf_object_type o) (ambf_constraint_enable o) (ambf_constraint_parent o) (ambf_constraint_child o) (ambf_constraint_name o) (ambf_constraint_axis o) (ambf_constraint_type o) (ambf_constraint_limits_enable o) (ambf_constraint_limits_lower o) (ambf_constraint_limits_higher o) (ambf_constraint_max_motor_impulse o) (ambf_constraint_stiffness o) (ambf_constraint_damping o) (ambf_constraint_enable_controller_gains o) (ambf_constraint_controller_p_gain o) v (ambf_constraint_controller_d_gain o) (ambf_constraint_enable_feedback o) (ambf_constraint_passive o) (ambf_enable_joint_props o) (ambf_joint_controller_p_gain o) (ambf_joint_controller_i_gain o) (ambf_joint_controller_d_gain o) (ambf_joint_damping o).
Definition set_ambf_constraint_controller_d_gain (v : R) (o : AmbfProps) : AmbfProps :=
  mkAmbfProps (ambf_object_type o) (ambf_constraint_enable o) (ambf_constraint_parent o) (ambf_constraint_child o) (ambf_constraint_name o) (ambf_constraint_axis o) (ambf_constraint_type o) (ambf_constraint_limits_enable o) (ambf_constraint_limits_lower o) (ambf_constraint_limits_higher o) (ambf_constraint_max_motor_impulse o) (ambf_constraint_stiffness o) (ambf_constraint_damping o) (ambf_constraint_enable_controller_gains o) (ambf_constraint_controller_p_gain o) (ambf_constraint_controller_i_gain o) v (ambf_constraint_enable_feedback o) (ambf_constraint_passive o) (ambf_enable_joint_props o) (ambf_joint_controller_p_gain o) (ambf_joint_controller_i_gain o) (ambf_joint_controller_d_gain o) (ambf_joint_damping o).
Definition set_ambf_constraint_enable_feedback (v : bool) (o : AmbfProps) : AmbfProps :=
  mkAmbfProps (ambf_object_type o) (ambf_constraint_enable o) (ambf_constraint_parent o) (ambf_constraint_child o) (ambf_constraint_name o) (ambf_constraint_axis o) (ambf_constraint_type o) (ambf_constraint_limits_enable o) (ambf_constraint_limits_lower o) (ambf_constraint_limits_higher o) (ambf_constraint_max_motor_impulse o) (ambf_constraint_stiffness o) (ambf_constraint_damping o) (ambf_constraint_enable_controller_gains o) (ambf_constraint_controller_p_gain o) (ambf_constraint_controller_i_gain o) (ambf_constraint_controller_d_gain o) v (ambf_constraint_passive o) (ambf_enable_joint_props o) (ambf_joint_controller_p_gain o) (ambf_joint_controller_i_gain o) (ambf_joint_controller_d_gain o) (ambf_joint_damping o).
Definition set_ambf_constraint_passive (v : bool) (o : AmbfProps) : AmbfProps :=
  mkAmbfProps (ambf_object_type o) (ambf_constraint_enable o) (ambf_constraint_parent o) (ambf_constraint_child o) (ambf_constraint_name o) (ambf_constraint_axis o) (ambf_constraint_type o) (ambf_constraint_limits_enable o) (ambf_constraint_limits_lower o) (ambf_constraint_limits_higher o) (ambf_constraint_max_motor_impulse o) (ambf_constraint_stiffness o) (ambf_constraint_damping o) (ambf_constraint_enable_controller_gains o) (ambf_constraint_controller_p_gain o) (ambf_constraint_controller_i_gain o) (ambf_constraint_controller_d_gain o) (ambf_constraint_enable_feedback o) v (ambf_enable_joint_props o) (ambf_joint_controller_p_gain o) (ambf_joint_controller_i_gain o) (ambf_joint_controller_d_gain o) (ambf_joint_damping o).
Definition set_ambf_enable_joint_props (v : bool) (o : AmbfProps) : AmbfProps :=
  mkAmbfProps (ambf_object_type o) (ambf_constraint_enable o) (ambf_constraint_parent o) (ambf_constraint_child o) (ambf_constraint_name o) (ambf_constraint_axis o) (ambf_constraint_type o) (ambf_constraint_limits_enable o) (ambf_constraint_limits_lower o) (ambf_constraint_limits_higher o) (ambf_constraint_max_motor_impulse o) (ambf_constraint_stiffness o) (ambf_constraint_damping o) (ambf_constraint_enable_controller_gains o) (ambf_constraint_controller_p_gain o) (ambf_constraint_controller_i_gain o) (ambf_constraint_controller_d_gain o) (ambf_constraint_enable_feedback o) (ambf_constraint_passive o) v (ambf_joint_controller_p_gain o) (ambf_joint_controller_i_gain o) (ambf_joint_controller_d_gain o) (ambf_joint_damping o).
Definition set_ambf_joint_controller_p_gain (v : R) (o : AmbfProps) : AmbfProps :=
  mkAmbfProps (ambf_object_type o) (ambf_constraint_enable o) (ambf_constraint_parent o) (ambf_constraint_child o) (ambf_constraint_name o) (ambf_constraint_axis o) (ambf_constraint_type o) (ambf_constraint_limits_enable o) (ambf_constraint_limits_lower o) (ambf_constraint_limits_higher o) (ambf_constraint_max_motor_impulse o) (ambf_constraint_stiffness o) (ambf_constraint_damping o) (ambf_constraint_enable_controller_gains o) (ambf_constraint_controller_p_gain o) (ambf_constraint_controller_i_gain o) (ambf_constraint_controller_d_gain o) (ambf_constraint_enable_feedback o) (ambf_constraint_passive o) (ambf_enable_joint_props o) v (ambf_joint_controller_i_gain o) (ambf_joint_controller_d_gain o) (ambf_joint_damping o).
Definition set_ambf_joint_controller_i_gain (v : R) (o : AmbfProps) : AmbfProps :=
  mkAmbfProps (ambf_object_type o) (ambf_constraint_enable o) (ambf_constraint_parent o) (ambf_constraint_child o) (ambf_constraint_name o) (ambf_constraint_axis o) (ambf_constraint_type o) (ambf_constraint_limits_enable o) (ambf_constraint_limits_lower o) (ambf_constraint_limits_higher o) (ambf_constraint_max_motor_impulse o) (ambf_constraint_stiffness o) (ambf_constraint_damping o) (ambf_constraint_enable_controller_gains o) (ambf_constraint_controller_p_gain o) (ambf_constraint_controller_i_gain o) (ambf_constraint_controller_d_gain o) (ambf_constraint_enable_feedback o) (ambf_constraint_passive o) (ambf_enable_joint_props o) (ambf_joint_controller_p_gain o) v (ambf_joint_controller_d_gain o) (ambf_joint_damping o).
Definition set_ambf_joint_controller_d_gain (v : R) (o : AmbfProps) : AmbfProps :=
  mkAmbfProps (ambf_object_type o) (ambf_constraint_enable o) (ambf_constraint_parent o) (ambf_constraint_child o) (ambf_constraint_name o) (ambf_constraint_axis o) (ambf_constraint_type o) (ambf_constraint_limits_enable o) (ambf_constraint_limits_lower o) (ambf_constraint_limits_higher o) (ambf_constraint_max_motor_impulse o) (ambf_constraint_stiffness o) (ambf_constraint_damping o) (ambf_constraint_enable_controller_gains o) (ambf_constraint_controller_p_gain o) (ambf_constraint_controller_i_gain o) (ambf_constraint_controller_d_gain o) (ambf_constraint_enable_feedback o) (ambf_constraint_passive o) (ambf_enable_joint_props o) (ambf_joint_controller_p_gain o) (ambf_joint_controller_i_gain o) v (ambf_joint_damping o).
Definition set_ambf_joint_damping (v : R) (o : AmbfProps) : AmbfProps :=
  mkAmbfProps (ambf_object_type o) (ambf_constraint_enable o) (ambf_constraint_parent o) (ambf_constraint_child o) (ambf_constraint_name o) (ambf_constraint_axis o) (ambf_constraint_type o) (ambf_constraint_limits_enable o) (ambf_constraint_limits_lower o) (ambf_constraint_limits_higher o) (ambf_constraint_max_motor_impulse o) (ambf_constraint_stiffness o) (ambf_constraint_damping o) (ambf_constraint_enable_controller_gains o) (ambf_constraint_controller_p_gain o) (ambf_constraint_controller_i_gain o) (ambf_constraint_controller_d_gain o) (ambf_constraint_enable_feedback o) (ambf_constraint_passive o) (ambf_enable_joint_props o) (ambf_joint_controller_p_gain o) (ambf_joint_controller_i_gain o) (ambf_joint_controller_d_gain o) v.

(** A Blender object: what the kinematic core reads or writes.  [ob_hidden] is [hide_get()]; [ob_data_transforms] is [None] for an object without mesh data (an empty) and otherwise lists the matrices passed to [obj.data.transform], latest first. *)
Record Object : Type := mkObject {
  ob_name : string;
  ob_type : string;
  ob_matrix_world : Matrix4;
  ob_parent : option handle;
  ob_hidden : bool;
  ob_data_transforms : option (list Matrix4);
  ob_rigid_body_mass : option R;
  ob_rigid_body_constraint : option Constraint;
  ob_ambf : AmbfProps }.

Definition set_ob_name (v : string) (o : Object) : Object :=
  mkObject v (ob_type o) (ob_matrix_world o) (ob_parent o) (ob_hidden o) (ob_data_transforms o) (ob_rigid_body_mass o) (ob_rigid_body_constraint o) (ob_ambf o).
Definition set_ob_type (v : string) (o : Object) : Object :=
  mkObject (ob_name o) v (ob_matrix_world o) (ob_parent o) (ob_hidden o) (ob_data_transforms o) (ob_rigid_body_mass o) (ob_rigid_body_constraint o) (ob_ambf o).
Definition set_ob_matrix_world (v : Matrix4) (o : Object) : Object :=
  mkObject (ob_name o) (ob_type o) v (ob_parent o) (ob_hidden o) (ob_data_transforms o) (ob_rigid_body_mass o) (ob_rigid_body_constraint o) (ob_ambf o).
Definition set_ob_parent (v : option handle) (o : Object) : Object :=
  mkObject (ob_name o) (ob_type o) (ob_matrix_world o) v (ob_hidden o) (ob_data_transforms o) (ob_rigid_body_mass o) (ob_rigid_body_constraint o) (ob_ambf o).
Definition set_ob_hidden (v : bool) (o : Object) : Object :=
  mkObject (ob_name o) (ob_type o) (ob_matrix_world o) (ob_parent o) v (ob_data_transforms o) (ob_rigid_body_mass o) (ob_rigid_body_constraint o) (ob_ambf o).
Definition set_ob_data_transforms (v : option (list Matrix4)) (o : Object) : Object :=
  mkObject (ob_name o) (ob_type o) (ob_matrix_world o) (ob_parent o) (ob_hidden o) v (ob_rigid_body_mass o) (ob_rigid_body_constraint o) (ob_ambf o).
Definition set_ob_rigid_body_mass (v : option R) (o : Object) : Object :=
  mkObject (ob_name o) (ob_type o) (ob_matrix_world o) (ob_parent o) (ob_hidden o) (ob_data_transforms o) v (ob_rigid_body_constraint o) (ob_ambf o).
Definition set_ob_rigid_body_constraint (v : option Constraint) (o : Object) : Object :=
  mkObject (ob_name o) (ob_type o) (ob_matrix_world o) (ob_parent o) (ob_hidden o) (ob_data_transforms o) (ob_rigid_body_mass o) v (ob_ambf o).
Definition set_ob_ambf (v : AmbfProps) (o : Object) : Object :=
  mkObject (ob_name o) (ob_type o) (ob_matrix_world o) (ob_parent o) (ob_hidden o) (ob_data_transforms o) (ob_rigid_body_mass o) (ob_rigid_body_constraint o) v.


(** ** JointClassifier and PoseComposer: the import path *)

Module Importer.
Local Open Scope R_scope.

(** Property defaults of a fresh object, from the [bpy.props] declarations. *)
Definition default_ambf_props : AmbfProps :=
  {| ambf_object_type := "NONE"; ambf_constraint_enable := false;
     ambf_constraint_parent := None; ambf_constraint_child := None;
     ambf_constraint_name := EmptyString; ambf_constraint_axis := "Z";
     ambf_constraint_type := "REVOLUTE"; ambf_constraint_limits_enable := true;
     ambf_constraint_limits_lower := -60; ambf_constraint_limits_higher := 60;
     ambf_constraint_max_motor_impulse := 5 / 100; ambf_constraint_stiffness := 0;
     ambf_constraint_damping := 0; ambf_constraint_enable_controller_gains := false;
     ambf_constraint_controller_p_gain := 500; ambf_constraint_controller_i_gain := 5;
     ambf_constraint_controller_d_gain := 5; ambf_constraint_enable_feedback := false;
     ambf_constraint_passive := false; ambf_enable_joint_props := false;
     ambf_joint_controller_p_gain := 500; ambf_joint_controller_i_gain := 5;
     ambf_joint_controller_d_gain := 5; ambf_joint_damping := 0 |}.

(** The state of one import ([AMBF_OT_load_ambf_file]): the joint records of the document by name ([self._ambf_data[joint_name]]), its ['joints'] list, the body name to Blender object map (the [_blender_remapped_body_names] lookup followed by the [bpy.data.objects] lookup), the per-body correction frames [_body_T_j_c], the objects of the scene, the next free handle, [CommonConfig.loaded_joint_map] as a list, the three scene options and the lines printed so far (latest first). *)
Record Loader : Type := mkLoader {
  ambf_data : gmap string JointData;
  joints : list string;
  blender_remapped_body_names : gmap string handle;
  body_T_j_c : gmap string Matrix4;
  objects : gmap handle Object;
  next_handle : handle;
  loaded_joint_map : list (handle * JointData);
  enable_legacy_loading : bool;
  adjust_joint_pivots : bool;
  ignore_ambf_joint_offsets : bool;
  log : list string }.

Definition with_ambf_data (v : gmap string JointData) (o : Loader) : Loader :=
  mkLoader v (joints o) (blender_remapped_body_names o) (body_T_j_c o) (objects o) (next_handle o) (loaded_joint_map o) (enable_legacy_loading o) (adjust_joint_pivots o) (ignore_ambf_joint_offsets o) (log o).
Definition with_body_T_j_c (v : gmap string Matrix4) (o : Loader) : Loader :=
  mkLoader (ambf_data o) (joints o) (blender_remapped_body_names o) v (objects o) (next_handle o) (loaded_joint_map o) (enable_legacy_loading o) (adjust_joint_pivots o) (ignore_ambf_joint_offsets o) (log o).
Definition with_objects (v : gmap handle Object) (o : Loader) : Loader :=
  mkLoader (ambf_data o) (joints o) (blender_remapped_body_names o) (body_T_j_c o) v (next_handle o) (loaded_joint_map o) (enable_legacy_loading o) (adjust_joint_pivots o) (ignore_ambf_joint_offsets o) (log o).
Definition with_next_handle (v : handle) (o : Loader) : Loader :=
  mkLoader (ambf_data o) (joints o) (blender_remapped_body_names o) (body_T_j_c o) (objects o) v (loaded_joint_map o) (enable_legacy_loading o) (adjust_joint_pivots o) (ignore_ambf_joint_offsets o) (log o).
Definition with_loaded_joint_map (v : list (handle * JointData)) (o : Loader) : Loader :=
  mkLoader (ambf_data o) (joints o) (blender_remapped_body_names o) (body_T_j_c o) (objects o) (next_handle o) v (enable_legacy_loading o) (adjust_joint_pivots o) (ignore_ambf_joint_offsets o) (log o).
Definition with_log (v : list string) (o : Loader) : Loader :=
  mkLoader (ambf_data o) (joints o) (blender_remapped_body_names o) (body_T_j_c o) (objects o) (next_handle o) (loaded_joint_map o) (enable_legacy_loading o) (adjust_joint_pivots o) (ignore_ambf_joint_offsets o) v.

Definition print (line : string) (st : Loader) : Loader := with_log (line :: log st) st.

(** [get_blender_joint_type] *)
Definition get_blender_joint_type (joint_data : JointData) : string :=
  match jd_type joint_data with
  | Some t =>
      if PyStr.in_list t ["hinge"; "revolute"; "continuous"] then "HINGE"
      else if PyStr.in_list t ["prismatic"; "slider"] then "SLIDER"
      else if PyStr.in_list t ["spring"; "linear spring"; "angular spring"; "torsional spring";
                               "torsion spring"] then "GENERIC_SPRING"
      else if PyStr.in_list t ["p2p"; "point2point"] then "POINT"
      else if PyStr.in_list t ["fixed"; "FIXED"] then "FIXED"
      else "HINGE"
  | None => "HINGE"
  end.

(** [get_ambf_joint_type] *)
Definition get_ambf_joint_type (joint_data : JointData) : string :=
  match jd_type joint_data with
  | Some t =>
      if PyStr.in_list t ["hinge"; "revolute"; "continuous"] then "REVOLUTE"
      else if PyStr.in_list t ["prismatic"; "slider"] then "PRISMATIC"
      else if PyStr.in_list t ["spring"; "linear spring"] then "LINEAR_SPRING"
      else if PyStr.in_list t ["angular spring"; "torsional spring"; "torsion spring"]
      then "TORSION_SPRING"
      else if PyStr.in_list t ["p2p"; "point2point"] then "P2P"
      else if PyStr.in_list t ["fixed"; "FIXED"] then "FIXED"
      else "FIXED"
  | None => "FIXED"
  end.

(** [x is True or x == 'True'] *)
Definition flag_is_true (f : yaml_flag) : bool :=
  match f with
  | YBool b => b
  | YStr s => bool_decide (s = "True")
  end.

(** [is_detached_joint] *)
Definition is_detached_joint (joint_data : JointData) : bool :=
  let d1 := match jd_redundant joint_data with Some f => flag_is_true f | None => false end in
  let d2 := match jd_detached joint_data with Some f => flag_is_true f | None => false end in
  d1 || d2.

(** [CommonConfig.detached_joint_prefix] *)
Definition detached_joint_prefix : list string :=
  ["redundant"; "Redundant"; "REDUNDANT"; "detached"; "Detached"; "DETACHED"].

(** [has_detached_prefix]: the loop runs over every prefix. *)
Definition has_detached_prefix (joint_name : string) : bool :=
  existsb (fun p => (PyStr.rfind joint_name p =? 0)%Z) detached_joint_prefix.

(** [get_parent_and_child_object_handles]; [None] is the [KeyError] of a
    body name the document does not have. *)
Definition get_parent_and_child_object_handles (st : Loader) (joint_data : JointData)
  : option (handle * handle) :=
  parent_obj_handle ← blender_remapped_body_names st !! jd_parent joint_data;
  child_obj_handle ← blender_remapped_body_names st !! jd_child joint_data;
  Some (parent_obj_handle, child_obj_handle).

(** [get_parent_pivot_and_axis_data] *)
Definition get_parent_pivot_and_axis_data (joint_data : JointData) : xyz * xyz :=
  let parent_pivot_data := mkXYZ 0 0 0 in
  let parent_axis_data := mkXYZ 0 0 1 in
  let parent_pivot_data :=
    match jd_parent_pivot joint_data with Some d => d | None => parent_pivot_data end in
  let parent_axis_data :=
    match jd_parent_axis joint_data with Some d => d | None => parent_axis_data end in
  (parent_pivot_data, parent_axis_data).

(** [get_child_pivot_and_axis_data] *)
Definition get_child_pivot_and_axis_data (joint_data : JointData) : xyz * xyz :=
  let child_pivot_data := mkXYZ 0 0 0 in
  let child_axis_data := mkXYZ 0 0 1 in
  let child_pivot_data :=
    match jd_child_pivot joint_data with Some d => d | None => child_pivot_data end in
  let child_axis_data :=
    match jd_child_axis joint_data with Some d => d | None => child_axis_data end in
  (child_pivot_data, child_axis_data).

(** [get_standard_pivot_and_axis_data]: the pivot, the axis and the line
    printed, if any; [None] is the [KeyError] of a record without
    ['type']. *)
Definition get_standard_pivot_and_axis_data (joint_data : JointData)
  : option (xyz * xyz * list string) :=
  t ← jd_type joint_data;
  let pivot_data := mkXYZ 0 0 0 in
  let axis_data := mkXYZ 0 0 1 in
  if PyStr.in_list t ["hinge"; "continuous"; "revolute"; "fixed"] then
    Some (pivot_data, mkXYZ 0 0 1, [])
  else if PyStr.in_list t ["prismatic"; "slider"] then Some (pivot_data, mkXYZ 1 0 0, [])
  else if PyStr.in_list t ["spring"; "linear spring"] then Some (pivot_data, mkXYZ 1 0 0, [])
  else if PyStr.in_list t ["angular spring"; "torsional spring"; "torsion spring"] then
    Some (pivot_data, mkXYZ 0 0 1, [])
  else if PyStr.in_list t ["p2p"; "point2point"] then Some (pivot_data, mkXYZ 0 0 1, [])
  else
    Some (pivot_data, axis_data,
          [String.append "ERROR, ( get_standard_pivot_and_axis_data ) ( Joint Type "
             (String.append t " Not Understood")]).

(** [get_joint_offset_angle] *)
Definition get_joint_offset_angle (st : Loader) (joint_data : JointData) : R :=
  let offset_angle := 0 in
  if negb (ignore_ambf_joint_offsets st) then
    match jd_offset joint_data with Some a => a | None => offset_angle end
  else offset_angle.

(** [P = Matrix(); P.translation = Vector([d.x, d.y, d.z])] *)
Definition pivot_matrix (d : xyz) : Matrix4 := set_translation Identity4 (xyz_to_vec d).

(** [get_joint_in_world_transform]: the transform and the lines printed. *)
Definition get_joint_in_world_transform (st : Loader) (joint_data : JointData)
  : option (Matrix4 * list string) :=
  '(parent_obj_handle, child_obj_handle) ← get_parent_and_child_object_handles st joint_data;
  let '(parent_pivot_data, parent_axis_data) := get_parent_pivot_and_axis_data joint_data in
  '(standard_pivot_data, standard_axis_data, lines) ← get_standard_pivot_and_axis_data joint_data;
  parent_obj ← objects st !! parent_obj_handle;
  let T_p_w := ob_matrix_world parent_obj in
  let parent_axis := xyz_to_vec parent_axis_data in
  let P_j_p := pivot_matrix parent_pivot_data in
  let joint_axis := xyz_to_vec standard_axis_data in
  '(R_j_p, r_j_p_angle) ← get_rot_mat_from_vecs joint_axis parent_axis;
  let T_c_offset_rot := Rotation4 (get_joint_offset_angle st joint_data) parent_axis in
  T_p_w_off ← body_T_j_c st !! jd_parent joint_data;
  let T_j_w := mul4 (mul4 (mul4 (mul4 T_p_w T_p_w_off) P_j_p) T_c_offset_rot) R_j_p in
  Some (T_j_w, lines).

(** [get_child_in_world_transform] *)
Definition get_child_in_world_transform (st : Loader) (joint_data : JointData)
  : option Matrix4 :=
  '(parent_obj_handle, child_obj_handle) ← get_parent_and_child_object_handles st joint_data;
  let '(parent_pivot_data, parent_axis_data) := get_parent_pivot_and_axis_data joint_data in
  let '(child_pivot_data, child_axis_data) := get_child_pivot_and_axis_data joint_data in
  parent_obj ← objects st !! parent_obj_handle;
  let T_p_w := ob_matrix_world parent_obj in
  let parent_axis := xyz_to_vec parent_axis_data in
  let P_j_p := pivot_matrix parent_pivot_data in
  let child_axis := xyz_to_vec child_axis_data in
  '(R_c_p, r_c_p_angle) ← get_rot_mat_from_vecs child_axis parent_axis;
  let P_j_c := pivot_matrix child_pivot_data in
  P_c_j ← invert4 P_j_c;
  let T_c_offset_rot := Rotation4 (get_joint_offset_angle st joint_data) parent_axis in
  T_p_w_off ← body_T_j_c st !! jd_parent joint_data;
  let T_c_w :=
    mul4 (mul4 (mul4 (mul4 (mul4 T_p_w T_p_w_off) P_j_p) T_c_offset_rot) R_c_p) P_c_j in
  Some T_c_w.


(** Assignment to a float property with a range: Blender clamps the
    value to it.  A property declared with [min] alone goes up to
    [FLT_MAX]. *)
Definition clamp (lo hi x : R) : R :=
  if Rltb x lo then lo else if Rltb hi x then hi else x.

(** [bpy.ops.object.empty_add(type='PLAIN_AXES')] followed by naming the
    new object: a fresh empty at the origin, returned as the active
    object. *)
Definition empty_add (name : string) (st : Loader) : handle * Loader :=
  let h := next_handle st in
  let ob := {| ob_name := name; ob_type := "EMPTY"; ob_matrix_world := Identity4;
               ob_parent := None; ob_hidden := false; ob_data_transforms := None;
               ob_rigid_body_mass := None; ob_rigid_body_constraint := None;
               ob_ambf := default_ambf_props |} in
  (h, with_next_handle (S h) (with_objects (<[h := ob]> (objects st)) st)).

(** Update of one object of the scene; [None] when the handle is dangling. *)
Definition update_object (h : handle) (f : Object -> Object) (st : Loader) : option Loader :=
  ob ← objects st !! h;
  Some (with_objects (<[h := f ob]> (objects st)) st).

(** [make_obj1_parent_of_obj2]: [parent_set(keep_transform=True)] leaves
    the world transform of [obj2] as it is. *)
Definition make_obj1_parent_of_obj2 (obj1 obj2 : handle) (st : Loader) : option Loader :=
  ob2 ← objects st !! obj2;
  match ob_parent ob2 with
  | None => update_object obj2 (set_ob_parent (Some obj1)) st
  | Some _ => Some st
  end.

(** [get_blender_joint_handle] *)
Definition get_blender_joint_handle (joint_data : JointData) (st : Loader)
  : option (handle * Loader) :=
  child_obj_handle ← blender_remapped_body_names st !! jd_child joint_data;
  if is_detached_joint joint_data then
    let joint_name := jd_name joint_data in
    if has_detached_prefix joint_name then Some (empty_add joint_name st)
    else Some (empty_add (String.append "detached joint " joint_name) st)
  else Some (child_obj_handle, st).

(** [get_ambf_joint_handle]; the scaling of the empty only changes how it
    is drawn. *)
Definition get_ambf_joint_handle (joint_data : JointData) (st : Loader) : handle * Loader :=
  empty_add (jd_name joint_data) st.

(** Blender's defaults for a fresh constraint: linear limits -1 and 1,
    angular limits -45 and 45 degrees, springs off. *)
Definition default_lin_limit : AxisLimit := mkAxisLimit false (-1) 1 false (5 / 10) 10.
Definition default_ang_limit : AxisLimit :=
  mkAxisLimit false (- (PI / 4)) (PI / 4) false (5 / 10) 10.

(** [create_blender_constraint]: [bpy.ops.rigidbody.constraint_add] gives
    the object a constraint of the given type with Blender's defaults. *)
Definition create_blender_constraint (joint_obj_handle : handle) (joint_type : string)
    (parent_obj_handle child_obj_handle : handle) (st : Loader) : option Loader :=
  update_object joint_obj_handle
    (set_ob_rigid_body_constraint
       (Some (mkConstraint joint_type (Some parent_obj_handle) (Some child_obj_handle)
                default_lin_limit default_lin_limit default_lin_limit
                default_ang_limit default_ang_limit default_ang_limit))) st.

(** [create_ambf_constraint] *)
Definition create_ambf_constraint (joint_obj_handle : handle) (joint_type : string)
    (parent_obj_handle child_obj_handle : handle) (st : Loader) : option Loader :=
  update_object joint_obj_handle
    (fun ob => set_ob_ambf
       (set_ambf_constraint_child (Some child_obj_handle)
        (set_ambf_constraint_parent (Some parent_obj_handle)
         (set_ambf_constraint_type joint_type
          (set_ambf_object_type "CONSTRAINT"
           (set_ambf_constraint_enable true (ob_ambf ob)))))) ob) st.

(** [set_ambf_constraint_params]; [None] is the [KeyError] of a limits
    dict without ['low'] or ['high'] on a prismatic joint.  The float
    properties are declared with ranges ([min=-359, max=359] for the two
    limits, [min=0] for the others) and every assignment is clamped. *)
Definition set_ambf_constraint_params (joint_data : JointData) (p : AmbfProps)
  : option AmbfProps :=
  let p := set_ambf_constraint_name (jd_name joint_data) p in
  let joint_type := get_ambf_joint_type joint_data in
  p ← match jd_joint_limits joint_data with
      | Some lim =>
          if PyStr.in_list joint_type ["REVOLUTE"; "TORSION_SPRING"] then
            match low lim, high lim with
            | Some lo, Some hi =>
                Some (set_ambf_constraint_limits_higher (clamp (-359) 359 (hi * (180 / PI)))
                        (set_ambf_constraint_limits_lower
                           (clamp (-359) 359 (lo * (180 / PI))) p))
            | _, _ => Some p
            end
          else if PyStr.in_list joint_type ["PRISMATIC"; "LINEAR_SPRING"] then
            lo ← low lim; hi ← high lim;
            Some (set_ambf_constraint_limits_higher (clamp (-359) 359 hi)
                    (set_ambf_constraint_limits_lower (clamp (-359) 359 lo) p))
          else Some p
      | None => Some p
      end;
  (* set_default_ambf_constraint_axis *)
  let p :=
    if bool_decide (ambf_object_type p = "CONSTRAINT") then
      if PyStr.in_list (ambf_constraint_type p) ["REVOLUTE"; "TORSION_SPRING"] then
        set_ambf_constraint_axis "Z" p
      else if PyStr.in_list (ambf_constraint_type p) ["PRISMATIC"; "LINEAR_SPRING"] then
        set_ambf_constraint_axis "X" p
      else p
    else p in
  let p := match jd_joint_limits joint_data with
           | Some _ => p
           | None => set_ambf_constraint_limits_enable false p
           end in
  let p := match jd_damping joint_data with
           | Some d => set_ambf_constraint_damping (clamp 0 FLT_MAX d) p
           | None => p
           end in
  let p := match jd_stiffness joint_data with
           | Some k =>
               if PyStr.in_list joint_type ["LINEAR_SPRING"; "TORSION_SPRING"]
               then set_ambf_constraint_stiffness (clamp 0 FLT_MAX k) p else p
           | None => p
           end in
  let p := match jd_enable_feedback joint_data with
           | Some b => set_ambf_constraint_enable_feedback b p
           | None => p
           end in
  let p := match jd_passive joint_data with
           | Some b => set_ambf_constraint_passive b p
           | None => p
           end in
  let p := match jd_controller joint_data with
           | Some g =>
               if PyStr.in_list joint_type ["REVOLUTE"; "PRISMATIC"] then
                 set_ambf_constraint_controller_d_gain (clamp 0 FLT_MAX (gain_D g))
                   (set_ambf_constraint_controller_i_gain (clamp 0 FLT_MAX (gain_I g))
                      (set_ambf_constraint_controller_p_gain (clamp 0 FLT_MAX (gain_P g))
                         (set_ambf_constraint_enable_controller_gains true p)))
               else p
           | None => p
           end in
  let p := match jd_max_motor_impulse joint_data with
           | Some m =>
               if PyStr.in_list joint_type ["REVOLUTE"; "PRISMATIC"]
               then set_ambf_constraint_max_motor_impulse (clamp 0 FLT_MAX m) p else p
           | None => p
           end in
  Some p.

(** [set_blender_constraint_params]: limits, springs and gains written on
    the joint object; [None] is a [KeyError] (a record with limits but
    without ['type'], or limits without ['low'] or ['high']).  Blender
    clamps what is assigned to a property with a range: the angular limits
    of a rigid body constraint to [-2 pi, 2 pi], its spring values and the
    add-on's gains ([min=0]) to [0, FLT_MAX]; the linear limits have no
    range. *)
Definition set_blender_constraint_params (st : Loader) (joint_data : JointData) (ob : Object)
  : option Object :=
  let offset_angle :=
    if adjust_joint_pivots st then 0 else get_joint_offset_angle st joint_data in
  match jd_joint_limits joint_data with
  | None => Some ob
  | Some lim =>
      t ← jd_type joint_data;
      c ← ob_rigid_body_constraint ob;
      let limited (range : R -> R) (a : AxisLimit) : option AxisLimit :=
        hi ← high lim; lo ← low lim;
        Some (set_use_limit true (set_limit_lower (range (lo + offset_angle))
                (set_limit_upper (range (hi + offset_angle)) a))) in
      let angular := clamp (- (2 * PI)) (2 * PI) in
      let linear := fun x : R => x in
      let sprung (a : AxisLimit) : AxisLimit :=
        let a := match jd_damping joint_data with
                 | Some d => set_use_spring true (set_spring_damping (clamp 0 FLT_MAX d) a)
                 | None => a
                 end in
        match jd_stiffness joint_data with
        | Some k => set_use_spring true (set_spring_stiffness (clamp 0 FLT_MAX k) a)
        | None => a
        end in
      c ← (if bool_decide (t = "revolute") then
             a ← limited angular (ang_z c); Some (set_ang_z a c)
           else if bool_decide (t = "prismatic") then
             hi ← high lim; lo ← low lim;
             Some (set_lin_x (set_use_limit true (set_limit_lower lo
                     (set_limit_upper hi (lin_x c)))) c)
           else Some c);
      c ← (if PyStr.in_list t ["spring"; "linear spring"] then
             a ← limited linear (lin_x c); Some (set_lin_x (sprung a) c)
           else Some c);
      c ← (if PyStr.in_list t ["angular spring"; "torsional spring"; "torsion spring"] then
             a ← limited angular (ang_z c); Some (set_ang_z (sprung a) c)
           else Some c);
      let ob := set_ob_rigid_body_constraint (Some c) ob in
      match jd_controller joint_data with
      | Some g =>
          if PyStr.in_list t ["hinge"; "continuous"; "revolute"; "slider"; "prismatic"] then
            Some (set_ob_ambf
                    (set_ambf_joint_controller_d_gain (clamp 0 FLT_MAX (gain_D g))
                       (set_ambf_joint_controller_i_gain (clamp 0 FLT_MAX (gain_I g))
                          (set_ambf_joint_controller_p_gain (clamp 0 FLT_MAX (gain_P g))
                             (set_ambf_enable_joint_props true (ob_ambf ob))))) ob)
          else Some ob
      | None => Some ob
      end
  end.

(** [load_blender_joint] *)
Definition load_blender_joint (joint_name : string) (st : Loader) : option Loader :=
  joint_data ← ambf_data st !! joint_name;
  '(parent_obj_handle, child_obj_handle) ← get_parent_and_child_object_handles st joint_data;
  '(joint_obj_handle, st) ← get_blender_joint_handle joint_data st;
  T_c_w ← get_child_in_world_transform st joint_data;
  st ← update_object joint_obj_handle (set_ob_matrix_world T_c_w) st;
  st ← make_obj1_parent_of_obj2 parent_obj_handle joint_obj_handle st;
  st ← create_blender_constraint joint_obj_handle (get_blender_joint_type joint_data)
         parent_obj_handle child_obj_handle st;
  joint_ob ← objects st !! joint_obj_handle;
  joint_ob ← set_blender_constraint_params st joint_data joint_ob;
  st ← update_object joint_obj_handle (fun _ => joint_ob) st;
  Some (with_loaded_joint_map ((child_obj_handle, joint_data) :: loaded_joint_map st) st).

(** [load_ambf_joint] *)
Definition load_ambf_joint (joint_name : string) (st : Loader) : option Loader :=
  joint_data ← ambf_data st !! joint_name;
  '(parent_obj_handle, child_obj_handle) ← get_parent_and_child_object_handles st joint_data;
  let '(joint_obj_handle, st) := get_ambf_joint_handle joint_data st in
  '(T_j_w, lines) ← get_joint_in_world_transform st joint_data;
  let st := with_log (lines ++ log st) st in
  st ← update_object joint_obj_handle (set_ob_matrix_world T_j_w) st;
  T_c_w ← get_child_in_world_transform st joint_data;
  child_ob ← objects st !! child_obj_handle;
  st ← match ob_parent child_ob with
       | None => update_object child_obj_handle (set_ob_matrix_world T_c_w) st
       | Some _ => Some st
       end;
  st ← make_obj1_parent_of_obj2 parent_obj_handle joint_obj_handle st;
  st ← make_obj1_parent_of_obj2 joint_obj_handle child_obj_handle st;
  st ← create_ambf_constraint joint_obj_handle (get_ambf_joint_type joint_data)
         parent_obj_handle child_obj_handle st;
  joint_ob ← objects st !! joint_obj_handle;
  props ← set_ambf_constraint_params joint_data (ob_ambf joint_ob);
  st ← update_object joint_obj_handle (set_ob_ambf props) st;
  Some (with_loaded_joint_map ((child_obj_handle, joint_data) :: loaded_joint_map st) st).

(** [obj.data.transform(m)]; [None] is the [AttributeError] on an object
    without mesh data. *)
Definition data_transform (m : Matrix4) (ob : Object) : option Object :=
  l ← ob_data_transforms ob;
  Some (set_ob_data_transforms (Some (m :: l)) ob).

(** One turn of the loop of [adjust_body_pivots_and_axis], for a joint
    that has a ['child pivot'] and is not detached. *)
Definition adjust_joint (joint_name : string) (joint_data : JointData) (st : Loader)
  : option Loader :=
  let child_body_name := jd_child joint_data in
  let '(parent_pivot_data, parent_axis_data) := get_parent_pivot_and_axis_data joint_data in
  let '(child_pivot_data, child_axis_data) := get_child_pivot_and_axis_data joint_data in
  child_obj_handle ← blender_remapped_body_names st !! child_body_name;
  child_obj ← objects st !! child_obj_handle;
  let joint_type := get_ambf_joint_type joint_data in
  '(standard_pivot_data, standard_axis_data, lines) ← get_standard_pivot_and_axis_data joint_data;
  let st := with_log (lines ++ log st) st in
  let constraint_axis := xyz_to_vec standard_axis_data in
  let child_axis := xyz_to_vec child_axis_data in
  '(R_j_c, d_angle) ← get_rot_mat_from_vecs constraint_axis child_axis;
  let P_j_c := pivot_matrix child_pivot_data in
  let T_j_c := set_translation R_j_c (translation P_j_c) in
  T_c_j ← invert4 T_j_c;
  (* the pivot dict is the one of the record; the axis dict is the one of
     the record only when the record has a 'child axis' *)
  let joint_data' :=
    set_child_pivot (Some standard_pivot_data)
      (match jd_child_axis joint_data with
       | Some _ => set_child_axis (Some standard_axis_data) joint_data
       | None => joint_data
       end) in
  let st := with_ambf_data (<[joint_name := joint_data']> (ambf_data st)) st in
  st ← (if bool_decide (ob_type child_obj ≠ "EMPTY") then
          ob ← data_transform T_c_j child_obj;
          update_object child_obj_handle (fun _ => ob) st
        else Some st);
  let st := with_body_T_j_c (<[jd_child joint_data := T_c_j]> (body_T_j_c st)) st in
  (* Alignment Offset Correction *)
  let parent_axis := xyz_to_vec parent_axis_data in
  '(R_caxis_p, r_cnew_p_angle) ← get_rot_mat_from_vecs constraint_axis parent_axis;
  let R_cnew_p := mul4 R_caxis_p T_c_j in
  '(R_c_p, r_c_p_angle) ← get_rot_mat_from_vecs child_axis parent_axis;
  R_p_cnew ← invert4 R_cnew_p;
  let delta_R := mul4 R_p_cnew R_c_p in
  let d_axis_angle := to_axis_angle (to_quaternion (to_3x3 delta_R)) in
  let d_axis := round_vec (fst d_axis_angle) in
  let d_angle := snd d_axis_angle in
  let v_diff := cross d_axis child_axis in
  let st :=
    if Rltb (1 / 10) (length v_diff) && Rltb (1 / 10) (Rabs d_angle)
    then print "*** WARNING: AXIS ALIGNMENT LOGIC ERROR" st else st in
  let d_angle :=
    if Rltb (vx d_axis) 0 || Rltb (vy d_axis) 0 || Rltb (vz d_axis) 0
    then - d_angle else d_angle in
  if Rltb (1 / 10) (Rabs d_angle) then
    let R_ao := Rotation4 d_angle constraint_axis in
    child_obj ← objects st !! child_obj_handle;
    ob ← data_transform R_ao child_obj;
    st ← update_object child_obj_handle (fun _ => ob) st;
    Some (with_body_T_j_c (<[jd_child joint_data := mul4 R_ao T_c_j]> (body_T_j_c st)) st)
  else Some st.

(** The loop of [adjust_body_pivots_and_axis] over the joint names still
    to visit.  The detached branch is a [return]: it ends the pass. *)
Fixpoint adjust_joints (names : list string) (st : Loader) : option Loader :=
  match names with
  | [] => Some st
  | joint_name :: rest =>
      joint_data ← ambf_data st !! joint_name;
      match jd_child_pivot joint_data with
      | Some _ =>
          if is_detached_joint joint_data then
            Some (print (PyStr.concat ["INFO, JOINT "; PyStr.dquote; joint_name; PyStr.dquote;
                    " IS DETACHED, NO NEED TO ADJUST CHILD BODY'S AXIS AND PIVOTS"]) st)
          else
            st ← adjust_joint joint_name joint_data st;
            adjust_joints rest st
      | None => adjust_joints rest st
      end
  end.

(** [adjust_body_pivots_and_axis] *)
Definition adjust_body_pivots_and_axis (st : Loader) : option Loader :=
  adjust_joints (joints st) st.

(** The joint phase of [execute], after the bodies are loaded. *)
Definition load_joints (st : Loader) : option Loader :=
  st ← (if enable_legacy_loading st && adjust_joint_pivots st
        then adjust_body_pivots_and_axis st else Some st);
  foldl (fun acc joint_name =>
           st ← acc;
           if enable_legacy_loading st then load_blender_joint joint_name st
           else load_ambf_joint joint_name st)
        (Some st) (joints st).

End Importer.

(** ** PoseExtractor: the export path *)

Module Exporter.
Local Open Scope R_scope.

(** What one call of a [generate_joint_data_...] method does: the record it
    stores in the document under its key, if it gets that far, and the
    lines it prints (in order). *)
Record Emitted : Type := mkEmitted {
  em_joint : option (string * JointData);
  em_log : list string }.

Definition nothing : Emitted := mkEmitted None [].

(** [remove_namespace_prefix] *)
Definition remove_namespace_prefix (full_name : string) : string :=
  let last_occurance := PyStr.rfind full_name "/" in
  if (0 <? last_occurance)%Z
  then PyStr.slice_from full_name (Z.to_nat (last_occurance + 1))
  else full_name.

(** [add_body_prefix_str], [add_joint_prefix_str] *)
Definition add_body_prefix_str (s : string) : string := String.append "BODY " s.
Definition add_joint_prefix_str (s : string) : string := String.append "JOINT " s.

(** [get_default_axis_of_blender_constraint]; [None] is the unbound
    [joint_axis] of a constraint type the method does not know. *)
Definition get_default_axis_of_blender_constraint (constraint : Constraint) : option Vector :=
  let t := rbc_type constraint in
  if PyStr.in_list t ["HINGE"; "POINT"; "FIXED"] then Some (mkVec 0 0 1)
  else if bool_decide (t = "SLIDER") then Some (mkVec 1 0 0)
  else if PyStr.in_list t ["GENERIC"; "GENERIC_SPRING"] then
    if use_limit (lin_x constraint) || use_limit (ang_x constraint) then Some (mkVec 1 0 0)
    else if use_limit (lin_y constraint) || use_limit (ang_y constraint) then Some (mkVec 0 1 0)
    else if use_limit (lin_z constraint) || use_limit (ang_z constraint) then Some (mkVec 0 0 1)
    else Some (mkVec 0 0 1)
  else None.

(** [get_axis_of_ambf_constraint]; an axis other than X, Y, Z prints an
    error and then fails on the unbound [joint_axis]. *)
Definition get_axis_of_ambf_constraint (joint_obj : Object) : option Vector :=
  let a := ambf_constraint_axis (ob_ambf joint_obj) in
  if bool_decide (a = "X") then Some (mkVec 1 0 0)
  else if bool_decide (a = "Y") then Some (mkVec 0 1 0)
  else if bool_decide (a = "Z") then Some (mkVec 0 0 1)
  else None.

(** [m.copy().to_euler().to_matrix().to_4x4()] with the translation put
    back: the transform with its scale removed. *)
Definition rotation_only (m : Matrix4) : Matrix4 :=
  set_translation (to_4x4 (to_euler_to_matrix (to_3x3 m))) (translation m).

(** [compute_body_pivot_and_axis] *)
Definition compute_body_pivot_and_axis (parent child : Object) (constraint_axis : Vector)
  : option (Vector * Vector) :=
  let t_p_w := rotation_only (ob_matrix_world parent) in
  let t_c_w := rotation_only (ob_matrix_world child) in
  t_w_p ← invert4 t_p_w;
  let t_c_p := mul4 t_w_p t_c_w in
  let pivot := translation t_c_p in
  (* the axis is resized to 4d with a zero last entry: only the 3x3 block acts *)
  let axis := mulv (to_3x3 t_c_p) constraint_axis in
  Some (pivot, axis).

(** [{'x': round(v.x, 4), 'y': round(v.y, 4), 'z': round(v.z, 4)}] *)
Definition rounded_xyz (v : Vector) : xyz := mkXYZ (round (vx v) 4) (round (vy v) 4) (round (vz v) 4).

Definition store_pivots_and_axes (parent_pivot parent_axis child_pivot child_axis : Vector)
    (joint_data : JointData) : JointData :=
  set_child_axis (Some (rounded_xyz child_axis))
    (set_child_pivot (Some (rounded_xyz child_pivot))
       (set_parent_axis (Some (rounded_xyz parent_axis))
          (set_parent_pivot (Some (rounded_xyz parent_pivot)) joint_data))).

(** The residual rotation of the child about the joint axis, as both
    [generate_joint_data_...] methods compute it: the axis and angle of
    [r_p_c_ambf @ r_c_p_blender]. *)
Definition offset_axis_angle (parent_obj child_obj : Object) (parent_axis child_axis : Vector)
  : option (Vector * R * Matrix3) :=
  r_c_p_ambf ← rot_matrix_from_vecs child_axis parent_axis;
  r_p_c_ambf ← invert3 r_c_p_ambf;
  let t_p_w := ob_matrix_world parent_obj in
  r_w_p ← invert3 (to_3x3 t_p_w);
  let r_c_w := to_3x3 (ob_matrix_world child_obj) in
  let r_c_p_blender := mul3 r_w_p r_c_w in
  let r_angular_offset := mul3 r_p_c_ambf r_c_p_blender in
  let '(axis, angle) := to_axis_angle (to_quaternion r_angular_offset) in
  Some (axis, angle, r_c_p_blender).

(** The [if abs(offset_axis_angle[1]) > 0.01: ...] block: the record with
    its offset, and the line printed. *)
Definition store_offset (fname : string) (child_axis offset_axis : Vector) (angle : R)
    (joint_data : JointData) : JointData * list string :=
  if Rltb (1 / 100) (Rabs angle) then
    let offset_angle := round angle 4 in
    if Rltb (Rabs (1 - dot child_axis offset_axis)) (1 / 10) then
      (set_offset (Some offset_angle) joint_data, [])
    else if Rltb (Rabs (1 + dot child_axis offset_axis)) (1 / 10) then
      (set_offset (Some (- offset_angle)) joint_data, [])
    else
      (joint_data,
       [PyStr.concat ["ERROR: ( "; fname; " ) ( "; jd_name joint_data; " ) SHOULD'NT GET HERE"]])
  else (joint_data, []).

(** The branch of [assign_joint_params_from_blender_constraint] taken for a
    GENERIC or GENERIC_SPRING constraint: the first degree of freedom, in
    the order lin x, y, z, ang x, y, z, whose limit is in use. *)
Definition first_limited (constraint : Constraint) : option (bool * AxisLimit) :=
  if use_limit (lin_x constraint) then Some (true, lin_x constraint)
  else if use_limit (lin_y constraint) then Some (true, lin_y constraint)
  else if use_limit (lin_z constraint) then Some (true, lin_z constraint)
  else if use_limit (ang_x constraint) then Some (false, ang_x constraint)
  else if use_limit (ang_y constraint) then Some (false, ang_y constraint)
  else if use_limit (ang_z constraint) then Some (false, ang_z constraint)
  else None.

(** [assign_joint_params_from_blender_constraint].  The first stage sets
    ['type'], binds [lower_limit] and [higher_limit] where the branch does,
    and copies the spring values; the second stage writes the limits.
    [None] is the [KeyError] of a record left without ['type']. *)
Definition assign_joint_params_from_blender_constraint (constraint : Constraint)
    (joint_data : JointData) : option JointData :=
  let t := rbc_type constraint in
  let '(joint_data, limits) :=
    if bool_decide (t = "HINGE") then
      if use_limit (ang_z constraint) then
        (set_type (Some "revolute") joint_data,
         Some (limit_lower (ang_z constraint), limit_upper (ang_z constraint)))
      else (set_type (Some "continuous") joint_data, None)
    else if bool_decide (t = "SLIDER") then
      (set_type (Some "prismatic") joint_data,
       Some (limit_lower (lin_x constraint), limit_upper (lin_x constraint)))
    else if bool_decide (t = "GENERIC") then
      match first_limited constraint with
      | Some (linear, a) =>
          (set_type (Some (if linear then "prismatic" else "revolute")) joint_data,
           Some (limit_lower a, limit_upper a))
      | None => (joint_data, None)
      end
    else if bool_decide (t = "GENERIC_SPRING") then
      match first_limited constraint with
      | Some (linear, a) =>
          let joint_data :=
            set_type (Some (if linear then "linear spring" else "torsion spring")) joint_data in
          let joint_data :=
            if use_spring a
            then set_stiffness (Some (spring_stiffness a))
                   (set_damping (Some (spring_damping a)) joint_data)
            else joint_data in
          (joint_data, Some (limit_lower a, limit_upper a))
      | None => (joint_data, None)
      end
    else if bool_decide (t = "POINT") then (set_type (Some "p2p") joint_data, None)
    else if bool_decide (t = "FIXED") then (set_type (Some "fixed") joint_data, None)
    else (joint_data, None) in
  ty ← jd_type joint_data;
  if PyStr.in_list ty ["fixed"; "p2p"] then Some (set_joint_limits None joint_data)
  else if bool_decide (ty = "continuous") then
    lim ← jd_joint_limits joint_data;
    _ ← low lim; _ ← high lim;
    Some (set_joint_limits (Some (mkLimits None None)) joint_data)
  else
    '(lower_limit, higher_limit) ← limits;
    _ ← jd_joint_limits joint_data;
    Some (set_joint_limits (Some (mkLimits (Some (round lower_limit 4))
                                           (Some (round higher_limit 4)))) joint_data).

(** [assign_joint_params_from_ambf_constraint]; [math.radians(x)] is
    [x * PI / 180]. *)
Definition assign_joint_params_from_ambf_constraint (joint_obj : Object)
    (joint_data : JointData) : option JointData :=
  let p := ob_ambf joint_obj in
  let t := ambf_constraint_type p in
  let joint_data :=
    if bool_decide (t = "REVOLUTE") then set_type (Some "revolute") joint_data
    else if bool_decide (t = "PRISMATIC") then set_type (Some "prismatic") joint_data
    else if bool_decide (t = "LINEAR_SPRING") then set_type (Some "linear spring") joint_data
    else if bool_decide (t = "TORSION_SPRING") then set_type (Some "angular spring") joint_data
    else if bool_decide (t = "FIXED") then set_type (Some "fixed") joint_data
    else if bool_decide (t = "P2P") then set_type (Some "p2p") joint_data
    else joint_data in
  joint_data ←
    (if PyStr.in_list t ["REVOLUTE"; "TORSION_SPRING"] then
       joint_data ←
         (if ambf_constraint_limits_enable p then
            Some (set_joint_limits
                    (Some (mkLimits
                             (Some (round (ambf_constraint_limits_lower p * (PI / 180)) 4))
                             (Some (round (ambf_constraint_limits_higher p * (PI / 180)) 4))))
                    joint_data)
          else _ ← jd_joint_limits joint_data; Some (set_joint_limits None joint_data));
       Some (set_max_motor_impulse (Some (ambf_constraint_max_motor_impulse p)) joint_data)
     else Some joint_data);
  joint_data ←
    (if PyStr.in_list t ["PRISMATIC"; "LINEAR_SPRING"] then
       joint_data ←
         (if ambf_constraint_limits_enable p then
            Some (set_joint_limits
                    (Some (mkLimits (Some (round (ambf_constraint_limits_lower p) 4))
                                    (Some (round (ambf_constraint_limits_higher p) 4))))
                    joint_data)
          else _ ← jd_joint_limits joint_data; Some (set_joint_limits None joint_data));
       Some (set_max_motor_impulse (Some (ambf_constraint_max_motor_impulse p)) joint_data)
     else Some joint_data);
  let joint_data :=
    if PyStr.in_list t ["LINEAR_SPRING"; "TORSION_SPRING"]
    then set_stiffness (Some (round (ambf_constraint_stiffness p) 4)) joint_data
    else set_stiffness None joint_data in
  let joint_data := set_damping (Some (round (ambf_constraint_damping p) 4)) joint_data in
  joint_data ←
    (if ambf_constraint_enable_controller_gains p then
       _ ← jd_controller joint_data;
       Some (set_controller
               (Some (mkGains (round (ambf_constraint_controller_p_gain p) 4)
                              (round (ambf_constraint_controller_i_gain p) 4)
                              (round (ambf_constraint_controller_d_gain p) 4))) joint_data)
     else _ ← jd_controller joint_data; Some (set_controller None joint_data));
  let joint_data := set_enable_feedback (Some (ambf_constraint_enable_feedback p)) joint_data in
  Some (set_passive (Some (ambf_constraint_passive p)) joint_data).

(** [is_object_hidden]; [None] is its [ValueError] on a missing object. *)
Definition is_object_hidden (objects : gmap handle Object) (h : option handle) : option bool :=
  h ← h; ob ← objects !! h; Some (ob_hidden ob).

(** The detached test of the legacy exporter: an empty whose name, without
    namespace, has one of the prefixes at index 0 as its last occurrence. *)
Definition is_detached_joint_object (joint_obj : Object) : bool :=
  bool_decide (ob_type joint_obj = "EMPTY") &&
  existsb (fun p => (PyStr.rfind (remove_namespace_prefix (ob_name joint_obj)) p =? 0)%Z)
          Importer.detached_joint_prefix.

Definition round_matrix (m : Matrix3) : Matrix3 :=
  mkMat3 (round (m00 m) 4) (round (m01 m) 4) (round (m02 m) 4)
         (round (m10 m) 4) (round (m11 m) 4) (round (m12 m) 4)
         (round (m20 m) 4) (round (m21 m) 4) (round (m22 m) 4).

(** [generate_joint_data_from_blender_constraint]: the legacy exporter.
    [objects] is [bpy.data.objects]; [None] is a Python exception. *)
Definition generate_joint_data_from_blender_constraint (objects : gmap handle Object)
    (joint_obj : Object) : option Emitted :=
  if ob_hidden joint_obj then Some nothing
  else
    match ob_rigid_body_constraint joint_obj with
    | None => Some nothing
    | Some constraint =>
        hidden1 ← match rbc_object1 constraint with
                  | Some h => is_object_hidden objects (Some h)
                  | None => Some false
                  end;
        hidden2 ← match rbc_object2 constraint with
                  | Some h => is_object_hidden objects (Some h)
                  | None => Some false
                  end;
        if hidden1 || hidden2 then Some nothing
        else if negb (PyStr.in_list (rbc_type constraint)
                        ["FIXED"; "HINGE"; "SLIDER"; "POINT"; "GENERIC"; "GENERIC_SPRING"])
        then Some nothing
        else
          match rbc_object1 constraint with
          | None => Some nothing
          | Some parent_h =>
              parent_obj_handle ← objects !! parent_h;
              child_h ← rbc_object2 constraint;
              child_obj_handle ← objects !! child_h;
              let parent_obj_handle_name := remove_namespace_prefix (ob_name parent_obj_handle) in
              let child_obj_handle_name := remove_namespace_prefix (ob_name child_obj_handle) in
              let obj_handle_name := remove_namespace_prefix (ob_name joint_obj) in
              let joint_data :=
                set_child (add_body_prefix_str child_obj_handle_name)
                  (set_parent (add_body_prefix_str parent_obj_handle_name)
                     (set_name (PyStr.concat [parent_obj_handle_name; "-"; child_obj_handle_name])
                        JointTemplate)) in
              constraint_axis ← get_default_axis_of_blender_constraint constraint;
              let _is_detached_joint := is_detached_joint_object joint_obj in
              '(parent_pivot, parent_axis, child_pivot, child_axis, joint_data, log1) ←
                (if _is_detached_joint then
                   '(parent_pivot, parent_axis) ←
                     compute_body_pivot_and_axis parent_obj_handle joint_obj constraint_axis;
                   '(child_pivot, child_axis) ←
                     compute_body_pivot_and_axis child_obj_handle joint_obj constraint_axis;
                   Some (parent_pivot, parent_axis, child_pivot, child_axis,
                         set_detached (Some (YBool true)) joint_data,
                         [PyStr.concat ["INFO: FOR BODY "; PyStr.dquote; obj_handle_name;
                                        PyStr.dquote; " ADDING DETACHED JOINT"]])
                 else
                   '(parent_pivot, parent_axis) ←
                     compute_body_pivot_and_axis parent_obj_handle child_obj_handle constraint_axis;
                   let child_pivot := mkVec 0 0 0 in
                   child_axis ← get_default_axis_of_blender_constraint constraint;
                   Some (parent_pivot, parent_axis, child_pivot, child_axis, joint_data, []));
              let joint_data :=
                store_pivots_and_axes parent_pivot parent_axis child_pivot child_axis joint_data in
              joint_data ← assign_joint_params_from_blender_constraint constraint joint_data;
              '(offset_axis, angle, _) ←
                offset_axis_angle parent_obj_handle child_obj_handle parent_axis child_axis;
              let '(joint_data, log2) :=
                store_offset "generate_joint_data_from_blender_constraint"
                  child_axis offset_axis angle joint_data in
              let joint_yaml_name := add_joint_prefix_str (jd_name joint_data) in
              let joint_data :=
                if PyStr.in_list (rbc_type constraint) ["HINGE"; "SLIDER"; "GENERIC"] then
                  let p := ob_ambf joint_obj in
                  if ambf_enable_joint_props p then
                    set_damping (Some (round (ambf_joint_damping p) 4))
                      (set_controller
                         (Some (mkGains (round (ambf_joint_controller_p_gain p) 4)
                                        (round (ambf_joint_controller_i_gain p) 4)
                                        (round (ambf_joint_controller_d_gain p) 4)))
                         joint_data)
                  else set_controller None joint_data
                else joint_data in
              Some (mkEmitted (Some (joint_yaml_name, joint_data)) (log1 ++ log2))
          end
    end.

(** [generate_joint_data_from_ambf_constraint]: the exporter of the
    add-on's own constraints. *)
Definition generate_joint_data_from_ambf_constraint (objects : gmap handle Object)
    (joint_obj : Object) : option Emitted :=
  let p := ob_ambf joint_obj in
  if bool_decide (ambf_object_type p ≠ "CONSTRAINT") then Some nothing
  else if ob_hidden joint_obj then Some nothing
  else
    valid_parent ← match ambf_constraint_parent p with
                   | Some h => hidden ← is_object_hidden objects (Some h); Some (negb hidden)
                   | None => Some false
                   end;
    valid_child ← match ambf_constraint_child p with
                  | Some h => hidden ← is_object_hidden objects (Some h); Some (negb hidden)
                  | None => Some false
                  end;
    if negb (valid_parent && valid_child) then
      Some (mkEmitted None
              [PyStr.concat ["ERROR! CONSTRAINT:  "; ob_name joint_obj;
                             "  IS NOT A VALID CONSTRAINT, SKIPPING"]])
    else
      parent_h ← ambf_constraint_parent p;
      child_h ← ambf_constraint_child p;
      parent_obj_handle ← objects !! parent_h;
      child_obj_handle ← objects !! child_h;
      let parent_obj_handle_name := remove_namespace_prefix (ob_name parent_obj_handle) in
      let child_obj_handle_name := remove_namespace_prefix (ob_name child_obj_handle) in
      let joint_data :=
        if bool_decide (ambf_constraint_name p = EmptyString)
        then set_name (PyStr.concat [parent_obj_handle_name; "-"; child_obj_handle_name])
               JointTemplate
        else set_name (ambf_constraint_name p) JointTemplate in
      let joint_data :=
        set_child (add_body_prefix_str child_obj_handle_name)
          (set_parent (add_body_prefix_str parent_obj_handle_name) joint_data) in
      constraint_axis ← get_axis_of_ambf_constraint joint_obj;
      '(parent_pivot, parent_axis) ←
        compute_body_pivot_and_axis parent_obj_handle joint_obj constraint_axis;
      '(child_pivot, child_axis) ←
        compute_body_pivot_and_axis child_obj_handle joint_obj constraint_axis;
      let joint_data := set_detached (Some (YBool true)) joint_data in
      let joint_data :=
        store_pivots_and_axes parent_pivot parent_axis child_pivot child_axis joint_data in
      joint_data ← assign_joint_params_from_ambf_constraint joint_obj joint_data;
      '(offset_axis, angle, r_c_p_blender) ←
        offset_axis_angle parent_obj_handle child_obj_handle parent_axis child_axis;
      let '(joint_data, log2) :=
        store_offset "generate_joint_data_from_ambf_constraint"
          child_axis offset_axis angle joint_data in
      _ ← jd_body_rotation joint_data;
      let joint_data := set_body_rotation (Some (round_matrix r_c_p_blender)) joint_data in
      let joint_yaml_name := add_joint_prefix_str (jd_name joint_data) in
      Some (mkEmitted (Some (joint_yaml_name, joint_data)) log2).

(** The body of the joint loop of [generate_ambf_yaml]: which of the two
    methods an object goes through is the scene's [enable_legacy_loading]. *)
Definition generate_joint_data (enable_legacy_loading : bool) (objects : gmap handle Object)
    (obj_handle : Object) : option Emitted :=
  if enable_legacy_loading
  then generate_joint_data_from_blender_constraint objects obj_handle
  else generate_joint_data_from_ambf_constraint objects obj_handle.

(** [sys._getframe().f_code.co_name] in each of the two methods. *)
Definition co_name (enable_legacy_loading : bool) : string :=
  if enable_legacy_loading then "generate_joint_data_from_blender_constraint"
  else "generate_joint_data_from_ambf_constraint".

End Exporter.

(** ** HierarchyResolver *)

Module Hierarchy.

(** The scene as the ordering pass sees it: [bpy.data.objects] in its
    enumeration order, and the [parent] attribute of every object.
    [obj.children] is Blender's: the objects of [bpy.data.objects] whose
    parent is [obj], in enumeration order. *)
Section Scene.
Variable objects : list handle.
Variable parent : handle -> option handle.

Definition children (body : handle) : list handle :=
  filter (fun c => parent c = Some body) objects.

(** [get_grand_parent]: the [while] loop, with fuel. *)
Fixpoint get_grand_parent (fuel : nat) (body : handle) : option handle :=
  match fuel with
  | O => None
  | S fuel =>
      match parent body with
      | None => Some body
      | Some p => get_grand_parent fuel p
      end
  end.

(** The two containers the pass threads through: the list being built and
    the dict of added flags. *)
Definition pass_state : Type := list handle * gmap handle bool.

(** [downward_tree_pass(body, _heirarichal_bodies_list, _added_bodies_list)],
    with fuel for the recursion; [body] is never [None] at its two call
    sites.  [None] is running out of fuel or the [KeyError] of a body the
    dict does not have. *)
Fixpoint downward_tree_pass (fuel : nat) (body : handle) (st : pass_state)
  : option pass_state :=
  match fuel with
  | O => None
  | S fuel =>
      let _heirarichal_bodies_list : list handle := fst st in
      let _added_bodies_list : gmap handle bool := snd st in
      match _added_bodies_list !! body with
      | None => None
      | Some true => Some st
      | Some false =>
          let st : pass_state :=
            (_heirarichal_bodies_list ++ [body], <[body := true]> _added_bodies_list) in
          foldl (fun acc child => st ← acc; downward_tree_pass fuel child st)
                (Some st) (children body)
      end
  end.

(** [populate_heirarchial_tree] *)
Definition populate_heirarchial_tree (fuel : nat) : option (list handle) :=
  let _added_bodies_list : gmap handle bool :=
    foldl (fun m obj_handle => <[obj_handle := false]> m) ∅ objects in
  st ← foldl (fun acc obj_handle =>
                st ← acc;
                grand_parent ← get_grand_parent fuel obj_handle;
                downward_tree_pass fuel grand_parent st)
             (Some ([], _added_bodies_list)) objects;
  Some (fst st).

(** [a] is a structural ancestor of [x]. *)
Inductive ancestor : handle -> handle -> Prop :=
  | ancestor_parent x p : parent x = Some p -> ancestor p x
  | ancestor_step x p a : parent x = Some p -> ancestor a p -> ancestor a x.

End Scene.

(** [a] comes before [x] in the list. *)
Definition before (l : list handle) (a x : handle) : Prop :=
  exists i j, l !! i = Some a /\ l !! j = Some x /\ i < j.

End Hierarchy.

(** ** Auxiliary notions used in the statements *)

Section Auxiliary.
Local Open Scope R_scope.

(** The matrix of the last branch of [rot_matrix_from_vecs]:
    [I + [v]x + [v]x @ [v]x * k]. *)
Definition skew_rodrigues (v : Vector) (k : R) : Matrix3 :=
  add3 (add3 Identity3 (skew_mat v)) (scale3 (mul3 (skew_mat v) (skew_mat v)) k).

(** The kind strings of the format's vocabulary. *)
Definition joint_type_vocabulary : list string :=
  ["revolute"; "hinge"; "continuous"; "prismatic"; "slider"; "spring"; "linear spring";
   "angular spring"; "torsional spring"; "torsion spring"; "p2p"; "point2point"; "fixed"].

(** A mesh body at a given world transform. *)
Definition mesh_body (name : string) (world : Matrix4) (parent : option handle) : Object :=
  {| ob_name := name; ob_type := "MESH"; ob_matrix_world := world; ob_parent := parent;
     ob_hidden := false; ob_data_transforms := Some []; ob_rigid_body_mass := Some 1;
     ob_rigid_body_constraint := None; ob_ambf := Importer.default_ambf_props |}.

(** [Matrix.Translation(v)] *)
Definition Translation (x y z : R) : Matrix4 := mkMat4 Identity3 (mkVec x y z).

(** A revolute joint record between two bodies with both axes on Z, the
    child pivot at the origin and no offset. *)
Definition plain_joint (name parent child : string) (pivot : xyz) : JointData :=
  set_type (Some "revolute")
    (set_child_axis (Some (mkXYZ 0 0 1))
       (set_child_pivot (Some (mkXYZ 0 0 0))
          (set_parent_axis (Some (mkXYZ 0 0 1))
             (set_parent_pivot (Some pivot)
                (set_child child (set_parent parent (set_name name JointTemplate))))))).

(** A joint record as a document that leaves the four geometry fields
    out gives it: name, parent, child and type only. *)
Definition bare_joint (name parent child type : string) : JointData :=
  {| jd_name := name; jd_parent := parent; jd_child := child;
     jd_parent_axis := None; jd_parent_pivot := None;
     jd_child_axis := None; jd_child_pivot := None;
     jd_joint_limits := None; jd_enable_feedback := None; jd_passive := None;
     jd_controller := None; jd_body_rotation := None;
     jd_type := Some type; jd_offset := None; jd_detached := None; jd_redundant := None;
     jd_damping := None; jd_stiffness := None; jd_max_motor_impulse := None |}.

(** A document with a closed loop, after its bodies are loaded: bodies P
    (handle 0), C (handle 1) and Q (handle 2); C already hangs under Q in
    the scene and sits at (5,5,5); joint "j" joins P to C with its pivot
    at (1,0,0) in P. *)
Definition loop_scene (legacy : bool) : Importer.Loader :=
  {| Importer.ambf_data := {[ "j" := plain_joint "j" "P" "C" (mkXYZ 1 0 0) ]};
     Importer.joints := ["j"];
     Importer.blender_remapped_body_names := {[ "P" := 0%nat; "C" := 1%nat; "Q" := 2%nat ]};
     Importer.body_T_j_c := {[ "P" := Identity4; "C" := Identity4; "Q" := Identity4 ]};
     Importer.objects := {[ 0%nat := mesh_body "P" Identity4 None;
                            1%nat := mesh_body "C" (Translation 5 5 5) (Some 2%nat);
                            2%nat := mesh_body "Q" Identity4 None ]};
     Importer.next_handle := 3%nat;
     Importer.loaded_joint_map := [];
     Importer.enable_legacy_loading := legacy;
     Importer.adjust_joint_pivots := false;
     Importer.ignore_ambf_joint_offsets := false;
     Importer.log := [] |}.

(** A legacy document whose first joint "d" is detached and whose second
    joint "j" has its child pivot away from the origin, at (0,0,1); the
    joints listed are [names]. *)
Definition detached_first_scene (names : list string) : Importer.Loader :=
  {| Importer.ambf_data :=
       {[ "d" := set_detached (Some (YBool true)) (plain_joint "d" "Q" "C" (mkXYZ 0 0 0));
          "j" := set_child_pivot (Some (mkXYZ 0 0 1)) (plain_joint "j" "P" "Q" (mkXYZ 1 0 0)) ]};
     Importer.joints := names;
     Importer.blender_remapped_body_names := {[ "P" := 0%nat; "C" := 1%nat; "Q" := 2%nat ]};
     Importer.body_T_j_c := {[ "P" := Identity4; "C" := Identity4; "Q" := Identity4 ]};
     Importer.objects := {[ 0%nat := mesh_body "P" Identity4 None;
                            1%nat := mesh_body "C" Identity4 None;
                            2%nat := mesh_body "Q" Identity4 None ]};
     Importer.next_handle := 3%nat;
     Importer.loaded_joint_map := [];
     Importer.enable_legacy_loading := true;
     Importer.adjust_joint_pivots := true;
     Importer.ignore_ambf_joint_offsets := false;
     Importer.log := [] |}.

(** An empty carrying one of the add-on's own constraints, of the given
    type and axis, between two objects, with the given motor impulse. *)
Definition ambf_constraint_object (name type axis : string) (world : Matrix4)
    (parent child : handle) (impulse : R) : Object :=
  {| ob_name := name; ob_type := "EMPTY"; ob_matrix_world := world; ob_parent := None;
     ob_hidden := false; ob_data_transforms := None; ob_rigid_body_mass := None;
     ob_rigid_body_constraint := None;
     ob_ambf :=
       set_ambf_constraint_max_motor_impulse impulse
         (set_ambf_constraint_axis axis
            (set_ambf_constraint_child (Some child)
               (set_ambf_constraint_parent (Some parent)
                  (set_ambf_constraint_type type
                     (set_ambf_object_type "CONSTRAINT"
                        (set_ambf_constraint_enable true Importer.default_ambf_props)))))) |}.

(** A GENERIC_SPRING rigid body constraint whose linear x limit and spring
    are in use, with the given spring damping and stiffness. *)
Definition spring_constraint (parent child : handle) (damping stiffness : R) : Constraint :=
  mkConstraint "GENERIC_SPRING" (Some parent) (Some child)
    (mkAxisLimit true (-1) 1 true damping stiffness)
    Importer.default_lin_limit Importer.default_lin_limit
    Importer.default_ang_limit Importer.default_ang_limit Importer.default_ang_limit.

(** The angle of the rotation that takes the frame [a] to the frame [b]:
    the arc cosine of [(trace (a^T b) - 1) / 2]. *)
Definition rotation_angle_between (a b : Matrix3) : R :=
  acos ((trace3 (mul3 (transpose3 a) b) - 1) / 2).

(** A body tilted about X (cosine 0.96, sine 0.28) after a turn about Z by
    the same angle, placed at (1,0,0). *)
Definition tilted_rotation : Matrix3 :=
  mkMat3 (96 / 100) (- (28 / 100)) 0
         (2688 / 10000) (9216 / 10000) (- (28 / 100))
         (784 / 10000) (2688 / 10000) (96 / 100).

Definition tilted_world : Matrix4 := mkMat4 tilted_rotation (mkVec 1 0 0).

(** A HINGE rigid body constraint without limits. *)
Definition hinge_constraint (parent child : handle) : Constraint :=
  mkConstraint "HINGE" (Some parent) (Some child)
    Importer.default_lin_limit Importer.default_lin_limit Importer.default_lin_limit
    Importer.default_ang_limit Importer.default_ang_limit Importer.default_ang_limit.

(** The child body of the tilted scene: it carries the hinge that joins it
    to its parent, as legacy scenes do. *)
Definition tilted_child : Object :=
  set_ob_rigid_body_constraint (Some (hinge_constraint 0%nat 1%nat))
    (mesh_body "C" tilted_world (Some 0%nat)).

(** [bpy.data.objects] of the tilted scene: P at the origin, C tilted. *)
Definition tilted_objects : gmap handle Object :=
  {[ 0%nat := mesh_body "P" Identity4 None; 1%nat := tilted_child ]}.


(** The joint record the legacy exporter writes for the tilted scene. *)
Definition tilted_joint : JointData :=
  set_controller None
    (set_joint_limits (Some (mkLimits None None))
       (set_type (Some "continuous")
          (set_child_axis (Some (mkXYZ 0 0 1))
             (set_child_pivot (Some (mkXYZ 0 0 0))
                (set_parent_axis (Some (mkXYZ 0 (- (28 / 100)) (96 / 100)))
                   (set_parent_pivot (Some (mkXYZ 1 0 0))
                      (set_child "BODY C"
                         (set_parent "BODY P" (set_name "P-C" JointTemplate))))))))).

(** The line the offset block prints when the residual axis is neither
    along nor against the child axis. *)
Definition offset_error_line (fname name : string) : string :=
  PyStr.concat ["ERROR: ( "; fname; " ) ( "; name; " ) SHOULD'NT GET HERE"].

End Auxiliary.

(** ** Notions used to state what the exporters write *)

Section ExportViews.
Local Open Scope R_scope.

(** Two records that agree on every field the later stages of an exporter
    leave alone, ['offset'] apart. *)
Definition same_geometry_but_offset (a b : JointData) : Prop :=
  jd_name a = jd_name b /\ jd_parent a = jd_parent b /\ jd_child a = jd_child b /\
  jd_parent_pivot a = jd_parent_pivot b /\ jd_parent_axis a = jd_parent_axis b /\
  jd_child_pivot a = jd_child_pivot b /\ jd_child_axis a = jd_child_axis b /\
  jd_detached a = jd_detached b /\ jd_body_rotation a = jd_body_rotation b.

Definition same_geometry (a b : JointData) : Prop :=
  same_geometry_but_offset a b /\ jd_offset a = jd_offset b.

(** The value the offset block leaves under ['offset'] in a record that
    had none, and the lines it prints, read off its three branches. *)
Definition offset_written (child_axis offset_axis : Vector) (angle : R) : option R :=
  if Rltb (1 / 100) (Rabs angle) then
    if Rltb (Rabs (1 - dot child_axis offset_axis)) (1 / 10) then Some (round angle 4)
    else if Rltb (Rabs (1 + dot child_axis offset_axis)) (1 / 10) then Some (- round angle 4)
    else None
  else None.

Definition offset_lines (fname name : string) (child_axis offset_axis : Vector) (angle : R)
  : list string :=
  if Rltb (1 / 100) (Rabs angle) then
    if Rltb (Rabs (1 - dot child_axis offset_axis)) (1 / 10) then []
    else if Rltb (Rabs (1 + dot child_axis offset_axis)) (1 / 10) then []
    else [offset_error_line fname name]
  else [].

(** A scene of the add-on's own constraints: body C hangs under body P in
    the scene tree, both at the origin, and the empty J, one unit along X,
    carries a revolute constraint from P to C.  J's name has none of the
    detached prefixes. *)
Definition parented_objects : gmap handle Object :=
  {[ 0%nat := mesh_body "P" Identity4 None; 1%nat := mesh_body "C" Identity4 (Some 0%nat) ]}.

Definition plain_constraint_object : Object :=
  ambf_constraint_object "J" "REVOLUTE" "Z" (Translation 1 0 0) 0%nat 1%nat (5 / 100).

(** A proper rotation: orthonormal columns and determinant 1. *)
Definition rotation_matrix (m : Matrix3) : Prop := orthonormal m /\ det3 m = 1.

(** The matrices on which the Euler decomposition of [to_euler] is exact:
    first column not within [16 * FLT_EPSILON] of the Z axis, or exactly
    on it.  In between, [mat3_normalized_to_eul2] takes its degenerate
    branch on a matrix that is not degenerate and the rebuilt matrix is
    off by up to that much. *)
Definition euler_exact (m : Matrix3) : Prop :=
  let cy := sqrt (m00 m * m00 m + m10 m * m10 m) in
  cy = 0 \/ 16 * FLT_EPSILON < cy.

(** The world transform of a body without scale. *)
Definition rigid_pose (T : Matrix4) : Prop :=
  rotation_matrix (to_3x3 T) /\ euler_exact (to_3x3 T).

(** The rotation about Z by [theta]. *)
Definition rotation_about_z (theta : R) : Matrix3 :=
  mkMat3 (cos theta) (- sin theta) 0
         (sin theta) (cos theta) 0
         0 0 1.









End ExportViews.

(** ** Notions used to state what the ordering pass keeps *)

(** What holds of the list and the flags between any two steps of the
    ordering pass: the list has no repetition and holds scene objects only,
    the flag of every scene object says whether it is in the list, and
    every listed object comes after its parent. *)
Definition pass_invariant (objects : list handle) (parent : handle -> option handle)
    (st : Hierarchy.pass_state) : Prop :=
  NoDup (fst st) /\
  (forall x, x ∈ fst st -> x ∈ objects) /\
  (forall x, x ∈ objects -> snd st !! x = Some (bool_decide (x ∈ fst st))) /\
  (forall x p, x ∈ fst st -> parent x = Some p -> Hierarchy.before (fst st) p x).

(** Every listed object that is not on the recursion [stack] has all its
    children listed. *)
Definition closed_but (objects : list handle) (parent : handle -> option handle)
    (stack : list handle) (l : list handle) : Prop :=
  forall x c, x ∈ l -> x ∉ stack -> c ∈ objects -> parent c = Some x -> c ∈ l.

(** A forest of five bodies, enumerated children first: 0 and 4 are
    roots, 1 and 2 hang under 0, and 3 under 1. *)
Definition forest_objects : list handle := [3; 2; 1; 0; 4]%nat.

Definition forest_parent (h : handle) : option handle :=
  match h with
  | 1%nat => Some 0%nat
  | 2%nat => Some 0%nat
  | 3%nat => Some 1%nat
  | _ => None
  end.

Definition forest_rank (h : handle) : nat :=
  match h with
  | 1%nat => 1%nat
  | 2%nat => 1%nat
  | 3%nat => 2%nat
  | _ => 0%nat
  end.

(** ** Namespaces of object names *)

Module Namespace.

(** [s[0:i]] *)
Definition slice_to (s : string) (i : nat) : string := String.substring 0 i s.

(** [s[-1]]; [None] is the [IndexError] of the empty string. *)
Fixpoint last_char (s : string) : option string :=
  match s with
  | EmptyString => None
  | String c s' =>
      match s' with
      | EmptyString => Some (String c EmptyString)
      | String _ _ => last_char s'
      end
  end.

(** [set_global_namespace(context, namespace)]: the value it leaves in
    [CommonConfig.namespace] and in [context.scene.ambf_namespace], and
    the lines it prints. *)
Definition set_global_namespace (namespace : string) : option (string * list string) :=
  c ← last_char namespace;
  if bool_decide (c ≠ "/") then
    Some (String.append namespace "/",
          ["WARNING, MULTI-BODY NAMESPACE SHOULD END WITH '/'"])
  else Some (namespace, []).

(** [get_body_namespace(fullname)] *)
Definition get_body_namespace (fullname : string) : string :=
  let last_occurance := PyStr.rfind fullname "/" in
  let _body_namespace := EmptyString in
  if (0 <=? last_occurance)%Z
  then slice_to fullname (Z.to_nat (last_occurance + 1))
  else _body_namespace.

(** [compare_body_namespace_with_global(fullname)]; [namespace] is
    [CommonConfig.namespace]. *)
Definition compare_body_namespace_with_global (namespace fullname : string) : bool :=
  let last_occurance := PyStr.rfind fullname "/" in
  if (0 <=? last_occurance)%Z then
    let _body_namespace := slice_to fullname (Z.to_nat (last_occurance + 1)) in
    if bool_decide (namespace = _body_namespace) then true else false
  else false.

(** [add_namespace_prefix(name)] *)
Definition add_namespace_prefix (namespace name : string) : string :=
  String.append namespace name.

End Namespace.

(** ** Axes of a bounding box *)

Module Axes.
Local Open Scope R_scope.

(** [max(l)] and [min(l)]: the first largest and the first smallest
    element; [None] is the [ValueError] of an empty list. *)
Definition py_max {A : Type} (ltb : A -> A -> bool) (l : list A) : option A :=
  match l with
  | [] => None
  | x :: l => Some (foldl (fun m y => if ltb m y then y else m) x l)
  end.

Definition py_min {A : Type} (ltb : A -> A -> bool) (l : list A) : option A :=
  match l with
  | [] => None
  | x :: l => Some (foldl (fun m y => if ltb y m then y else m) x l)
  end.

(** [l.index(v)]; [None] is the [ValueError] of a value not in the list. *)
Fixpoint py_index {A : Type} (eqb : A -> A -> bool) (v : A) (l : list A) : option nat :=
  match l with
  | [] => None
  | x :: l => if eqb x v then Some 0%nat else S <$> py_index eqb v l
  end.

(** [l[i] = v]; [None] is the [IndexError]. *)
Definition set_item {A : Type} (l : list A) (i : nat) (v : A) : option (list A) :=
  if bool_decide (i < List.length l)%nat then Some (<[i := v]> l) else None.

(** The dict [{0: 'x', 1: 'y', 2: 'z'}] *)
Definition axis : gmap nat string := {[ 0%nat := "x"; 1%nat := "y"; 2%nat := "z" ]}.

(** The list [sum_diff] of [get_major_axis] and [get_minor_axis];
    [dims] is indexed from 0 to 2. *)
Definition sum_diff (d : Vector) : list R :=
  [Rabs (vx d - vy d) + Rabs (vx d - vz d);
   Rabs (vy d - vx d) + Rabs (vy d - vz d);
   Rabs (vz d - vx d) + Rabs (vz d - vy d)].

(** [get_major_axis(dims)] *)
Definition get_major_axis (dims : Vector) : option (string * nat) :=
  let d := dims in
  let sum_diff := sum_diff d in
  s0 ← sum_diff !! 0%nat;
  s1 ← sum_diff !! 1%nat;
  s2 ← sum_diff !! 2%nat;
  axis_idx ← (if Reqb s0 s1 && Reqb s1 s2 then Some 2%nat
              else m ← py_max Rltb sum_diff; py_index Reqb m sum_diff);
  a ← axis !! axis_idx;
  Some (a, axis_idx).

(** [get_minor_axis(dims)] *)
Definition get_minor_axis (dims : Vector) : option (string * nat) :=
  let d := dims in
  let sum_diff := sum_diff d in
  mx ← py_max Rltb sum_diff;
  max_idx ← py_index Reqb mx sum_diff;
  mn ← py_min Rltb sum_diff;
  min_idx ← py_index Reqb mn sum_diff;
  let sort_idx := [1; 1; 1]%Z in
  sort_idx ← set_item sort_idx max_idx 0%Z;
  sort_idx ← set_item sort_idx min_idx 0%Z;
  m ← py_max Z.ltb sort_idx;
  median_idx ← py_index Z.eqb m sort_idx;
  a ← axis !! median_idx;
  Some (a, median_idx).

(** [get_median_axis(dims)] *)
Definition get_median_axis (dims : Vector) : option (string * nat) :=
  '(maj_ax, maj_ax_idx) ← get_major_axis dims;
  '(min_ax, min_ax_idx) ← get_minor_axis dims;
  let med_axis_idx := [1; 1; 1]%Z in
  med_axis_idx ← set_item med_axis_idx maj_ax_idx 0%Z;
  med_axis_idx ← set_item med_axis_idx min_ax_idx 0%Z;
  m ← py_max Z.ltb med_axis_idx;
  axis_idx ← py_index Z.eqb m med_axis_idx;
  a ← axis !! axis_idx;
  Some (a, axis_idx).

(** [get_axis_str(axis_idx)]; [None] is Python's [None]. *)
Definition get_axis_str (axis_idx : Z) : option string :=
  if (axis_idx =? 0)%Z then Some "X"
  else if (axis_idx =? 1)%Z then Some "Y"
  else if (axis_idx =? 2)%Z then Some "Z"
  else None.

(** [get_axis_idx(axis_str)]; [None] is Python's [None]. *)
Definition get_axis_idx (axis_str : string) : option Z :=
  if bool_decide (axis_str = "X") then Some 0%Z
  else if bool_decide (axis_str = "Y") then Some 1%Z
  else if bool_decide (axis_str = "Z") then Some 2%Z
  else None.

End Axes.

(** ** Principal inertias of the collision shapes *)

Module Inertia.
Local Open Scope R_scope.

(** [I[i] = v] on a 3-vector, for an index counted from 0; [None] is the
    [IndexError] of an index past 2. *)
Definition set_component (I : Vector) (i : nat) (v : R) : option Vector :=
  match i with
  | 0%nat => Some (mkVec v (vy I) (vz I))
  | 1%nat => Some (mkVec (vx I) v (vz I))
  | 2%nat => Some (mkVec (vx I) (vy I) v)
  | _ => None
  end.

(** [inertia_of_box(mass, lx, ly, lz)] *)
Definition inertia_of_box (mass lx ly lz : R) : Vector :=
  mkVec (1 / 12 * mass * (ly * ly + lz * lz))
        (1 / 12 * mass * (lx * lx + lz * lz))
        (1 / 12 * mass * (lx * lx + ly * ly)).

(** [inertia_of_sphere(mass, r)] *)
Definition inertia_of_sphere (mass r : R) : Vector :=
  let r2 := r * r in
  mkVec (2 / 5 * mass * r2) (2 / 5 * mass * r2) (2 / 5 * mass * r2).

(** [inertia_of_cylinder(mass, r, h, axis)] *)
Definition inertia_of_cylinder (mass r h : R) (axis : nat) : option Vector :=
  let I := vzero in
  let r2 := r * r in
  let h2 := h * h in
  I ← set_component I axis (1 / 2 * mass * r2);
  I ← set_component I ((axis + 1) mod 3) (1 / 4 * mass * r2 + 1 / 12 * mass * h2);
  I ← set_component I ((axis + 2) mod 3) (1 / 4 * mass * r2 + 1 / 12 * mass * h2);
  Some I.

(** [inertia_of_cone(mass, r, h, axis)] *)
Definition inertia_of_cone (mass r h : R) (axis : nat) : option Vector :=
  let I := vzero in
  let r2 := r * r in
  let h2 := h * h in
  I ← set_component I axis (3 / 10 * mass * r2);
  I ← set_component I ((axis + 1) mod 3) (3 / 20 * mass * r2 + 3 / 5 * mass * h2);
  I ← set_component I ((axis + 2) mod 3) (3 / 20 * mass * r2 + 3 / 5 * mass * h2);
  Some I.

(** [inertia_of_capsule(mass, r, h_total, axis)] *)
Definition inertia_of_capsule (mass r h_total : R) (axis : nat) : option Vector :=
  let I := vzero in
  let h := h_total - r * 2 in
  if Rleb h (1 / 1000) then Some (inertia_of_sphere mass r)
  else
    let r2 := r * r in
    let h2 := h * h in
    let mass_factor := 2 * r / (3 * h) in
    let m_hs := mass * mass_factor in
    let m_cy := mass * (1 - mass_factor) in
    I ← set_component I axis (1 / 2 * m_cy * r2 + 4 / 5 * m_hs * r2);
    I ← set_component I ((axis + 1) mod 3)
          (1 / 12 * m_cy * (h2 + 3 * r2) +
           2 * m_hs * (2 * r2 / 5 + h2 / 2 + 3 / 8 * h * r));
    I ← set_component I ((axis + 2) mod 3)
          (1 / 12 * m_cy * (h2 + 3 * r2) +
           2 * m_hs * (2 * r2 / 5 + h2 / 2 + 3 / 8 * h * r));
    Some I.

End Inertia.

(** ** Notions used to state what the shape helpers compute *)

Section ShapeViews.
Local Open Scope R_scope.

(** [v[i]] for [i] from 0 to 2. *)
Definition component (v : Vector) (i : nat) : R :=
  match i with
  | 0%nat => vx v
  | 1%nat => vy v
  | _ => vz v
  end.

(** A principal inertia a rigid body can have: three positive moments,
    none larger than the sum of the other two. *)
Definition admissible_inertia (I : Vector) : Prop :=
  0 < vx I /\ 0 < vy I /\ 0 < vz I /\
  vx I <= vy I + vz I /\ vy I <= vx I + vz I /\ vz I <= vx I + vy I.

(** The string has no ['/']. *)
Definition slash_free (s : string) : Prop := PyStr.rfind s "/" = (-1)%Z.

End ShapeViews.

(** * Properties *)

Import Importer Exporter.

(** ** Boolean comparisons *)

Lemma Rltb_true x y : Rltb x y = true <-> (x < y)%R.
Proof. unfold Rltb; destruct (Rlt_dec x y); split; (easy || lra). Qed.

Lemma Rltb_false x y : Rltb x y = false <-> (y <= x)%R.
Proof. unfold Rltb; destruct (Rlt_dec x y); split; (easy || lra). Qed.

Lemma Rleb_true x y : Rleb x y = true <-> (x <= y)%R.
Proof. unfold Rleb; destruct (Rle_dec x y); split; (easy || lra). Qed.

Lemma Rleb_false x y : Rleb x y = false <-> (y < x)%R.
Proof. unfold Rleb; destruct (Rle_dec x y); split; (easy || lra). Qed.

Lemma Reqb_true x y : Reqb x y = true <-> x = y.
Proof. unfold Reqb; destruct (Req_dec_T x y); split; (easy || lra). Qed.

Lemma Reqb_false x y : Reqb x y = false <-> x <> y.
Proof. unfold Reqb; destruct (Req_dec_T x y); split; (easy || lra). Qed.

(** ** Numeric facts: bounds on pi, cosine and arc cosine *)

Section Numeric.
Local Open Scope R_scope.

Lemma PI_lower : 314 / 100 < PI.
Proof.
  pose proof (PI_2_3_7_ineq 1) as [H _].
  unfold sum_f_R0, tg_alt, PI_2_3_7_tg, Ratan_seq in H; simpl in H.
  lra.
Qed.

Lemma PI_upper : PI < 315 / 100.
Proof.
  pose proof (PI_2_3_7_ineq 1) as [_ H].
  unfold sum_f_R0, tg_alt, PI_2_3_7_tg, Ratan_seq in H; simpl in H.
  lra.
Qed.

Lemma cos_lower (x : R) : -2 <= x <= 2 -> 1 - x * x / 2 <= cos x.
Proof.
  intros [H1 H2]. pose proof (pre_cos_bound x 0 H1 H2) as [H _].
  unfold cos_approx, cos_term, sum_f_R0 in H; simpl in H. lra.
Qed.

Lemma cos_upper (x : R) : -2 <= x <= 2 -> cos x <= 1 - x * x / 2 + x * x * x * x / 24.
Proof.
  intros [H1 H2]. pose proof (pre_cos_bound x 0 H1 H2) as [_ H].
  unfold cos_approx, cos_term, sum_f_R0 in H; simpl in H. lra.
Qed.

Lemma acos_gt (x t : R) : -1 <= x <= 1 -> 0 <= t <= PI -> x < cos t -> t < acos x.
Proof.
  intros Hx Ht H. pose proof (acos_bound x).
  apply cos_decreasing_0; try lra. rewrite cos_acos; lra.
Qed.

Lemma acos_lt (x t : R) : -1 <= x <= 1 -> 0 <= t <= PI -> cos t < x -> acos x < t.
Proof.
  intros Hx Ht H. pose proof (acos_bound x).
  apply cos_decreasing_0; try lra. rewrite cos_acos; lra.
Qed.

End Numeric.

(** ** Vector and matrix algebra *)

Ltac mat_norm :=
  cbv [skew_rodrigues add3 scale3 skew_mat mul3 transpose3 of_cols mulv dot cross vadd vsub
       vscale vneg row0 row1 row2 col0 col1 col2 Identity3 vzero orthonormal trace3
       vx vy vz m00 m01 m02 m10 m11 m12 m20 m21 m22].

Ltac mat_norm_in H :=
  cbv [skew_rodrigues add3 scale3 skew_mat mul3 transpose3 of_cols mulv dot cross vadd vsub
       vscale vneg row0 row1 row2 col0 col1 col2 Identity3 vzero orthonormal trace3
       vx vy vz m00 m01 m02 m10 m11 m12 m20 m21 m22] in H.


Section Algebra.
Local Open Scope R_scope.

Lemma vec_norm_sq (v : Vector) : vec_norm v ^ 2 = dot v v.
Proof.
  unfold vec_norm. rewrite <- Rsqr_pow2, Rsqr_sqrt; [unfold dot; ring|nra].
Qed.

Lemma lagrange (a b : Vector) :
  dot (cross a b) (cross a b) = dot a a * dot b b - dot a b * dot a b.
Proof. destruct a, b; mat_norm; ring. Qed.

Lemma dot_unit_bounds (a b : Vector) :
  dot a a = 1 -> dot b b = 1 -> -1 <= dot a b <= 1.
Proof.
  intros Ha Hb. pose proof (lagrange a b) as H. rewrite Ha, Hb in H.
  assert (0 <= dot (cross a b) (cross a b)) by (unfold dot; nra).
  nra.
Qed.

Lemma angle_unit (a b : Vector) :
  dot a a = 1 -> dot b b = 1 -> angle a b = Some (acos (dot a b)).
Proof.
  intros Ha Hb. unfold angle. rewrite Ha, Hb.
  assert (E : Reqb 1 0 = false) by (apply Reqb_false; lra).
  rewrite E; simpl. rewrite sqrt_1. do 2 f_equal. field.
Qed.

Lemma normalize_unit (a : Vector) :
  1 / 10 ^ 35 < dot a a -> dot (normalize a) (normalize a) = 1.
Proof.
  intros H. unfold normalize.
  assert (E : Rltb (1 / 10 ^ 35) (dot a a) = true) by (apply Rltb_true; exact H).
  rewrite E.
  assert (Hp : 0 < dot a a) by (assert (0 < 1 / 10 ^ 35) by (apply Rdiv_lt_0_compat; [lra|apply pow_lt; lra]); lra).
  assert (Hs : sqrt (dot a a) * sqrt (dot a a) = dot a a) by (apply sqrt_sqrt; lra).
  assert (Hn : sqrt (dot a a) <> 0) by (intro Z; rewrite Z in Hs; lra).
  set (s := sqrt (dot a a)) in *.
  assert (Hd : dot (vscale (1 / s) a) (vscale (1 / s) a) = dot a a / (s * s)).
  { destruct a; mat_norm. field. exact Hn. }
  rewrite Hd, Hs. field. lra.
Qed.

Lemma normalize_dot_cases (a : Vector) :
  dot (normalize a) (normalize a) = 1 \/ normalize a = vzero.
Proof.
  destruct (Rlt_dec (1 / 10 ^ 35) (dot a a)) as [H|H].
  - left; apply normalize_unit, H.
  - right. unfold normalize.
    assert (E : Rltb (1 / 10 ^ 35) (dot a a) = false) by (apply Rltb_false; lra).
    now rewrite E.
Qed.

Lemma Identity3_orthonormal : orthonormal Identity3.
Proof. mat_norm. f_equal; ring. Qed.

Lemma rodrigues_orthonormal (n : Vector) (co si : R) :
  dot n n = 1 -> co * co + si * si = 1 ->
  orthonormal
    (mkMat3 (vx n * vx n * (1 - co) + co) (vx n * vy n * (1 - co) - vz n * si) (vx n * vz n * (1 - co) + vy n * si)
            (vx n * vy n * (1 - co) + vz n * si) (vy n * vy n * (1 - co) + co) (vy n * vz n * (1 - co) - vx n * si)
            (vx n * vz n * (1 - co) - vy n * si) (vy n * vz n * (1 - co) + vx n * si) (vz n * vz n * (1 - co) + co)).
Proof.
  destruct n as [x y z]; intros Hn Hc. mat_norm_in Hn. mat_norm.
  f_equal; nsatz.
Qed.

Lemma Rotation3_orthonormal (theta : R) (axis : Vector) : orthonormal (Rotation3 theta axis).
Proof.
  unfold Rotation3.
  destruct (normalize_dot_cases axis) as [H|H].
  - assert (E : Reqb (dot (normalize axis) (normalize axis)) 0 = false)
      by (apply Reqb_false; lra).
    rewrite E. apply rodrigues_orthonormal; [exact H|].
    pose proof (sin2_cos2 theta) as S. unfold Rsqr in S. lra.
  - rewrite H.
    assert (E : Reqb (dot vzero vzero) 0 = true) by (apply Reqb_true; mat_norm; ring).
    rewrite E. apply Identity3_orthonormal.
Qed.


Lemma skew_rodrigues_gram (v : Vector) (k : R) :
  mul3 (transpose3 (skew_rodrigues v k)) (skew_rodrigues v k) =
  add3 Identity3 (scale3 (mul3 (skew_mat v) (skew_mat v)) (2 * k - 1 - k * k * dot v v)).
Proof.
  destruct v as [v1 v2 v3]. mat_norm. f_equal; ring.
Qed.

Lemma skew_rodrigues_apply (a b : Vector) (k : R) :
  mulv (skew_rodrigues (cross a b) k) a =
  vadd b (vadd (vscale (dot a a - 1) b)
               (vscale ((1 - dot a b) * (1 - k * (1 + dot a b)) - k * (dot a a * dot b b - 1)) a)).
Proof.
  destruct a as [a1 a2 a3], b as [b1 b2 b3]. mat_norm. f_equal; ring.
Qed.

Lemma rodrigues_between (a b : Vector) (k : R) :
  dot a a = 1 -> dot b b = 1 -> k * (1 + dot a b) = 1 ->
  orthonormal (skew_rodrigues (cross a b) k) /\ mulv (skew_rodrigues (cross a b) k) a = b.
Proof.
  intros Ha Hb Hk. split.
  - unfold orthonormal. rewrite skew_rodrigues_gram, lagrange, Ha, Hb.
    replace (2 * k - 1 - k * k * (1 * 1 - dot a b * dot a b))
      with ((k * (1 + dot a b) - 1) * (1 - k * (1 - dot a b))) by ring.
    rewrite Hk. mat_norm. f_equal; ring.
  - rewrite skew_rodrigues_apply, Ha, Hb, Hk.
    destruct b as [b1 b2 b3], a as [a1 a2 a3]; mat_norm. f_equal; ring.
Qed.

Lemma rot_matrix_from_vecs_general (a b : Vector) :
  dot a a = 1 -> dot b b = 1 ->
  1 / 10 <= 1 - dot a b -> 1 / 10 <= 1 + dot a b ->
  exists R, rot_matrix_from_vecs a b = Some R /\ orthonormal R /\ mulv R a = b.
Proof.
  intros Ha Hb H1 H2. unfold rot_matrix_from_vecs.
  rewrite (angle_unit a b Ha Hb); cbn [mbind option_bind].
  assert (E1 : Rltb (1 - dot a b) (1 / 10) = false) by (apply Rltb_false; lra).
  assert (E2 : Rltb (1 + dot a b) (1 / 10) = false) by (apply Rltb_false; lra).
  rewrite E1, E2, vec_norm_sq, lagrange, Ha, Hb.
  assert (Hnz : 1 * 1 - dot a b * dot a b <> 0) by nra.
  assert (E3 : Reqb (1 * 1 - dot a b * dot a b) 0 = false) by (apply Reqb_false; exact Hnz).
  rewrite E3. eexists; split; [reflexivity|].
  apply (rodrigues_between a b); [exact Ha|exact Hb|]. field. nra.
Qed.

End Algebra.

(** ** The rotation-between primitive, branch by branch *)

Section RotationBetween.
Local Open Scope R_scope.

Lemma tiny_lt : 1 / 10 ^ 35 < 1 / 1000000.
Proof.
  assert (H : 10 ^ 35 = 1000000 * 10 ^ 29) by (simpl; ring).
  assert (P : 1 < 10 ^ 29) by (apply Rlt_pow_R1; [lra|lia]).
  rewrite H. unfold Rdiv. rewrite Rinv_mult.
  assert (Q : / 10 ^ 29 < 1) by (rewrite <- Rinv_1; apply Rinv_lt_contravar; lra).
  assert (0 < / 1000000) by lra. nra.
Qed.

Lemma cos_013_upper : cos (1 / 10) <= 9951 / 10000.
Proof. pose proof (cos_upper (1 / 10)). lra. Qed.

Lemma cos_013_lower : 99 / 100 <= cos (1 / 10).
Proof. pose proof (cos_lower (1 / 10)). lra. Qed.

Lemma cos_313_bounds : -1 + 4 / 100000 <= cos (313 / 100) <= - (9 / 10).
Proof.
  pose proof PI_lower as L. pose proof PI_upper as U.
  assert (E : cos (313 / 100) = - cos (PI - 313 / 100)).
  { replace (313 / 100) with (- (PI - 313 / 100) + PI) at 1 by ring.
    rewrite neg_cos, cos_neg. reflexivity. }
  rewrite E. set (t := PI - 313 / 100) in *.
  assert (T : 1 / 100 < t < 2 / 100) by (unfold t; lra).
  pose proof (cos_lower t ltac:(lra)). pose proof (cos_upper t ltac:(lra)).
  assert (T2 : 1 / 10000 <= t * t <= 4 / 10000) by nra.
  split; nra.
Qed.

Lemma rot_matrix_from_vecs_near_parallel (a b : Vector) :
  dot a a = 1 -> dot b b = 1 -> 1 - dot a b < 1 / 10 ->
  rot_matrix_from_vecs a b = Some Identity3.
Proof.
  intros Ha Hb H. unfold rot_matrix_from_vecs.
  rewrite (angle_unit a b Ha Hb); cbn [mbind option_bind].
  assert (E1 : Rltb (1 - dot a b) (1 / 10) = true) by (apply Rltb_true; lra).
  now rewrite E1.
Qed.

Lemma Rotation3_unit_axis (theta : R) (axis : Vector) :
  1 / 10 ^ 35 < dot axis axis ->
  let n := vscale (1 / sqrt (dot axis axis)) axis in
  dot n n = 1 /\
  Rotation3 theta axis =
    mkMat3 (vx n * vx n * (1 - cos theta) + cos theta) (vx n * vy n * (1 - cos theta) - vz n * sin theta)
           (vx n * vz n * (1 - cos theta) + vy n * sin theta)
           (vx n * vy n * (1 - cos theta) + vz n * sin theta) (vy n * vy n * (1 - cos theta) + cos theta)
           (vy n * vz n * (1 - cos theta) - vx n * sin theta)
           (vx n * vz n * (1 - cos theta) - vy n * sin theta) (vy n * vz n * (1 - cos theta) + vx n * sin theta)
           (vz n * vz n * (1 - cos theta) + cos theta).
Proof.
  intros H n. pose proof (normalize_unit axis H) as U.
  assert (N : normalize axis = n).
  { unfold normalize. assert (E : Rltb (1 / 10 ^ 35) (dot axis axis) = true) by (apply Rltb_true; exact H).
    now rewrite E. }
  rewrite N in U. split; [exact U|].
  unfold Rotation3. rewrite N.
  assert (E : Reqb (dot n n) 0 = false) by (apply Reqb_false; lra).
  rewrite E. reflexivity.
Qed.

Lemma Rotation3_PI_flips (axis a : Vector) :
  1 / 10 ^ 35 < dot axis axis -> dot axis a = 0 ->
  mulv (Rotation3 PI axis) a = vneg a.
Proof.
  intros H Ho. destruct (Rotation3_unit_axis PI axis H) as [U E]. rewrite E.
  rewrite cos_PI, sin_PI.
  set (k := 1 / sqrt (dot axis axis)) in *.
  assert (Hk : dot (vscale k axis) a = 0).
  { replace (dot (vscale k axis) a) with (k * dot axis a)
      by (destruct axis, a; mat_norm; ring). rewrite Ho; ring. }
  clearbody k. destruct axis as [x y z], a as [a1 a2 a3].
  mat_norm_in U. mat_norm_in Hk. mat_norm. f_equal; nsatz.
Qed.

Lemma acos_m1 : acos (-1) = PI.
Proof. replace (-1) with (Ropp 1) by lra. rewrite acos_opp, acos_1. ring. Qed.

Lemma rot_matrix_from_vecs_opposite (a : Vector) :
  dot a a = 1 ->
  exists axis, 1 / 10 ^ 35 < dot axis axis /\ dot axis a = 0 /\
    rot_matrix_from_vecs a (vneg a) = Some (Rotation3 PI axis).
Proof.
  intros Ha.
  assert (Hb : dot (vneg a) (vneg a) = 1) by (rewrite <- Ha; destruct a; mat_norm; ring).
  assert (Hd : dot a (vneg a) = -1) by (destruct a; mat_norm_in Ha; mat_norm; lra).
  set (nx := mkVec 1 0 0). set (ny := mkVec 0 1 0).
  assert (Hx : dot nx nx = 1) by (unfold nx; mat_norm; ring).
  pose proof (dot_unit_bounds a nx Ha Hx) as Bx.
  pose proof (acos_bound (dot a nx)) as Bt.
  pose proof (cos_acos (dot a nx) Bx) as Ct.
  pose proof PI_lower as PL. pose proof PI_upper as PU. pose proof tiny_lt as TL.
  pose proof cos_013_upper. pose proof cos_013_lower. pose proof cos_313_bounds as [C1 C2].
  unfold rot_matrix_from_vecs.
  rewrite (angle_unit a (vneg a) Ha Hb), Hd, acos_m1; cbn [mbind option_bind].
  assert (E1 : Rltb (1 - -1) (1 / 10) = false) by (apply Rltb_false; lra).
  assert (E2 : Rltb (1 + -1) (1 / 10) = true) by (apply Rltb_true; lra).
  rewrite E1, E2. fold nx ny.
  rewrite (angle_unit a nx Ha Hx); cbn [mbind option_bind].
  set (t := acos (dot a nx)) in *. rewrite (Rabs_pos_eq t) by lra.
  assert (Dx : dot (cross a nx) (cross a nx) = 1 - dot a nx * dot a nx).
  { rewrite lagrange, Ha, Hx. ring. }
  assert (Dy : dot a nx * dot a nx <= dot (cross a ny) (cross a ny)).
  { destruct a as [a1 a2 a3]. unfold nx, ny. mat_norm. nra. }
  destruct (Rltb (1 / 10) t && Rltb t (313 / 100)) eqn:Hc.
  - apply andb_true_iff in Hc as [Hc1 Hc2].
    apply Rltb_true in Hc1. apply Rltb_true in Hc2.
    exists (cross a nx). split; [|split; [destruct a; unfold nx; mat_norm; ring|reflexivity]].
    assert (dot a nx <= cos (1 / 10))
      by (rewrite <- Ct; apply cos_decr_1; lra).
    assert (cos (313 / 100) <= dot a nx)
      by (rewrite <- Ct; apply cos_decr_1; lra).
    rewrite Dx. nra.
  - exists (cross a ny). split; [|split; [destruct a; unfold ny; mat_norm; ring|reflexivity]].
    apply andb_false_iff in Hc as [Hc|Hc]; apply Rltb_false in Hc.
    + assert (cos (1 / 10) <= dot a nx)
        by (rewrite <- Ct; apply cos_decr_1; lra).
      nra.
    + assert (dot a nx <= cos (313 / 100))
        by (rewrite <- Ct; apply cos_decr_1; lra).
      nra.
Qed.

Lemma rot_matrix_from_vecs_total (a b : Vector) :
  dot a a = 1 -> dot b b = 1 ->
  exists R, rot_matrix_from_vecs a b = Some R /\ orthonormal R.
Proof.
  intros Ha Hb.
  destruct (Rlt_dec (1 - dot a b) (1 / 10)) as [H1|H1].
  { exists Identity3. split; [now apply rot_matrix_from_vecs_near_parallel|apply Identity3_orthonormal]. }
  destruct (Rlt_dec (1 + dot a b) (1 / 10)) as [H2|H2].
  - unfold rot_matrix_from_vecs.
    rewrite (angle_unit a b Ha Hb); cbn [mbind option_bind].
    assert (E1 : Rltb (1 - dot a b) (1 / 10) = false) by (apply Rltb_false; lra).
    assert (E2 : Rltb (1 + dot a b) (1 / 10) = true) by (apply Rltb_true; lra).
    rewrite E1, E2.
    assert (Hx : dot (mkVec 1 0 0) (mkVec 1 0 0) = 1) by (mat_norm; ring).
    rewrite (angle_unit a (mkVec 1 0 0) Ha Hx); cbn [mbind option_bind].
    destruct (_ && _); eexists; (split; [reflexivity|apply Rotation3_orthonormal]).
  - destruct (rot_matrix_from_vecs_general a b Ha Hb) as (R & E & O & _); [lra|lra|].
    exists R. now split.
Qed.

End RotationBetween.

(** ** C2: the rotation-matrix-from-two-vectors primitive *)

Section C2.
Local Open Scope R_scope.

Lemma normalize_of_unit (n : Vector) : dot n n = 1 -> normalize n = n.
Proof.
  intros H. unfold normalize. pose proof tiny_lt.
  assert (E : Rltb (1 / 10 ^ 35) (dot n n) = true) by (apply Rltb_true; lra).
  rewrite E, H, sqrt_1. destruct n; mat_norm. f_equal; field.
Qed.

Lemma Rotation3_normalize (theta : R) (axis : Vector) :
  1 / 10 ^ 35 < dot axis axis -> Rotation3 theta axis = Rotation3 theta (normalize axis).
Proof.
  intros H. pose proof (normalize_unit axis H) as U.
  unfold Rotation3 at 2. rewrite (normalize_of_unit _ U). reflexivity.
Qed.

Lemma Rotation3_PI_trace (n : Vector) : dot n n = 1 -> trace3 (Rotation3 PI n) = -1.
Proof.
  intros H. unfold Rotation3. rewrite (normalize_of_unit n H).
  assert (E : Reqb (dot n n) 0 = false) by (apply Reqb_false; lra).
  rewrite E, cos_PI, sin_PI. destruct n as [x y z]. mat_norm_in H. mat_norm. lra.
Qed.

(** C2, as the code has it.  For unit vectors [a] and [b],
    [rot_matrix_from_vecs] returns an orthonormal matrix [R]; [R] is the
    identity whenever [1 - a.b < 0.1] (in particular when [a = b]);
    [R a = b] whenever [a.b] lies in [-0.9, 0.9]; and for [b = -a], [R] is
    the rotation of angle pi (trace -1) about a unit axis orthogonal to
    [a], which sends [a] to [b]. *)
Theorem C2_rot_matrix_from_vecs (a b : Vector) :
  dot a a = 1 -> dot b b = 1 ->
  exists R, rot_matrix_from_vecs a b = Some R /\ orthonormal R /\
    (1 - dot a b < 1 / 10 -> R = Identity3) /\
    (a = b -> R = Identity3) /\
    (- (9 / 10) <= dot a b <= 9 / 10 -> mulv R a = b) /\
    (b = vneg a ->
       exists n, dot n n = 1 /\ dot n a = 0 /\ R = Rotation3 PI n /\
                 trace3 R = -1 /\ mulv R a = b).
Proof.
  intros Ha Hb. destruct (rot_matrix_from_vecs_total a b Ha Hb) as (R & E & O).
  exists R. split; [exact E|]. split; [exact O|].
  assert (NP : 1 - dot a b < 1 / 10 -> R = Identity3).
  { intros H. rewrite (rot_matrix_from_vecs_near_parallel a b Ha Hb H) in E. congruence. }
  split; [exact NP|]. split; [|split].
  - intros ->. apply NP. rewrite Ha. lra.
  - intros H. destruct (rot_matrix_from_vecs_general a b Ha Hb) as (R' & E' & _ & M); [lra|lra|].
    congruence.
  - intros ->. destruct (rot_matrix_from_vecs_opposite a Ha) as (axis & P & Z & E').
    assert (R = Rotation3 PI axis) as -> by congruence.
    pose proof (normalize_unit axis P) as U.
    exists (normalize axis). split; [exact U|]. split; [|split; [|split]].
    + unfold normalize. assert (Q : Rltb (1 / 10 ^ 35) (dot axis axis) = true) by (apply Rltb_true; exact P).
      rewrite Q. replace (dot (vscale (1 / sqrt (dot axis axis)) axis) a)
        with (1 / sqrt (dot axis axis) * dot axis a) by (destruct axis, a; mat_norm; ring).
      rewrite Z. ring.
    + apply Rotation3_normalize, P.
    + rewrite (Rotation3_normalize _ _ P). apply Rotation3_PI_trace, U.
    + apply Rotation3_PI_flips; assumption.
Qed.

Lemma C2_rot_matrix_from_vecs_witness :
  dot (mkVec 0 0 1) (mkVec 0 0 1) = 1 /\ dot (mkVec 1 0 0) (mkVec 1 0 0) = 1 /\
  exists R, rot_matrix_from_vecs (mkVec 0 0 1) (mkVec 1 0 0) = Some R /\ orthonormal R /\
    (1 - dot (mkVec 0 0 1) (mkVec 1 0 0) < 1 / 10 -> R = Identity3) /\
    (mkVec 0 0 1 = mkVec 1 0 0 -> R = Identity3) /\
    (- (9 / 10) <= dot (mkVec 0 0 1) (mkVec 1 0 0) <= 9 / 10 -> mulv R (mkVec 0 0 1) = mkVec 1 0 0) /\
    (mkVec 1 0 0 = vneg (mkVec 0 0 1) ->
       exists n, dot n n = 1 /\ dot n (mkVec 0 0 1) = 0 /\ R = Rotation3 PI n /\
                 trace3 R = -1 /\ mulv R (mkVec 0 0 1) = mkVec 1 0 0).
Proof.
  assert (H1 : dot (mkVec 0 0 1) (mkVec 0 0 1) = 1) by (mat_norm; ring).
  assert (H2 : dot (mkVec 1 0 0) (mkVec 1 0 0) = 1) by (mat_norm; ring).
  split; [exact H1|]. split; [exact H2|].
  exact (C2_rot_matrix_from_vecs (mkVec 0 0 1) (mkVec 1 0 0) H1 H2).
Defined.

(** C2 as stated fails: the unit vectors (0,0,1) and (0,-0.28,0.96) are
    0.28 rad apart, the primitive answers the identity, and the image of
    the first has dot product 0.96 with the second, below 1 - 1e-3. *)
Lemma C2_counterexample :
  dot (mkVec 0 0 1) (mkVec 0 0 1) = 1 /\
  dot (mkVec 0 (- (28 / 100)) (96 / 100)) (mkVec 0 (- (28 / 100)) (96 / 100)) = 1 /\
  rot_matrix_from_vecs (mkVec 0 0 1) (mkVec 0 (- (28 / 100)) (96 / 100)) = Some Identity3 /\
  dot (mulv Identity3 (mkVec 0 0 1)) (mkVec 0 (- (28 / 100)) (96 / 100)) < 1 - 1 / 1000.
Proof.
  assert (H1 : dot (mkVec 0 0 1) (mkVec 0 0 1) = 1) by (mat_norm; ring).
  assert (H2 : dot (mkVec 0 (- (28 / 100)) (96 / 100)) (mkVec 0 (- (28 / 100)) (96 / 100)) = 1)
    by (mat_norm; field).
  split; [exact H1|]. split; [exact H2|]. split.
  - apply rot_matrix_from_vecs_near_parallel; [exact H1|exact H2|]. mat_norm. lra.
  - mat_norm. lra.
Qed.

End C2.

(** ** C3: the joint classifier on an unrecognized kind *)

Section C3.

(** C3, as the code has it.  A kind string outside the vocabulary (and
    other than the upper-case FIXED the code also accepts) is not an error:
    [get_ambf_joint_type] answers FIXED and [get_blender_joint_type]
    answers HINGE, their initial values. *)
Theorem C3_unrecognized_type_defaults (joint_data : JointData) (t : string) :
  jd_type joint_data = Some t ->
  t ∉ joint_type_vocabulary -> t <> "FIXED" ->
  get_ambf_joint_type joint_data = "FIXED" /\ get_blender_joint_type joint_data = "HINGE".
Proof.
  intros Ht Hv Hf. unfold get_ambf_joint_type, get_blender_joint_type, PyStr.in_list.
  rewrite Ht. unfold joint_type_vocabulary in Hv.
  rewrite !not_elem_of_cons in Hv. destruct_and!.
  repeat match goal with
         | |- context [bool_decide (t ∈ ?l)] =>
             rewrite (bool_decide_eq_false_2 (t ∈ l))
               by (rewrite !elem_of_cons, elem_of_nil; intuition congruence)
         end.
  done.
Qed.

Lemma C3_unrecognized_type_defaults_witness :
  get_ambf_joint_type (set_type (Some "ball") JointTemplate) = "FIXED" /\
  get_blender_joint_type (set_type (Some "ball") JointTemplate) = "HINGE".
Proof.
  apply (C3_unrecognized_type_defaults (set_type (Some "ball") JointTemplate) "ball").
  - reflexivity.
  - unfold joint_type_vocabulary. rewrite !not_elem_of_cons, elem_of_nil.
    repeat split; (discriminate || tauto).
  - discriminate.
Defined.

(** C3 as stated fails: the kind "ball" is in no vocabulary, and both
    classifiers answer a kind for it instead of failing. *)
Lemma C3_counterexample :
  ("ball" ∉ joint_type_vocabulary) /\
  get_ambf_joint_type (set_type (Some "ball") JointTemplate) = "FIXED" /\
  get_blender_joint_type (set_type (Some "ball") JointTemplate) = "HINGE".
Proof.
  split.
  { unfold joint_type_vocabulary. rewrite !not_elem_of_cons, elem_of_nil.
    repeat split; (discriminate || tauto). }
  split.
  - vm_compute. reflexivity.
  - vm_compute. reflexivity.
Qed.

End C3.

(** ** Evaluating the composer on plain joints *)

Section ComposerFacts.
Local Open Scope R_scope.

Ltac mat4_norm :=
  cbv [mul4 to_4x4 set_translation Identity4 to_3x3 translation pivot_matrix xyz_to_vec
       xyz_x xyz_y xyz_z]; mat_norm.


Lemma mul3_Identity3_l (m : Matrix3) : mul3 Identity3 m = m.
Proof. destruct m. mat_norm. f_equal; ring. Qed.

Lemma mul4_Identity4_r (m : Matrix4) : mul4 m Identity4 = m.
Proof. destruct m as [[] []]. mat4_norm. do 2 f_equal; ring. Qed.

Lemma mul4_Identity4_l (m : Matrix4) : mul4 Identity4 m = m.
Proof. destruct m as [[] []]. mat4_norm. do 2 f_equal; ring. Qed.

Lemma Rotation3_zero (axis : Vector) : Rotation3 0 axis = Identity3.
Proof.
  unfold Rotation3. destruct (Reqb _ 0); [reflexivity|].
  rewrite cos_0, sin_0. unfold Identity3. f_equal; ring.
Qed.

Lemma Rotation4_zero (axis : Vector) : Rotation4 0 axis = Identity4.
Proof. unfold Rotation4. now rewrite Rotation3_zero. Qed.

Lemma get_rot_mat_from_vecs_same (v : Vector) :
  dot v v = 1 -> get_rot_mat_from_vecs v v = Some (Identity4, 0).
Proof.
  intros H. unfold get_rot_mat_from_vecs. rewrite (angle_unit v v H H), H, acos_1.
  cbn [mbind option_bind]. unfold rot_axis_from_vecs.
  assert (E : Rleb (Rabs 0) (1 / 10) = true) by (apply Rleb_true; rewrite Rabs_R0; lra).
  rewrite E. cbn [mbind option_bind]. now rewrite Rotation4_zero.
Qed.

Lemma invert3_Identity3 : invert3 Identity3 = Some Identity3.
Proof.
  unfold invert3.
  assert (D : det3 Identity3 = 1) by (unfold det3; mat_norm; ring).
  rewrite D. assert (E : Reqb 1 0 = false) by (apply Reqb_false; lra). rewrite E.
  f_equal. unfold adjugate3. mat_norm. f_equal; field.
Qed.

Lemma invert4_pivot_zero : invert4 (pivot_matrix (mkXYZ 0 0 0)) = Some Identity4.
Proof.
  unfold invert4, pivot_matrix. cbn [set_translation to_3x3 Identity4 translation].
  rewrite invert3_Identity3. cbn [mbind option_bind]. unfold Identity4, vzero.
  mat4_norm. do 3 f_equal; ring.
Qed.

(** A joint whose child frame is its joint frame and whose parent axis is
    the child axis Z, without offset: the child lands at the parent pivot. *)
Lemma get_child_in_world_transform_plain (st : Loader) (joint_data : JointData)
    (ph ch : handle) (pob : Object) (piv : xyz) :
  blender_remapped_body_names st !! jd_parent joint_data = Some ph ->
  blender_remapped_body_names st !! jd_child joint_data = Some ch ->
  objects st !! ph = Some pob ->
  body_T_j_c st !! jd_parent joint_data = Some Identity4 ->
  jd_parent_pivot joint_data = Some piv ->
  jd_parent_axis joint_data = Some (mkXYZ 0 0 1) ->
  jd_child_pivot joint_data = Some (mkXYZ 0 0 0) ->
  jd_child_axis joint_data = Some (mkXYZ 0 0 1) ->
  jd_offset joint_data = None ->
  get_child_in_world_transform st joint_data =
    Some (mul4 (ob_matrix_world pob) (pivot_matrix piv)).
Proof.
  intros Hp Hc Ho Ht Hpp Hpa Hcp Hca Hoff.
  unfold get_child_in_world_transform, get_parent_and_child_object_handles,
    get_parent_pivot_and_axis_data, get_child_pivot_and_axis_data, get_joint_offset_angle.
  rewrite Hp, Hc, Hpp, Hpa, Hcp, Hca, Hoff. cbn [mbind option_bind]. rewrite Ho.
  cbn [mbind option_bind].
  assert (U : dot (xyz_to_vec (mkXYZ 0 0 1)) (xyz_to_vec (mkXYZ 0 0 1)) = 1)
    by (unfold xyz_to_vec; mat_norm; cbn; ring).
  rewrite (get_rot_mat_from_vecs_same _ U). cbn [mbind option_bind].
  rewrite invert4_pivot_zero. cbn [mbind option_bind]. rewrite Ht. cbn [mbind option_bind].
  assert (Z : Rotation4 (if negb (ignore_ambf_joint_offsets st) then 0 else 0)
                (xyz_to_vec (mkXYZ 0 0 1)) = Identity4)
    by (destruct (negb _); apply Rotation4_zero).
  rewrite Z, !mul4_Identity4_r. reflexivity.
Qed.

End ComposerFacts.

(** ** C8: a child that already has a structural parent *)

Section C8.
Local Open Scope R_scope.

Lemma set_blender_constraint_params_frame st joint_data ob ob' :
  set_blender_constraint_params st joint_data ob = Some ob' ->
  ob_matrix_world ob' = ob_matrix_world ob /\ ob_parent ob' = ob_parent ob.
Proof.
  unfold set_blender_constraint_params. intros H.
  destruct (jd_joint_limits joint_data); [|by inversion H].
  destruct (jd_type joint_data); [|discriminate]. cbn [mbind option_bind] in H.
  destruct (ob_rigid_body_constraint ob); [|discriminate]. cbn [mbind option_bind] in H.
  repeat match type of H with
         | (match ?x with _ => _ end) = Some _ => destruct x eqn:?; try discriminate
         | (_ ← ?x; _) = Some _ => destruct x eqn:?; try discriminate; cbn [mbind option_bind] in H
         | (if ?x then _ else _) = Some _ => destruct x eqn:?
         | Some _ = Some _ => inversion H; clear H
         end; subst; auto.
Qed.

Lemma update_object_eq h f st ob :
  objects st !! h = Some ob ->
  update_object h f st = Some (with_objects (<[h := f ob]> (objects st)) st).
Proof. intros H. unfold update_object. now rewrite H. Qed.

Lemma set_blender_constraint_params_ok st joint_data ob c lo hi t :
  jd_joint_limits joint_data = Some (mkLimits (Some lo) (Some hi)) ->
  jd_type joint_data = Some t ->
  ob_rigid_body_constraint ob = Some c ->
  is_Some (set_blender_constraint_params st joint_data ob).
Proof.
  intros Hl Ht Hc. unfold set_blender_constraint_params. rewrite Hl, Ht, Hc.
  cbn [mbind option_bind high low].
  destruct (bool_decide (t = "revolute")), (bool_decide (t = "prismatic")),
    (PyStr.in_list t ["spring"; "linear spring"]),
    (PyStr.in_list t ["angular spring"; "torsional spring"; "torsion spring"]);
    cbn [mbind option_bind];
    destruct (jd_controller joint_data); try destruct (PyStr.in_list t _); eauto.
Qed.

(** The legacy loader on a joint that is not detached: the child body is
    the joint object, and its world transform is set to the composed one
    whether or not it already has a structural parent. *)
Lemma load_blender_joint_sets_child (st : Loader) (joint_name : string)
    (joint_data : JointData) (ph ch : handle) (cob : Object) (T : Matrix4) (lo hi : R)
    (t : string) :
  ambf_data st !! joint_name = Some joint_data ->
  blender_remapped_body_names st !! jd_parent joint_data = Some ph ->
  blender_remapped_body_names st !! jd_child joint_data = Some ch ->
  objects st !! ch = Some cob ->
  is_detached_joint joint_data = false ->
  get_child_in_world_transform st joint_data = Some T ->
  jd_joint_limits joint_data = Some (mkLimits (Some lo) (Some hi)) ->
  jd_type joint_data = Some t ->
  exists st' ob',
    load_blender_joint joint_name st = Some st' /\
    objects st' !! ch = Some ob' /\
    ob_matrix_world ob' = T /\
    ob_parent ob' = match ob_parent cob with None => Some ph | Some p => Some p end.
Proof.
  intros Hj Hp Hc Ho Hd HT Hl Ht.
  unfold load_blender_joint, get_parent_and_child_object_handles, get_blender_joint_handle.
  rewrite Hj. cbn [mbind option_bind]. rewrite Hp, Hc. cbn [mbind option_bind].
  rewrite Hd. cbn [mbind option_bind]. rewrite HT. cbn [mbind option_bind].
  rewrite (update_object_eq _ _ _ _ Ho). cbn [mbind option_bind].
  set (st1 := with_objects _ st).
  set (ob1 := set_ob_matrix_world T cob).
  assert (O1 : objects st1 !! ch = Some ob1) by (unfold st1; cbn; apply lookup_insert_eq).
  assert (exists st2 ob2, make_obj1_parent_of_obj2 ph ch st1 = Some st2 /\
            objects st2 !! ch = Some ob2 /\ ob_matrix_world ob2 = T /\
            ob_parent ob2 = match ob_parent cob with None => Some ph | Some p => Some p end)
    as (st2 & ob2 & E2 & O2 & M2 & P2).
  { unfold make_obj1_parent_of_obj2. rewrite O1. cbn [mbind option_bind].
    change (ob_parent ob1) with (ob_parent cob).
    destruct (ob_parent cob) eqn:Hpar.
    - exists st1, ob1. repeat split; auto.
    - rewrite (update_object_eq _ _ _ _ O1). eexists _, _. split; [reflexivity|].
      split; [cbn; apply lookup_insert_eq|]. split; reflexivity. }
  rewrite E2. cbn [mbind option_bind].
  unfold create_blender_constraint. rewrite (update_object_eq _ _ _ _ O2).
  cbn [mbind option_bind].
  match goal with |- context [<[ch := ?o]> (objects st2)] => set (ob3 := o) end.
  set (st3 := with_objects _ st2).
  assert (O3 : objects st3 !! ch = Some ob3) by (unfold st3; cbn; apply lookup_insert_eq).
  rewrite O3. cbn [mbind option_bind].
  destruct (set_blender_constraint_params_ok st3 joint_data ob3 _ lo hi t Hl Ht eq_refl)
    as [ob4 E4].
  rewrite E4. cbn [mbind option_bind].
  destruct (set_blender_constraint_params_frame _ _ _ _ E4) as [M4 P4].
  rewrite (update_object_eq _ _ _ _ O3). cbn [mbind option_bind].
  eexists _, ob4. split; [reflexivity|]. split; [cbn; apply lookup_insert_eq|].
  split; [rewrite M4; exact M2|rewrite P4; exact P2].
Qed.

Lemma update_object_other h f st st' k :
  update_object h f st = Some st' -> h <> k -> objects st' !! k = objects st !! k.
Proof.
  unfold update_object. destruct (objects st !! h); [|discriminate].
  cbn [mbind option_bind]. intros [= <-] N. cbn. now apply lookup_insert_ne.
Qed.

Lemma make_obj1_parent_of_obj2_other a b st st' k :
  make_obj1_parent_of_obj2 a b st = Some st' -> b <> k -> objects st' !! k = objects st !! k.
Proof.
  unfold make_obj1_parent_of_obj2. destruct (objects st !! b); [|discriminate].
  cbn [mbind option_bind]. destruct (ob_parent o).
  - now intros [= <-].
  - intros H N. eapply update_object_other; eauto.
Qed.

Lemma make_obj1_parent_of_obj2_parented a b st st' ob p :
  make_obj1_parent_of_obj2 a b st = Some st' ->
  objects st !! b = Some ob -> ob_parent ob = Some p -> st' = st.
Proof.
  unfold make_obj1_parent_of_obj2. intros H Ho Hp. rewrite Ho in H.
  cbn [mbind option_bind] in H. rewrite Hp in H. congruence.
Qed.

(** The loader of the add-on's own constraints leaves a child that already
    has a structural parent where it is. *)
Lemma load_ambf_joint_keeps_parented_child (st st' : Loader) (joint_name : string)
    (joint_data : JointData) (ch p : handle) (cob : Object) :
  ambf_data st !! joint_name = Some joint_data ->
  blender_remapped_body_names st !! jd_child joint_data = Some ch ->
  objects st !! ch = Some cob ->
  ob_parent cob = Some p ->
  ch <> next_handle st ->
  load_ambf_joint joint_name st = Some st' ->
  objects st' !! ch = Some cob.
Proof.
  intros Hj Hc Ho Hp Hn H.
  unfold load_ambf_joint, get_parent_and_child_object_handles, get_ambf_joint_handle,
    empty_add in H.
  rewrite Hj in H. cbn [mbind option_bind] in H.
  destruct (blender_remapped_body_names st !! jd_parent joint_data) as [ph|]; [|discriminate].
  cbn [mbind option_bind] in H. rewrite Hc in H. cbn [mbind option_bind] in H.
  set (st0 := with_next_handle _ _) in H.
  assert (O0 : objects st0 !! ch = Some cob).
  { unfold st0. cbn. rewrite lookup_insert_ne by congruence. exact Ho. }
  destruct (get_joint_in_world_transform st0 joint_data) as [[T_j_w lines]|]; [|discriminate].
  cbn [mbind option_bind] in H.
  destruct (update_object (next_handle st) _ _) as [st1|] eqn:E1; [|discriminate].
  cbn [mbind option_bind] in H.
  assert (O1 : objects st1 !! ch = Some cob).
  { rewrite (update_object_other _ _ _ _ ch E1) by congruence. exact O0. }
  destruct (get_child_in_world_transform st1 joint_data); [|discriminate].
  cbn [mbind option_bind] in H. rewrite O1 in H. cbn [mbind option_bind] in H.
  rewrite Hp in H. cbn [mbind option_bind] in H.
  destruct (make_obj1_parent_of_obj2 ph _ st1) as [st2|] eqn:E2; [|discriminate].
  cbn [mbind option_bind] in H.
  assert (O2 : objects st2 !! ch = Some cob).
  { rewrite (make_obj1_parent_of_obj2_other _ _ _ _ ch E2) by congruence. exact O1. }
  destruct (make_obj1_parent_of_obj2 _ ch st2) as [st3|] eqn:E3; [|discriminate].
  cbn [mbind option_bind] in H.
  pose proof (make_obj1_parent_of_obj2_parented _ _ _ _ _ _ E3 O2 Hp) as ->.
  destruct (create_ambf_constraint _ _ _ _ st2) as [st4|] eqn:E4; [|discriminate].
  cbn [mbind option_bind] in H.
  assert (O4 : objects st4 !! ch = Some cob).
  { unfold create_ambf_constraint in E4.
    rewrite (update_object_other _ _ _ _ ch E4) by congruence. exact O2. }
  destruct (objects st4 !! next_handle st); [|discriminate].
  cbn [mbind option_bind] in H.
  destruct (set_ambf_constraint_params _ _); [|discriminate].
  cbn [mbind option_bind] in H.
  destruct (update_object _ _ st4) as [st5|] eqn:E5; [|discriminate].
  cbn [mbind option_bind] in H. injection H as <-. cbn.
  rewrite (update_object_other _ _ _ _ ch E5) by congruence. exact O4.
Qed.

(** C8 on the legacy loader.  In [loop_scene] body C already has the
    structural parent Q and sits at (5,5,5).  Loading joint "j" with
    [load_blender_joint] succeeds, leaves C under Q and moves C to the
    pivot (1,0,0) of the joint in P: its world transform is overwritten. *)
Theorem C8_legacy_loader_moves_parented_child :
  objects (loop_scene true) !! 1%nat = Some (mesh_body "C" (Translation 5 5 5) (Some 2%nat)) /\
  exists st' ob',
    load_blender_joint "j" (loop_scene true) = Some st' /\
    objects st' !! 1%nat = Some ob' /\
    ob_parent ob' = Some 2%nat /\
    ob_matrix_world ob' = Translation 1 0 0.
Proof.
  split; [reflexivity|].
  destruct (load_blender_joint_sets_child (loop_scene true) "j"
              (plain_joint "j" "P" "C" (mkXYZ 1 0 0)) 0%nat 1%nat
              (mesh_body "C" (Translation 5 5 5) (Some 2%nat))
              (mul4 Identity4 (pivot_matrix (mkXYZ 1 0 0))) (- (12 / 10)) (12 / 10) "revolute")
    as (st' & ob' & E & O & M & P); try reflexivity.
  - apply (get_child_in_world_transform_plain (loop_scene true) _ 0%nat 1%nat
             (mesh_body "P" Identity4 None) (mkXYZ 1 0 0)); reflexivity.
  - exists st', ob'. repeat split; auto.
    rewrite M, mul4_Identity4_l. unfold pivot_matrix, Translation. reflexivity.
Qed.

(** The same document on the other loader: C stays where it is. *)
Lemma load_ambf_joint_loop_scene (st' : Loader) :
  load_ambf_joint "j" (loop_scene false) = Some st' ->
  objects st' !! 1%nat = Some (mesh_body "C" (Translation 5 5 5) (Some 2%nat)).
Proof.
  apply (load_ambf_joint_keeps_parented_child _ _ "j"
           (plain_joint "j" "P" "C" (mkXYZ 1 0 0)) 1%nat 2%nat); try reflexivity.
  cbn. lia.
Qed.

End C8.

(** ** C5: a detached joint in the axis-alignment pass *)

Section C5.
Local Open Scope R_scope.

(** The detached branch of the loop returns from the method: whatever
    joints follow are not visited. *)
Lemma adjust_joints_stops_at_detached (st : Loader) (joint_name : string)
    (rest : list string) (joint_data : JointData) (d : xyz) :
  ambf_data st !! joint_name = Some joint_data ->
  jd_child_pivot joint_data = Some d ->
  is_detached_joint joint_data = true ->
  adjust_joints (joint_name :: rest) st =
    Some (print (PyStr.concat ["INFO, JOINT "; PyStr.dquote; joint_name; PyStr.dquote;
                   " IS DETACHED, NO NEED TO ADJUST CHILD BODY'S AXIS AND PIVOTS"]) st).
Proof.
  intros Hj Hp Hd. cbn [adjust_joints]. rewrite Hj. cbn [mbind option_bind].
  now rewrite Hp, Hd.
Qed.

(** C5 on the code.  In [detached_first_scene] the detached joint "d" comes
    first and joint "j", whose child pivot is (0,0,1), second.  The pass
    ends at "d": the record of "j", the correction frames and the objects
    are what they were. *)
Theorem C5_detached_joint_ends_the_pass :
  exists st',
    adjust_body_pivots_and_axis (detached_first_scene ["d"; "j"]) = Some st' /\
    ambf_data st' = ambf_data (detached_first_scene ["d"; "j"]) /\
    body_T_j_c st' = body_T_j_c (detached_first_scene ["d"; "j"]) /\
    objects st' = objects (detached_first_scene ["d"; "j"]) /\
    (jd_child_pivot <$> ambf_data st' !! "j") = Some (Some (mkXYZ 0 0 1)).
Proof.
  eexists. split.
  - unfold adjust_body_pivots_and_axis.
    eapply adjust_joints_stops_at_detached with (d := mkXYZ 0 0 0); reflexivity.
  - repeat split; reflexivity.
Qed.

Lemma invert4_translation (t : Vector) :
  invert4 (set_translation Identity4 t) = Some (mkMat4 Identity3 (vneg (mulv Identity3 t))).
Proof.
  unfold invert4. cbn [set_translation to_3x3 Identity4 translation].
  now rewrite invert3_Identity3.
Qed.

(** Without the detached joint in front, the pass does adjust "j": its
    child pivot is reset to the origin. *)
Lemma adjust_alone_resets_pivot :
  exists st',
    adjust_body_pivots_and_axis (detached_first_scene ["j"]) = Some st' /\
    (jd_child_pivot <$> ambf_data st' !! "j") = Some (Some (mkXYZ 0 0 0)).
Proof.
  unfold adjust_body_pivots_and_axis.
  change (joints (detached_first_scene ["j"])) with ["j"].
  cbn [adjust_joints].
  set (st := detached_first_scene ["j"]).
  set (jd := set_child_pivot (Some (mkXYZ 0 0 1)) (plain_joint "j" "P" "Q" (mkXYZ 1 0 0))).
  assert (J : ambf_data st !! "j" = Some jd) by reflexivity.
  rewrite J. cbn [mbind option_bind].
  change (jd_child_pivot jd) with (Some (mkXYZ 0 0 1)).
  change (is_detached_joint jd) with false. cbv iota.
  unfold adjust_joint.
  change (get_parent_pivot_and_axis_data jd) with (mkXYZ 1 0 0, mkXYZ 0 0 1).
  change (get_child_pivot_and_axis_data jd) with (mkXYZ 0 0 1, mkXYZ 0 0 1).
  cbv iota beta.
  change (blender_remapped_body_names st !! jd_child jd) with (Some 2%nat).
  cbn [mbind option_bind].
  change (objects st !! 2%nat) with (Some (mesh_body "Q" Identity4 None)).
  cbn [mbind option_bind].
  change (get_standard_pivot_and_axis_data jd) with (Some (mkXYZ 0 0 0, mkXYZ 0 0 1, @nil string)).
  cbn [mbind option_bind].
  assert (U : dot (xyz_to_vec (mkXYZ 0 0 1)) (xyz_to_vec (mkXYZ 0 0 1)) = 1)
    by (unfold xyz_to_vec; mat_norm; cbn; ring).
  rewrite !(get_rot_mat_from_vecs_same _ U). cbn [mbind option_bind].
  unfold pivot_matrix. cbn [translation set_translation to_3x3 Identity4].
  change (mkMat4 Identity3 (xyz_to_vec (mkXYZ 0 0 1)))
    with (set_translation Identity4 (xyz_to_vec (mkXYZ 0 0 1))).
  rewrite invert4_translation. cbn [mbind option_bind].
  set (T_c_j := mkMat4 Identity3 _).
  change (bool_decide (ob_type (mesh_body "Q" Identity4 None) ≠ "EMPTY")) with true.
  cbv iota. unfold data_transform.
  change (ob_data_transforms (mesh_body "Q" Identity4 None)) with (Some (@nil Matrix4)).
  cbn [mbind option_bind].
  rewrite (update_object_eq _ _ _ (mesh_body "Q" Identity4 None)) by reflexivity.
  cbn [mbind option_bind].
  rewrite mul4_Identity4_l.
  assert (I : invert4 T_c_j = Some (mkMat4 Identity3 (vneg (mulv Identity3 (translation T_c_j))))).
  { unfold invert4, T_c_j. cbn [to_3x3]. now rewrite invert3_Identity3. }
  rewrite I. cbn [mbind option_bind].
  match goal with |- context [to_axis_angle ?q] => set (aa := to_axis_angle q) end.
  match goal with |- context [Rltb (1 / 10) (length ?v) && ?b] =>
    generalize (Rltb (1 / 10) (length v) && b) end.
  intros b1.
  match goal with |- context [if ?c then - snd aa else snd aa] =>
    generalize (if c then - snd aa else snd aa) end.
  intros d_angle.
  destruct (Rltb (1 / 10) (Rabs d_angle)).
  - destruct b1.
    all: cbn; eexists; split; [reflexivity|]; cbn; reflexivity.
  - destruct b1; eexists; (split; [reflexivity|]); reflexivity.
Qed.

End C5.

(** ** C9: rounding of the emitted numbers *)

(** Evaluation that leaves real arithmetic alone. *)
Ltac evalR :=
  cbv -[IZR round PI Rdiv Rmult Rplus Rminus Ropp Rinv sqrt cos sin acos Rabs
        Rltb Rleb Reqb pow].

Section C9.
Local Open Scope R_scope.

Lemma pow10_4 : 10 ^ 4 = 10000.
Proof. simpl. ring. Qed.

Lemma round_four_decimals (x : R) : four_decimals (round x 4).
Proof. unfold four_decimals, round. rewrite pow10_4. eauto. Qed.

Lemma not_four_decimals_123456 : ~ four_decimals (123456 / 1000000).
Proof.
  intros [k Hk].
  assert (H : IZR (100 * k) = IZR 123456) by (rewrite mult_IZR; lra).
  apply eq_IZR in H. lia.
Qed.

(** C9 on the code.  An AMBF revolute constraint with max motor impulse
    0.123456, and a legacy spring constraint with damping and stiffness
    0.123456: the values are written into the record as they are, not
    rounded to four decimals. *)
Theorem C9_unrounded_fields :
  ~ four_decimals (123456 / 1000000) /\
  (exists joint_data,
     assign_joint_params_from_ambf_constraint
       (ambf_constraint_object "j" "REVOLUTE" "Z" Identity4 0%nat 1%nat (123456 / 1000000))
       JointTemplate = Some joint_data /\
     jd_max_motor_impulse joint_data = Some (123456 / 1000000)) /\
  (exists joint_data,
     assign_joint_params_from_blender_constraint
       (spring_constraint 0%nat 1%nat (123456 / 1000000) (123456 / 1000000))
       JointTemplate = Some joint_data /\
     jd_damping joint_data = Some (123456 / 1000000) /\
     jd_stiffness joint_data = Some (123456 / 1000000)).
Proof.
  split; [exact not_four_decimals_123456|]. split.
  - evalR. eexists. split; reflexivity.
  - evalR. eexists. split; [reflexivity|]. split; reflexivity.
Qed.

End C9.

(** ** Evaluating the exporter *)

Section ExporterFacts.
Local Open Scope R_scope.

Lemma round_half_even_IZR (k : Z) : round_half_even (IZR k) = k.
Proof.
  unfold round_half_even. rewrite ZfloorZ.
  assert (E : Rltb (IZR k - IZR k) (1 / 2) = true) by (apply Rltb_true; lra).
  now rewrite E.
Qed.

Lemma round_IZR (k : Z) : round (IZR k / 10000) 4 = IZR k / 10000.
Proof.
  unfold round. rewrite pow10_4.
  replace (IZR k / 10000 * 10000) with (IZR k) by field.
  now rewrite round_half_even_IZR.
Qed.

(** Rounding a number that is written with four decimals changes nothing. *)
Lemma round_four_decimals_id (x : R) : four_decimals x -> round x 4 = x.
Proof. intros [k ->]. apply round_IZR. Qed.

Lemma four_decimals_intro (x : R) (k : Z) : x = IZR k / 10000 -> four_decimals x.
Proof. intros ->. now exists k. Qed.

Lemma normalize_m3_unit_cols (m : Matrix3) :
  dot (col0 m) (col0 m) = 1 -> dot (col1 m) (col1 m) = 1 -> dot (col2 m) (col2 m) = 1 ->
  normalize_m3 m = m.
Proof.
  intros H0 H1 H2. unfold normalize_m3.
  rewrite !normalize_of_unit by assumption. now destruct m.
Qed.

Lemma normalize_m3_Identity3 : normalize_m3 Identity3 = Identity3.
Proof. apply normalize_m3_unit_cols; mat_norm; ring. Qed.

End ExporterFacts.

(** ** Rotations, and what [to_euler().to_matrix()] does to them *)

Section RotationFacts.
Local Open Scope R_scope.

Lemma sqrt_val (x v : R) : 0 <= v -> v * v = x -> sqrt x = v.
Proof. intros Hv Hx. apply sqrt_lem_1; nra. Qed.

Lemma mul3_assoc (a b c : Matrix3) : mul3 (mul3 a b) c = mul3 a (mul3 b c).
Proof. destruct a, b, c. mat_norm. f_equal; ring. Qed.

Lemma mul3_adjugate3 (m : Matrix3) :
  mul3 m (adjugate3 m) = scale3 Identity3 (det3 m).
Proof. destruct m. unfold adjugate3, det3. mat_norm. f_equal; ring. Qed.

Lemma mul3_scale3_Identity3 (m : Matrix3) (k : R) :
  mul3 m (scale3 Identity3 k) = scale3 m k.
Proof. destruct m. mat_norm. f_equal; ring. Qed.

Lemma scale3_1 (m : Matrix3) : scale3 m 1 = m.
Proof. destruct m. mat_norm. f_equal; ring. Qed.

(** The adjugate of a rotation is its transpose. *)
Lemma rotation_adjugate (m : Matrix3) : rotation_matrix m -> adjugate3 m = transpose3 m.
Proof.
  intros [O D]. unfold orthonormal in O.
  rewrite <- (mul3_Identity3_l (adjugate3 m)), <- O, mul3_assoc, mul3_adjugate3, D,
    mul3_scale3_Identity3.
  apply scale3_1.
Qed.

Lemma rotation_invert3 (m : Matrix3) : rotation_matrix m -> invert3 m = Some (transpose3 m).
Proof.
  intros H. pose proof (rotation_adjugate m H) as A. destruct H as [O D].
  unfold invert3. rewrite D.
  assert (E : Reqb 1 0 = false) by (apply Reqb_false; lra).
  rewrite E, A. f_equal. replace (1 / 1) with 1 by field. apply scale3_1.
Qed.

Lemma rotation_rows (m : Matrix3) : rotation_matrix m -> mul3 m (transpose3 m) = Identity3.
Proof.
  intros H. rewrite <- (rotation_adjugate m H), mul3_adjugate3.
  destruct H as [_ ->]. apply scale3_1.
Qed.

Lemma Identity3_rotation : rotation_matrix Identity3.
Proof. split; [apply Identity3_orthonormal|]. unfold det3. mat_norm. ring. Qed.

End RotationFacts.

Section EulerFacts.
Local Open Scope R_scope.

Lemma sqrt_1_sqr (t c : R) : 0 < c -> 1 + t * t = c * c -> sqrt (1 + t²) = c.
Proof. intros Hc H. unfold Rsqr. apply sqrt_val; lra. Qed.

(** [atan2 y x] is the angle of the point [(x, y)]. *)
Lemma atan2_polar (x y r : R) :
  0 < r -> x * x + y * y = r * r ->
  cos (atan2 y x) = x / r /\ sin (atan2 y x) = y / r.
Proof.
  intros Hr H. unfold atan2.
  destruct (Rltb 0 x) eqn:E1; [apply Rltb_true in E1|apply Rltb_false in E1].
  - assert (S : sqrt (1 + (y / x)²) = r / x).
    { apply sqrt_1_sqr; [apply Rdiv_lt_0_compat; lra|].
      transitivity ((x * x + y * y) / (x * x)); [field; lra|rewrite H; field; lra]. }
    rewrite cos_atan, sin_atan, S. split; field; lra.
  - destruct (Rltb x 0) eqn:E2; [apply Rltb_true in E2|apply Rltb_false in E2].
    + assert (S : sqrt (1 + (y / x)²) = r / - x).
      { apply sqrt_1_sqr; [apply Rdiv_lt_0_compat; lra|].
        transitivity ((x * x + y * y) / (x * x)); [field; lra|rewrite H; field; lra]. }
      destruct (Rleb 0 y).
      * rewrite neg_cos, neg_sin, cos_atan, sin_atan, S. split; field; lra.
      * unfold Rminus. rewrite cos_plus, sin_plus, cos_neg, sin_neg, cos_PI, sin_PI,
          cos_atan, sin_atan, S.
        split; field; lra.
    + assert (x = 0) by lra. subst x.
      destruct (Rltb 0 y) eqn:E3; [apply Rltb_true in E3|apply Rltb_false in E3].
      * assert (y = r) by nra. subst y. rewrite cos_PI2, sin_PI2. split; field; lra.
      * destruct (Rltb y 0) eqn:E4; [apply Rltb_true in E4|apply Rltb_false in E4].
        -- assert (y = - r) by nra. subst y.
           rewrite cos_neg, sin_neg, cos_PI2, sin_PI2. split; field; lra.
        -- assert (y = 0) by lra. subst y. nra.
Qed.


(** The entries of a rotation: unit first column and last row, and every
    row the cross product of the two that follow it. *)
Lemma rotation_entries (a00 a01 a02 a10 a11 a12 a20 a21 a22 : R) :
  rotation_matrix (mkMat3 a00 a01 a02 a10 a11 a12 a20 a21 a22) ->
  a00 * a00 + a10 * a10 + a20 * a20 = 1 /\
  a20 * a20 + a21 * a21 + a22 * a22 = 1 /\
  a10 * a10 + a11 * a11 + a12 * a12 = 1 /\
  a01 = a12 * a20 - a10 * a22 /\ a02 = a10 * a21 - a11 * a20 /\
  a11 = a22 * a00 - a20 * a02 /\ a12 = a20 * a01 - a21 * a00.
Proof.
  intros H. pose proof (rotation_adjugate _ H) as A. pose proof (rotation_rows _ H) as W.
  destruct H as [O _]. unfold orthonormal in O. unfold adjugate3 in A.
  mat_norm_in O. mat_norm_in A. mat_norm_in W.
  injection O as O00 _ _ _ _ _ _ _ _.
  injection A as _ _ _ A10 A11 _ A20 A21 _.
  injection W as _ _ _ _ W11 _ _ _ W22.
  repeat split; lra.
Qed.

(** Angles whose cosines and sines are read off a rotation the way
    [mat3_normalized_to_eul2] reads them, up to the common sign [s] of its
    second triple, rebuild the rotation. *)
Lemma eul_to_mat3_polar (m : Matrix3) (e : Vector) (c s : R) :
  rotation_matrix m -> 0 < c -> c * c = m00 m * m00 m + m10 m * m10 m ->
  s = 1 \/ s = -1 ->
  cos (vx e) = s * m22 m / c -> sin (vx e) = s * m21 m / c ->
  cos (vy e) = s * c -> sin (vy e) = - m20 m ->
  cos (vz e) = s * m00 m / c -> sin (vz e) = s * m10 m / c ->
  eul_to_mat3 e = m.
Proof.
  intros H Hc Hcc Hs Ci Si Cj Sj Ch Sh.
  destruct m as [a00 a01 a02 a10 a11 a12 a20 a21 a22]. cbn [m00 m10 m20 m21 m22] in *.
  destruct (rotation_entries _ _ _ _ _ _ _ _ _ H) as (U0 & U2 & U1 & E01 & E02 & E11 & E12).
  assert (C2 : c * c = 1 - a20 * a20) by lra.
  assert (K01 : a01 * (c * c) = - a20 * a21 * a00 - a22 * a10) by (rewrite C2; clear - E01 E02 E11 E12; nsatz).
  assert (K02 : a02 * (c * c) = a10 * a21 - a20 * a22 * a00) by (rewrite C2; clear - E01 E02 E11 E12; nsatz).
  assert (K11 : a11 * (c * c) = a22 * a00 - a20 * a21 * a10) by (rewrite C2; clear - E01 E02 E11 E12; nsatz).
  assert (K12 : a12 * (c * c) = - a20 * a22 * a10 - a21 * a00) by (rewrite C2; clear - E01 E02 E11 E12; nsatz).
  assert (S2 : s * s = 1) by (destruct Hs; subst s; ring).
  unfold eul_to_mat3. rewrite Ci, Si, Cj, Sj, Ch, Sh. cbv zeta. f_equal.
  - transitivity (s * s * a00); [field; lra|rewrite S2; ring].
  - transitivity (s * s * (- a20 * a21 * a00 - a22 * a10) / (c * c));
      [field; lra|rewrite S2, <- K01; field; lra].
  - transitivity (s * s * (a10 * a21 - a20 * a22 * a00) / (c * c));
      [field; lra|rewrite S2, <- K02; field; lra].
  - transitivity (s * s * a10); [field; lra|rewrite S2; ring].
  - transitivity (s * s * (a22 * a00 - a20 * a21 * a10) / (c * c));
      [field; lra|rewrite S2, <- K11; field; lra].
  - transitivity (s * s * (- a20 * a22 * a10 - a21 * a00) / (c * c));
      [field; lra|rewrite S2, <- K12; field; lra].
  - ring.
  - transitivity (s * s * a21); [field; lra|rewrite S2; ring].
  - transitivity (s * s * a22); [field; lra|rewrite S2; ring].
Qed.


Lemma rotation_unit_cols (m : Matrix3) :
  rotation_matrix m ->
  dot (col0 m) (col0 m) = 1 /\ dot (col1 m) (col1 m) = 1 /\ dot (col2 m) (col2 m) = 1.
Proof.
  intros [O _]. unfold orthonormal in O. destruct m. mat_norm_in O. mat_norm.
  injection O as O00 _ _ _ O11 _ _ _ O22. repeat split; lra.
Qed.

Lemma FLT_EPSILON_pos : 0 < 16 * FLT_EPSILON.
Proof. unfold FLT_EPSILON. lra. Qed.

(** A rotation whose first column is exactly along Z is rebuilt from the
    angles of the degenerate branch. *)
Lemma eul_to_mat3_gimbal (m : Matrix3) :
  rotation_matrix m -> m00 m = 0 -> m10 m = 0 ->
  eul_to_mat3 (mkVec (atan2 (- m12 m) (m11 m)) (atan2 (- m20 m) 0) 0) = m.
Proof.
  intros H Z0 Z1.
  destruct m as [a00 a01 a02 a10 a11 a12 a20 a21 a22]. cbn [m00 m10 m11 m12 m20] in *.
  destruct (rotation_entries _ _ _ _ _ _ _ _ _ H) as (U0 & U2 & U1 & E01 & E02 & E11 & E12).
  subst a00 a10.
  assert (Q : a20 * a20 = 1) by lra.
  assert (Z21 : a21 = 0) by nra. assert (Z22 : a22 = 0) by nra. subst a21 a22.
  destruct (atan2_polar a11 (- a12) 1) as [Ci Si]; [lra|lra|].
  destruct (atan2_polar 0 (- a20) 1) as [Cj Sj]; [lra|lra|].
  unfold eul_to_mat3. cbn [vx vy vz]. rewrite Ci, Si, Cj, Sj, cos_0, sin_0.
  f_equal; try (field_simplify; lra); nra.
Qed.

(** On a rotation that [euler_exact] admits, taking the Euler angles and
    rebuilding the matrix gives the rotation back. *)
Lemma to_euler_to_matrix_rotation (m : Matrix3) :
  rotation_matrix m -> euler_exact m -> to_euler_to_matrix m = m.
Proof.
  intros H X. destruct (rotation_unit_cols m H) as (C0 & C1 & C2).
  unfold to_euler_to_matrix, to_euler. rewrite (normalize_m3_unit_cols m C0 C1 C2).
  unfold mat3_normalized_to_eul, mat3_normalized_to_eul2. unfold euler_exact in X.
  cbv zeta in X. set (cy := sqrt (m00 m * m00 m + m10 m * m10 m)) in *.
  pose proof FLT_EPSILON_pos as He.
  assert (P : 0 <= m00 m * m00 m + m10 m * m10 m) by nra.
  assert (S : cy * cy = m00 m * m00 m + m10 m * m10 m) by (apply sqrt_sqrt; exact P).
  destruct X as [X|X].
  - assert (E : Rltb (16 * FLT_EPSILON) cy = false) by (apply Rltb_false; lra).
    rewrite E, X.
    assert (Z0 : m00 m = 0) by nra. assert (Z1 : m10 m = 0) by nra.
    match goal with |- eul_to_mat3 (if ?b then _ else _) = _ => destruct b end;
      now apply eul_to_mat3_gimbal.
  - assert (E : Rltb (16 * FLT_EPSILON) cy = true) by (apply Rltb_true; lra).
    rewrite E.
    destruct m as [a00 a01 a02 a10 a11 a12 a20 a21 a22]. cbn [m00 m10 m11 m12 m20 m21 m22] in *.
    destruct (rotation_entries _ _ _ _ _ _ _ _ _ H) as (U0 & U2 & _).
    assert (Hc : 0 < cy) by lra.
    match goal with |- eul_to_mat3 (if ?b then _ else _) = _ => destruct b end.
    + destruct (atan2_polar (- a22) (- a21) cy) as [Ci Si]; [lra|lra|].
      destruct (atan2_polar (- cy) (- a20) 1) as [Cj Sj]; [lra|lra|].
      destruct (atan2_polar (- a00) (- a10) cy) as [Ch Sh]; [lra|lra|].
      apply (eul_to_mat3_polar _ _ cy (-1)); cbn [m00 m10 m20 m21 m22 vx vy vz];
        try assumption; try lra; try (right; reflexivity);
        first [rewrite Ci|rewrite Si|rewrite Cj|rewrite Sj|rewrite Ch|rewrite Sh];
        field; lra.
    + destruct (atan2_polar a22 a21 cy) as [Ci Si]; [lra|lra|].
      destruct (atan2_polar cy (- a20) 1) as [Cj Sj]; [lra|lra|].
      destruct (atan2_polar a00 a10 cy) as [Ch Sh]; [lra|lra|].
      apply (eul_to_mat3_polar _ _ cy 1); cbn [m00 m10 m20 m21 m22 vx vy vz];
        try assumption; try lra; try (left; reflexivity);
        first [rewrite Ci|rewrite Si|rewrite Cj|rewrite Sj|rewrite Ch|rewrite Sh];
        field; lra.
Qed.

Lemma rotation_only_rigid (T : Matrix4) : rigid_pose T -> rotation_only T = T.
Proof.
  intros [H X]. unfold rotation_only. rewrite (to_euler_to_matrix_rotation _ H X).
  now destruct T.
Qed.

(** Away from the Z axis by a wide margin. *)
Lemma euler_exact_of_large (m : Matrix3) :
  1 / 4 <= m00 m * m00 m + m10 m * m10 m -> euler_exact m.
Proof.
  intros H. right.
  assert (S : sqrt (1 / 4) = 1 / 2) by (apply sqrt_val; lra).
  pose proof (sqrt_le_1_alt _ _ H) as L. rewrite S in L. unfold FLT_EPSILON. lra.
Qed.

Lemma Identity4_rigid : rigid_pose Identity4.
Proof.
  split; [apply Identity3_rotation|]. apply euler_exact_of_large.
  cbn [Identity4 to_3x3 Identity3 m00 m10]. lra.
Qed.

Lemma rigid_of_identity_rotation (T : Matrix4) : to_3x3 T = Identity3 -> rigid_pose T.
Proof. intros H. unfold rigid_pose. rewrite H. apply Identity4_rigid. Qed.

Lemma invert4_Identity4 : invert4 Identity4 = Some Identity4.
Proof.
  unfold invert4. cbn [Identity4 to_3x3 translation]. rewrite invert3_Identity3.
  cbn [mbind option_bind]. unfold Identity4. do 2 f_equal. mat_norm. f_equal; ring.
Qed.


Lemma rigid_invert4 (T : Matrix4) :
  rotation_matrix (to_3x3 T) ->
  invert4 T =
    Some (mkMat4 (transpose3 (to_3x3 T))
                 (vneg (mulv (transpose3 (to_3x3 T)) (translation T)))).
Proof. intros H. unfold invert4. now rewrite (rotation_invert3 _ H). Qed.

(** Between two bodies without scale, the pivot is the child's position
    and the axis the image of the constraint axis, both in the parent's
    frame. *)
Lemma compute_body_pivot_and_axis_rigid (parent child : Object) (axis : Vector) :
  rigid_pose (ob_matrix_world parent) -> rigid_pose (ob_matrix_world child) ->
  compute_body_pivot_and_axis parent child axis =
    Some (mulv (transpose3 (to_3x3 (ob_matrix_world parent)))
               (vsub (translation (ob_matrix_world child))
                     (translation (ob_matrix_world parent))),
          mulv (mul3 (transpose3 (to_3x3 (ob_matrix_world parent)))
                     (to_3x3 (ob_matrix_world child))) axis).
Proof.
  intros Hp Hc. unfold compute_body_pivot_and_axis.
  rewrite (rotation_only_rigid _ Hp), (rotation_only_rigid _ Hc).
  rewrite (rigid_invert4 _ (proj1 Hp)). cbn [mbind option_bind mul4 to_3x3 translation].
  do 2 f_equal.
  destruct (ob_matrix_world parent) as [[] []], (ob_matrix_world child) as [[] []].
  cbn [to_3x3 translation]. mat_norm. f_equal; ring.
Qed.

(** With the parent at the origin and a child without scale, the pivot is
    the child's position and the axis the image of the constraint axis. *)
Lemma compute_body_pivot_and_axis_parent_at_origin (parent child : Object) (axis : Vector) :
  ob_matrix_world parent = Identity4 ->
  rigid_pose (ob_matrix_world child) ->
  compute_body_pivot_and_axis parent child axis =
    Some (translation (ob_matrix_world child), mulv (to_3x3 (ob_matrix_world child)) axis).
Proof.
  intros Hp Hc. rewrite compute_body_pivot_and_axis_rigid;
    [|rewrite Hp; apply Identity4_rigid|exact Hc].
  rewrite Hp. cbn [Identity4 to_3x3 translation]. do 2 f_equal.
  - destruct (translation (ob_matrix_world child)). mat_norm. f_equal; ring.
  - f_equal. destruct (to_3x3 (ob_matrix_world child)). mat_norm. f_equal; ring.
Qed.

End EulerFacts.

(** ** C10: defaults for missing pivot and axis fields *)

Section C10.
Local Open Scope R_scope.

Lemma mulv_Identity3 (v : Vector) : mulv Identity3 v = v.
Proof. destruct v. mat_norm. f_equal; ring. Qed.

(** [get_rot_mat_from_vecs] answers on every pair of non-zero vectors. *)
Lemma get_rot_mat_from_vecs_total (a b : Vector) :
  dot a a <> 0 -> dot b b <> 0 ->
  exists R angle, get_rot_mat_from_vecs a b = Some (R, angle).
Proof.
  intros Ha Hb. unfold get_rot_mat_from_vecs, angle.
  rewrite (proj2 (Reqb_false _ _) Ha), (proj2 (Reqb_false _ _) Hb).
  cbn [orb mbind option_bind]. unfold rot_axis_from_vecs.
  destruct (Rleb _ (1 / 10)); [cbn [mbind option_bind]; eauto|].
  destruct (Rleb (313 / 100) _); [|cbn [mbind option_bind]; eauto].
  unfold angle. rewrite (proj2 (Reqb_false _ _) Ha).
  assert (E : Reqb (dot (mkVec 1 0 0) (mkVec 1 0 0)) 0 = false)
    by (apply Reqb_false; mat_norm; lra).
  rewrite E. cbn [orb mbind option_bind].
  destruct (_ && _); cbn [mbind option_bind]; eauto.
Qed.

(** The axis the standard frame of a kind has is X or Z. *)
Lemma get_standard_pivot_and_axis_data_axis (joint_data : JointData) (t : string) :
  jd_type joint_data = Some t ->
  exists axis lines,
    get_standard_pivot_and_axis_data joint_data = Some (mkXYZ 0 0 0, axis, lines) /\
    dot (xyz_to_vec axis) (xyz_to_vec axis) <> 0.
Proof.
  intros Ht. unfold get_standard_pivot_and_axis_data. rewrite Ht. cbn [mbind option_bind].
  repeat match goal with
         | |- context [PyStr.in_list ?a ?b] => destruct (PyStr.in_list a b)
         end;
    do 2 eexists; (split; [reflexivity|]); unfold xyz_to_vec; mat_norm;
    cbn [xyz_x xyz_y xyz_z]; lra.
Qed.

(** C10.  A record without ['parent pivot'] or ['child pivot'] reads as
    the pivot (0,0,0) and one without ['parent axis'] or ['child axis'] as
    the axis (0,0,1); a field that is there reads as it is.  With the
    parent and child bodies in the scene and no zero axis among the axes
    read, both composers answer, and what they answer is the product the
    code writes with these values in it: the parent's world transform,
    its correction frame, the translation to the parent pivot, the
    rotation by the offset about the parent axis, the rotation
    [get_rot_mat_from_vecs] finds from the child axis (or from the axis of
    the joint kind) to the parent axis and, for the child, the
    translation back from the child pivot.  Without both axes that
    rotation is the identity. *)
Theorem C10_missing_geometry_defaults (st : Loader) (joint_data : JointData)
    (ph ch : handle) (parent_obj : Object) (T_off : Matrix4) :
  blender_remapped_body_names st !! jd_parent joint_data = Some ph ->
  blender_remapped_body_names st !! jd_child joint_data = Some ch ->
  objects st !! ph = Some parent_obj ->
  body_T_j_c st !! jd_parent joint_data = Some T_off ->
  let pp := default (mkXYZ 0 0 0) (jd_parent_pivot joint_data) in
  let pa := default (mkXYZ 0 0 1) (jd_parent_axis joint_data) in
  let cp := default (mkXYZ 0 0 0) (jd_child_pivot joint_data) in
  let ca := default (mkXYZ 0 0 1) (jd_child_axis joint_data) in
  let frame :=
    mul4 (mul4 (mul4 (ob_matrix_world parent_obj) T_off) (pivot_matrix pp))
         (Rotation4 (get_joint_offset_angle st joint_data) (xyz_to_vec pa)) in
  dot (xyz_to_vec pa) (xyz_to_vec pa) <> 0 ->
  dot (xyz_to_vec ca) (xyz_to_vec ca) <> 0 ->
  get_parent_pivot_and_axis_data joint_data = (pp, pa) /\
  get_child_pivot_and_axis_data joint_data = (cp, ca) /\
  (exists R_c_p angle,
     get_rot_mat_from_vecs (xyz_to_vec ca) (xyz_to_vec pa) = Some (R_c_p, angle) /\
     get_child_in_world_transform st joint_data =
       Some (mul4 (mul4 frame R_c_p) (mkMat4 Identity3 (vneg (xyz_to_vec cp)))) /\
     (jd_parent_axis joint_data = None -> jd_child_axis joint_data = None ->
      R_c_p = Identity4)) /\
  (forall t, jd_type joint_data = Some t ->
     exists axis lines R_j_p angle,
       get_standard_pivot_and_axis_data joint_data = Some (mkXYZ 0 0 0, axis, lines) /\
       get_rot_mat_from_vecs (xyz_to_vec axis) (xyz_to_vec pa) = Some (R_j_p, angle) /\
       get_joint_in_world_transform st joint_data = Some (mul4 frame R_j_p, lines)).
Proof.
  intros Hp Hc Ho Ht pp pa cp ca frame Hpa Hca.
  assert (Gp : get_parent_pivot_and_axis_data joint_data = (pp, pa)).
  { unfold get_parent_pivot_and_axis_data, pp, pa.
    destruct (jd_parent_pivot joint_data), (jd_parent_axis joint_data); reflexivity. }
  assert (Gc : get_child_pivot_and_axis_data joint_data = (cp, ca)).
  { unfold get_child_pivot_and_axis_data, cp, ca.
    destruct (jd_child_pivot joint_data), (jd_child_axis joint_data); reflexivity. }
  split; [exact Gp|]. split; [exact Gc|]. split.
  - destruct (get_rot_mat_from_vecs_total _ _ Hca Hpa) as (R & a & E).
    exists R, a. split; [exact E|]. split.
    + unfold get_child_in_world_transform, get_parent_and_child_object_handles.
      rewrite Hp, Hc, Gp, Gc. cbn [mbind option_bind]. rewrite Ho. cbn [mbind option_bind].
      rewrite E. cbn [mbind option_bind]. unfold pivot_matrix at 2.
      rewrite invert4_translation. cbn [mbind option_bind]. rewrite Ht.
      cbn [mbind option_bind]. now rewrite mulv_Identity3.
    + intros N1 N2. unfold pa, ca in E. rewrite N1, N2 in E. cbn [default] in E.
      rewrite get_rot_mat_from_vecs_same in E
        by (unfold xyz_to_vec; mat_norm; cbn [xyz_x xyz_y xyz_z]; ring).
      now injection E as <- _.
  - intros t Hty.
    destruct (get_standard_pivot_and_axis_data_axis joint_data t Hty)
      as (axis & lines & Es & Hax).
    destruct (get_rot_mat_from_vecs_total _ _ Hax Hpa) as (R & a & E).
    exists axis, lines, R, a. split; [exact Es|]. split; [exact E|].
    unfold get_joint_in_world_transform, get_parent_and_child_object_handles.
    rewrite Hp, Hc, Gp, Es. cbn [mbind option_bind]. rewrite Ho. cbn [mbind option_bind].
    rewrite E. cbn [mbind option_bind]. rewrite Ht. reflexivity.
Qed.

(** A bare record in the scene of the closed loop: nothing is missing for
    the composers. *)
Lemma C10_missing_geometry_defaults_witness :
  let joint_data := bare_joint "j" "P" "C" "prismatic" in
  let st := loop_scene false in
  let frame :=
    mul4 (mul4 (mul4 (ob_matrix_world (mesh_body "P" Identity4 None)) Identity4)
               (pivot_matrix (mkXYZ 0 0 0)))
         (Rotation4 (get_joint_offset_angle st joint_data) (xyz_to_vec (mkXYZ 0 0 1))) in
  get_parent_pivot_and_axis_data joint_data = (mkXYZ 0 0 0, mkXYZ 0 0 1) /\
  get_child_pivot_and_axis_data joint_data = (mkXYZ 0 0 0, mkXYZ 0 0 1) /\
  (exists R_c_p angle,
     get_rot_mat_from_vecs (xyz_to_vec (mkXYZ 0 0 1)) (xyz_to_vec (mkXYZ 0 0 1)) =
       Some (R_c_p, angle) /\
     get_child_in_world_transform st joint_data =
       Some (mul4 (mul4 frame R_c_p) (mkMat4 Identity3 (vneg (xyz_to_vec (mkXYZ 0 0 0))))) /\
     (jd_parent_axis joint_data = None -> jd_child_axis joint_data = None ->
      R_c_p = Identity4)) /\
  (forall t, jd_type joint_data = Some t ->
     exists axis lines R_j_p angle,
       get_standard_pivot_and_axis_data joint_data = Some (mkXYZ 0 0 0, axis, lines) /\
       get_rot_mat_from_vecs (xyz_to_vec axis) (xyz_to_vec (mkXYZ 0 0 1)) =
         Some (R_j_p, angle) /\
       get_joint_in_world_transform st joint_data = Some (mul4 frame R_j_p, lines)).
Proof.
  apply (C10_missing_geometry_defaults (loop_scene false)
           (bare_joint "j" "P" "C" "prismatic") 0%nat 1%nat
           (mesh_body "P" Identity4 None) Identity4); try reflexivity;
    cbn [bare_joint jd_parent_axis jd_child_axis default]; unfold xyz_to_vec; mat_norm;
    cbn [xyz_x xyz_y xyz_z]; lra.
Defined.

End C10.
(** ** The offset block, case by case *)

Section OffsetFacts.
Local Open Scope R_scope.

Lemma store_offset_small fname child_axis offset_axis angle joint_data :
  Rabs angle <= 1 / 100 ->
  store_offset fname child_axis offset_axis angle joint_data = (joint_data, []).
Proof.
  intros H. unfold store_offset.
  assert (E : Rltb (1 / 100) (Rabs angle) = false) by (apply Rltb_false; lra).
  now rewrite E.
Qed.

Lemma store_offset_parallel fname child_axis offset_axis angle joint_data :
  1 / 100 < Rabs angle ->
  Rabs (1 - dot child_axis offset_axis) < 1 / 10 ->
  store_offset fname child_axis offset_axis angle joint_data =
    (set_offset (Some (round angle 4)) joint_data, []).
Proof.
  intros H1 H2. unfold store_offset.
  assert (E1 : Rltb (1 / 100) (Rabs angle) = true) by (apply Rltb_true; lra).
  assert (E2 : Rltb (Rabs (1 - dot child_axis offset_axis)) (1 / 10) = true)
    by (apply Rltb_true; lra).
  now rewrite E1, E2.
Qed.

Lemma store_offset_antiparallel fname child_axis offset_axis angle joint_data :
  1 / 100 < Rabs angle ->
  1 / 10 <= Rabs (1 - dot child_axis offset_axis) ->
  Rabs (1 + dot child_axis offset_axis) < 1 / 10 ->
  store_offset fname child_axis offset_axis angle joint_data =
    (set_offset (Some (- round angle 4)) joint_data, []).
Proof.
  intros H1 H2 H3. unfold store_offset.
  assert (E1 : Rltb (1 / 100) (Rabs angle) = true) by (apply Rltb_true; lra).
  assert (E2 : Rltb (Rabs (1 - dot child_axis offset_axis)) (1 / 10) = false)
    by (apply Rltb_false; lra).
  assert (E3 : Rltb (Rabs (1 + dot child_axis offset_axis)) (1 / 10) = true)
    by (apply Rltb_true; lra).
  now rewrite E1, E2, E3.
Qed.

Lemma store_offset_inconsistent fname child_axis offset_axis angle joint_data :
  1 / 100 < Rabs angle ->
  1 / 10 <= Rabs (1 - dot child_axis offset_axis) ->
  1 / 10 <= Rabs (1 + dot child_axis offset_axis) ->
  store_offset fname child_axis offset_axis angle joint_data =
    (joint_data,
     [PyStr.concat ["ERROR: ( "; fname; " ) ( "; jd_name joint_data; " ) SHOULD'NT GET HERE"]]).
Proof.
  intros H1 H2 H3. unfold store_offset.
  assert (E1 : Rltb (1 / 100) (Rabs angle) = true) by (apply Rltb_true; lra).
  assert (E2 : Rltb (Rabs (1 - dot child_axis offset_axis)) (1 / 10) = false)
    by (apply Rltb_false; lra).
  assert (E3 : Rltb (Rabs (1 + dot child_axis offset_axis)) (1 / 10) = false)
    by (apply Rltb_false; lra).
  now rewrite E1, E2, E3.
Qed.

End OffsetFacts.

(** ** The tilted scene through the exporter *)

Section Tilted.
Local Open Scope R_scope.

Lemma normalize_qt_unit (q : Quaternion) :
  qw q * qw q + qx q * qx q + qy q * qy q + qz q * qz q = 1 -> normalize_qt q = q.
Proof.
  intros H. unfold normalize_qt. rewrite H, sqrt_1.
  assert (E : Reqb 1 0 = false) by (apply Reqb_false; lra).
  rewrite E. destruct q. cbn [qw qx qy qz]. f_equal; field.
Qed.

Lemma tilted_rotation_unit_cols :
  dot (col0 tilted_rotation) (col0 tilted_rotation) = 1 /\
  dot (col1 tilted_rotation) (col1 tilted_rotation) = 1 /\
  dot (col2 tilted_rotation) (col2 tilted_rotation) = 1.
Proof. unfold tilted_rotation. mat_norm. repeat split; field. Qed.

Lemma tilted_world_rigid : rigid_pose tilted_world.
Proof.
  split; [split|].
  - unfold tilted_world, tilted_rotation. cbn [to_3x3]. mat_norm. f_equal; field.
  - unfold tilted_world, tilted_rotation, det3. cbn [to_3x3]. mat_norm. field.
  - apply euler_exact_of_large. unfold tilted_world, tilted_rotation.
    cbn [to_3x3 m00 m10]. lra.
Qed.

Lemma to_quaternion_tilted :
  to_quaternion tilted_rotation = mkQuat (98 / 100) (14 / 100) (- (2 / 100)) (14 / 100).
Proof.
  destruct tilted_rotation_unit_cols as (C0 & C1 & C2).
  unfold to_quaternion. rewrite (normalize_m3_unit_cols _ C0 C1 C2).
  unfold mat3_normalized_to_quat, tilted_rotation.
  cbn [m00 m01 m02 m10 m11 m12 m20 m21 m22].
  replace (25 / 100 * (1 + 96 / 100 + 9216 / 10000 + 96 / 100)) with (9604 / 10000) by field.
  assert (E : Rltb (1 / 10 ^ 4) (9604 / 10000) = true)
    by (apply Rltb_true; rewrite pow10_4; lra).
  rewrite E, (sqrt_val (9604 / 10000) (98 / 100)) by lra.
  rewrite normalize_qt_unit by (cbn [qw qx qy qz]; field).
  f_equal; field.
Qed.

(** The sine of half the residual angle: the square root of 0.0396. *)
Lemma sqrt_396_bounds :
  19 / 100 < sqrt (396 / 10000) < 2 / 10 /\
  sqrt (396 / 10000) * sqrt (396 / 10000) = 396 / 10000.
Proof.
  assert (S : sqrt (396 / 10000) * sqrt (396 / 10000) = 396 / 10000) by (apply sqrt_sqrt; lra).
  pose proof (sqrt_pos (396 / 10000)).
  repeat split; [nra|nra|exact S].
Qed.

Lemma to_axis_angle_tilted :
  to_axis_angle (mkQuat (98 / 100) (14 / 100) (- (2 / 100)) (14 / 100)) =
    (mkVec (14 / 100 / sqrt (396 / 10000)) (- (2 / 100) / sqrt (396 / 10000))
           (14 / 100 / sqrt (396 / 10000)),
     acos (98 / 100) * 2).
Proof.
  destruct sqrt_396_bounds as ((L & U) & S).
  unfold to_axis_angle. rewrite normalize_qt_unit by (cbn [qw qx qy qz]; field).
  cbn [qw qx qy qz]. rewrite sin_acos by lra.
  replace (1 - (98 / 100)²) with (396 / 10000) by (unfold Rsqr; field).
  assert (E : Rltb (Rabs (sqrt (396 / 10000))) (5 / 10000) = false).
  { apply Rltb_false. rewrite Rabs_pos_eq; lra. }
  rewrite E. set (s := sqrt (396 / 10000)) in *.
  assert (D : dot (mkVec (14 / 100 / s) (- (2 / 100) / s) (14 / 100 / s))
                  (mkVec (14 / 100 / s) (- (2 / 100) / s) (14 / 100 / s)) = 1).
  { mat_norm.
    replace (14 / 100 / s * (14 / 100 / s) + - (2 / 100) / s * (- (2 / 100) / s) +
             14 / 100 / s * (14 / 100 / s)) with (396 / 10000 / (s * s)) by (field; lra).
    rewrite S. field. }
  rewrite D. assert (E1 : Reqb 1 0 = false) by (apply Reqb_false; lra).
  now rewrite E1.
Qed.

End Tilted.

(** ** The tilted scene through the legacy exporter *)

Ltac evalX :=
  lazy -[IZR round PI Rdiv Rmult Rplus Rminus Ropp Rinv sqrt cos sin acos Rabs
        Rltb Rleb Reqb pow compute_body_pivot_and_axis offset_axis_angle store_offset
        rounded_xyz tilted_rotation tilted_world Identity4 Identity3
        get_rot_mat_from_vecs invert4 mul4 Rotation4 pivot_matrix lookup tilted_objects].

Section TiltedExport.
Local Open Scope R_scope.

Lemma offset_axis_angle_tilted :
  offset_axis_angle (mesh_body "P" Identity4 None) tilted_child
      (mulv tilted_rotation (mkVec 0 0 1)) (mkVec 0 0 1) =
    Some (mkVec (14 / 100 / sqrt (396 / 10000)) (- (2 / 100) / sqrt (396 / 10000))
                (14 / 100 / sqrt (396 / 10000)),
          acos (98 / 100) * 2, tilted_rotation).
Proof.
  unfold offset_axis_angle.
  rewrite rot_matrix_from_vecs_near_parallel;
    [ | mat_norm; ring | unfold tilted_rotation; mat_norm; field
      | unfold tilted_rotation; mat_norm; lra ].
  cbn [mbind option_bind]. rewrite invert3_Identity3. cbn [mbind option_bind].
  change (to_3x3 (ob_matrix_world (mesh_body "P" Identity4 None))) with Identity3.
  rewrite invert3_Identity3. cbn [mbind option_bind].
  change (to_3x3 (ob_matrix_world tilted_child)) with tilted_rotation.
  rewrite !mul3_Identity3_l, to_quaternion_tilted, to_axis_angle_tilted.
  reflexivity.
Qed.

Lemma acos_098_lower : 1 / 100 < Rabs (acos (98 / 100) * 2).
Proof.
  assert (H : 1 / 100 < acos (98 / 100)).
  { apply acos_gt; [lra| pose proof PI_lower; lra|].
    pose proof (cos_lower (1 / 100)). lra. }
  rewrite Rabs_pos_eq; lra.
Qed.

Lemma round_to (x v : R) (k : Z) :
  x = IZR k / 10000 -> v = IZR k / 10000 -> round x 4 = v.
Proof. intros -> ->. apply round_IZR. Qed.

Lemma tilted_export :
  generate_joint_data_from_blender_constraint tilted_objects tilted_child =
    Some (mkEmitted (Some ("JOINT P-C", tilted_joint))
            [offset_error_line "generate_joint_data_from_blender_constraint" "P-C"]).
Proof.
  assert (L0 : tilted_objects !! 0%nat = Some (mesh_body "P" Identity4 None)) by reflexivity.
  assert (L1 : tilted_objects !! 1%nat = Some tilted_child) by reflexivity.
  destruct tilted_rotation_unit_cols as (C0 & C1 & C2).
  destruct sqrt_396_bounds as ((L & U) & S).
  unfold generate_joint_data_from_blender_constraint, is_object_hidden.
  change (ob_hidden tilted_child) with false. cbv iota.
  change (ob_rigid_body_constraint tilted_child) with (Some (hinge_constraint 0%nat 1%nat)).
  cbv iota. cbn [hinge_constraint rbc_object1 rbc_object2 rbc_type mbind option_bind].
  unfold handle in *.
  rewrite L0, L1. cbn [mbind option_bind].
  evalX.
  rewrite compute_body_pivot_and_axis_parent_at_origin
    by (try reflexivity; exact tilted_world_rigid).
  cbn [mbind option_bind ob_matrix_world].
  match goal with |- context [offset_axis_angle ?a ?b ?c ?d] =>
    change (offset_axis_angle a b c d) with
      (offset_axis_angle (mesh_body "P" Identity4 None) tilted_child
         (mulv tilted_rotation (mkVec 0 0 1)) (mkVec 0 0 1)) end.
  rewrite offset_axis_angle_tilted.
  rewrite store_offset_inconsistent.
  - assert (R1 : rounded_xyz (mulv (to_3x3 tilted_world) (mkVec 0 0 1)) =
                 mkXYZ 0 (- (28 / 100)) (96 / 100)).
    { unfold rounded_xyz, tilted_world, tilted_rotation. cbn [to_3x3]. mat_norm.
      f_equal; [apply (round_to _ _ 0) | apply (round_to _ _ (-2800))
               | apply (round_to _ _ 9600)]; field. }
    assert (R2 : rounded_xyz (translation tilted_world) = mkXYZ 1 0 0).
    { unfold rounded_xyz, tilted_world. cbn [translation vx vy vz].
      f_equal; [apply (round_to _ _ 10000) | apply (round_to _ _ 0)
               | apply (round_to _ _ 0)]; field. }
    assert (R3 : rounded_xyz (mkVec 0 0 1) = mkXYZ 0 0 1).
    { unfold rounded_xyz. cbn [vx vy vz].
      f_equal; [apply (round_to _ _ 0) | apply (round_to _ _ 0)
               | apply (round_to _ _ 10000)]; field. }
    assert (R4 : rounded_xyz (mkVec 0 0 0) = mkXYZ 0 0 0).
    { unfold rounded_xyz. cbn [vx vy vz]. f_equal; apply (round_to _ _ 0); field. }
    rewrite R1, R2, R3, R4. reflexivity.
  - apply acos_098_lower.
  - mat_norm.
    assert (D : 7 / 10 < 14 / 100 / sqrt (396 / 10000) < 74 / 100).
    { assert (E : 14 / 100 / sqrt (396 / 10000) * sqrt (396 / 10000) = 14 / 100)
        by (field; lra).
      set (d := 14 / 100 / sqrt (396 / 10000)) in *. nra. }
    rewrite Rabs_pos_eq; lra.
  - mat_norm.
    assert (D : 7 / 10 < 14 / 100 / sqrt (396 / 10000) < 74 / 100).
    { assert (E : 14 / 100 / sqrt (396 / 10000) * sqrt (396 / 10000) = 14 / 100)
        by (field; lra).
      set (d := 14 / 100 / sqrt (396 / 10000)) in *. nra. }
    rewrite Rabs_pos_eq; lra.
Qed.

End TiltedExport.

(** ** What the exporters preserve and what their results come from *)

Ltac inv_opt :=
  repeat match goal with
  | H : Some _ = Some _ |- _ => injection H as H
  | H : None = Some _ |- _ => discriminate H
  | H : (mbind _ ?x) = Some _ |- _ =>
      let E := fresh "E" in destruct x eqn:E; cbn [mbind option_bind] in H
  | H : (match ?x with _ => _ end) = Some _ |- _ =>
      let E := fresh "E" in destruct x eqn:E
  end.

Ltac eval_decides :=
  repeat match goal with
  | |- context [bool_decide ?P] =>
      let b := eval vm_compute in (bool_decide P) in
      match b with true => idtac | false => idtac end;
      change (bool_decide P) with b
  end.

Ltac eval_decides_in H :=
  repeat match type of H with
  | context [bool_decide ?P] =>
      let b := eval vm_compute in (bool_decide P) in
      match b with true => idtac | false => idtac end;
      change (bool_decide P) with b in H
  end.

Ltac other_type Hout :=
  rewrite !not_elem_of_cons in Hout;
  destruct Hout as (? & ? & ? & ? & ? & ? & _).

Ltac decide_false :=
  first [ assumption
        | rewrite !elem_of_cons, elem_of_nil; intuition congruence ].

Ltac flag_cases_in H :=
  repeat match type of H with
  | context [ambf_constraint_limits_enable ?P] => destruct (ambf_constraint_limits_enable P)
  | context [ambf_constraint_enable_controller_gains ?P] =>
      destruct (ambf_constraint_enable_controller_gains P)
  end.

Section ExporterInversion.
Local Open Scope R_scope.

Lemma same_geometry_refl a : same_geometry a a.
Proof. now repeat split. Qed.

Lemma same_geometry_trans a b c : same_geometry a b -> same_geometry b c -> same_geometry a c.
Proof. unfold same_geometry, same_geometry_but_offset. intuition congruence. Qed.

Lemma assign_joint_params_from_blender_constraint_keeps constraint jd jd' :
  assign_joint_params_from_blender_constraint constraint jd = Some jd' -> same_geometry jd' jd.
Proof.
  unfold assign_joint_params_from_blender_constraint. intros H.
  repeat match type of H with
  | context [bool_decide ?P] => destruct (bool_decide P)
  | context [use_limit ?P] => destruct (use_limit P)
  | context [first_limited ?c] => destruct (first_limited c) as [[[] ?]|]
  | context [use_spring ?c] => destruct (use_spring c)
  end;
  cbn [mbind option_bind jd_type set_type set_stiffness set_damping] in H;
  inv_opt; subst; repeat split.
Qed.

Lemma assign_joint_params_from_ambf_constraint_keeps joint_obj jd jd' :
  assign_joint_params_from_ambf_constraint joint_obj jd = Some jd' -> same_geometry jd' jd.
Proof.
  unfold assign_joint_params_from_ambf_constraint, PyStr.in_list. cbv zeta.
  generalize (ambf_constraint_type (ob_ambf joint_obj)) as t. intros t H.
  destruct (decide (t ∈ ["REVOLUTE"; "PRISMATIC"; "LINEAR_SPRING"; "TORSION_SPRING";
                          "FIXED"; "P2P"])) as [Hin|Hout].
  - repeat (apply elem_of_cons in Hin as [->|Hin]);
      [ .. | apply elem_of_nil in Hin; contradiction ];
      eval_decides_in H; cbv iota in H; flag_cases_in H;
      cbn [mbind option_bind jd_type set_type set_stiffness set_damping set_joint_limits
           set_max_motor_impulse set_controller jd_joint_limits jd_controller] in H;
      inv_opt; subst; repeat split.
  - other_type Hout. rewrite !bool_decide_eq_false_2 in H by decide_false.
    cbv iota in H. flag_cases_in H;
      cbn [mbind option_bind jd_type set_type set_stiffness set_damping set_joint_limits
           set_max_motor_impulse set_controller jd_joint_limits jd_controller] in H;
      inv_opt; subst; repeat split.
Qed.

(** The offset block changes nothing but ['offset']. *)
Lemma store_offset_cases fname child_axis offset_axis angle jd :
  let r := store_offset fname child_axis offset_axis angle jd in
  same_geometry_but_offset (fst r) jd /\
  jd_offset (fst r) =
    (if Rltb (1 / 100) (Rabs angle) then
       if Rltb (Rabs (1 - dot child_axis offset_axis)) (1 / 10)
       then Some (round angle 4)
       else if Rltb (Rabs (1 + dot child_axis offset_axis)) (1 / 10)
            then Some (- round angle 4) else jd_offset jd
     else jd_offset jd) /\
  snd r =
    (if Rltb (1 / 100) (Rabs angle) then
       if Rltb (Rabs (1 - dot child_axis offset_axis)) (1 / 10) then []
       else if Rltb (Rabs (1 + dot child_axis offset_axis)) (1 / 10) then []
            else [offset_error_line fname (jd_name jd)]
     else []).
Proof.
  unfold store_offset.
  destruct (Rltb (1 / 100) (Rabs angle));
    [destruct (Rltb (Rabs (1 - dot child_axis offset_axis)) (1 / 10));
     [|destruct (Rltb (Rabs (1 + dot child_axis offset_axis)) (1 / 10))]|];
    cbn; repeat split.
Qed.

End ExporterInversion.

Section ExporterProvenance.
Local Open Scope R_scope.

Lemma store_offset_written fname child_axis offset_axis angle jd jd' log :
  store_offset fname child_axis offset_axis angle jd = (jd', log) ->
  jd_offset jd = None ->
  same_geometry_but_offset jd' jd /\
  jd_offset jd' = offset_written child_axis offset_axis angle /\
  log = offset_lines fname (jd_name jd) child_axis offset_axis angle.
Proof.
  intros H Hn. pose proof (store_offset_cases fname child_axis offset_axis angle jd) as C.
  cbv zeta in C. rewrite H in C. cbn [fst snd] in C. destruct C as (G & O & L).
  split; [exact G|]. unfold offset_written, offset_lines. rewrite O, L, Hn.
  split; reflexivity.
Qed.


Ltac export_tail H jd :=
  match type of H with
  | context [assign_joint_params_from_blender_constraint ?c ?j] =>
      let K := fresh "K" in
      destruct (assign_joint_params_from_blender_constraint c j) as [?jd0|] eqn:K;
      [apply assign_joint_params_from_blender_constraint_keeps in K|discriminate H]
  | context [assign_joint_params_from_ambf_constraint ?c ?j] =>
      let K := fresh "K" in
      destruct (assign_joint_params_from_ambf_constraint c j) as [?jd0|] eqn:K;
      [apply assign_joint_params_from_ambf_constraint_keeps in K|discriminate H]
  end;
  cbn [mbind option_bind] in H;
  match type of H with
  | context [offset_axis_angle ?a ?b ?c ?d] =>
      let O := fresh "Eo" in
      destruct (offset_axis_angle a b c d) as [[[offset_axis angle] r]|] eqn:O;
      [|discriminate H]
  end;
  cbn [mbind option_bind] in H;
  match type of H with
  | context [store_offset ?f ?a ?b ?c ?d] =>
      let S := fresh "Es" in
      destruct (store_offset f a b c d) as [?jd1 ?log2] eqn:S;
      apply store_offset_written in S;
      [|match goal with K : same_geometry _ _ |- _ => destruct K as [_ ->] end; reflexivity]
  end;
  match goal with K : same_geometry _ _ |- _ =>
    destruct K as ((?N & ?P & ?C & ?PP & ?PA & ?CP & ?CA & ?D & ?BR) & ?O) end;
  match goal with K : same_geometry_but_offset _ _ /\ _ |- _ =>
    destruct K as ((?N & ?P & ?C & ?PP & ?PA & ?CP & ?CA & ?D & ?BR) & ?O & ?L) end;
  cbn [store_pivots_and_axes set_name set_parent set_child set_parent_pivot set_parent_axis
       set_child_pivot set_child_axis set_detached set_body_rotation
       jd_name jd_parent jd_child jd_parent_pivot
       jd_parent_axis jd_child_pivot jd_child_axis jd_offset jd_detached jd_body_rotation
       JointTemplate] in *.

Ltac export_fields :=
  cbn [set_damping set_controller set_body_rotation jd_name jd_parent jd_child jd_parent_pivot
       jd_parent_axis jd_child_pivot jd_child_axis jd_offset jd_detached];
  repeat split; try eassumption; try reflexivity; try congruence;
  try match goal with
      | L : ?l = offset_lines _ (jd_name ?b) _ _ _, N : jd_name ?a = jd_name ?b |- _ =>
          rewrite L, N; reflexivity
      end.

Lemma legacy_export_inv objects joint_obj key jd log :
  generate_joint_data_from_blender_constraint objects joint_obj =
    Some (mkEmitted (Some (key, jd)) log) ->
  exists constraint parent_h child_h parent child constraint_axis
         parent_pivot parent_axis child_pivot child_axis offset_axis angle r log1,
    ob_rigid_body_constraint joint_obj = Some constraint /\
    rbc_object1 constraint = Some parent_h /\ rbc_object2 constraint = Some child_h /\
    objects !! parent_h = Some parent /\ objects !! child_h = Some child /\
    get_default_axis_of_blender_constraint constraint = Some constraint_axis /\
    (if is_detached_joint_object joint_obj
     then compute_body_pivot_and_axis parent joint_obj constraint_axis =
            Some (parent_pivot, parent_axis) /\
          compute_body_pivot_and_axis child joint_obj constraint_axis =
            Some (child_pivot, child_axis) /\
          jd_detached jd = Some (YBool true)
     else compute_body_pivot_and_axis parent child constraint_axis =
            Some (parent_pivot, parent_axis) /\
          child_pivot = mkVec 0 0 0 /\ child_axis = constraint_axis /\
          jd_detached jd = None) /\
    jd_name jd = PyStr.concat [remove_namespace_prefix (ob_name parent); "-";
                               remove_namespace_prefix (ob_name child)] /\
    jd_parent jd = add_body_prefix_str (remove_namespace_prefix (ob_name parent)) /\
    jd_child jd = add_body_prefix_str (remove_namespace_prefix (ob_name child)) /\
    key = add_joint_prefix_str (jd_name jd) /\
    jd_parent_pivot jd = Some (rounded_xyz parent_pivot) /\
    jd_parent_axis jd = Some (rounded_xyz parent_axis) /\
    jd_child_pivot jd = Some (rounded_xyz child_pivot) /\
    jd_child_axis jd = Some (rounded_xyz child_axis) /\
    offset_axis_angle parent child parent_axis child_axis = Some (offset_axis, angle, r) /\
    jd_offset jd = offset_written child_axis offset_axis angle /\
    log = log1 ++ offset_lines "generate_joint_data_from_blender_constraint" (jd_name jd)
                    child_axis offset_axis angle /\
    log1 = (if is_detached_joint_object joint_obj
            then [PyStr.concat ["INFO: FOR BODY "; PyStr.dquote;
                                remove_namespace_prefix (ob_name joint_obj);
                                PyStr.dquote; " ADDING DETACHED JOINT"]]
            else []).
Proof.
  unfold generate_joint_data_from_blender_constraint, nothing. intros H.
  destruct (ob_hidden joint_obj); [discriminate H|].
  destruct (ob_rigid_body_constraint joint_obj) as [constraint|]; [|discriminate H].
  destruct (match rbc_object1 constraint with
            | Some h => is_object_hidden objects (Some h) | None => Some false end)
    as [hidden1|]; [|discriminate H].
  cbn [mbind option_bind] in H.
  destruct (match rbc_object2 constraint with
            | Some h => is_object_hidden objects (Some h) | None => Some false end)
    as [hidden2|]; [|discriminate H].
  cbn [mbind option_bind] in H.
  destruct (hidden1 || hidden2); [discriminate H|].
  destruct (negb _); [discriminate H|].
  destruct (rbc_object1 constraint) as [parent_h|] eqn:E1; [|discriminate H].
  destruct (objects !! parent_h) as [parent|] eqn:Ep; [|discriminate H].
  cbn [mbind option_bind] in H.
  destruct (rbc_object2 constraint) as [child_h|] eqn:E2; [|discriminate H].
  cbn [mbind option_bind] in H.
  destruct (objects !! child_h) as [child|] eqn:Ec; [|discriminate H].
  cbn [mbind option_bind] in H.
  destruct (get_default_axis_of_blender_constraint constraint) as [constraint_axis|] eqn:Ea;
    [|discriminate H].
  cbn [mbind option_bind] in H.
  destruct (is_detached_joint_object joint_obj) eqn:Ed.
  - destruct (compute_body_pivot_and_axis parent joint_obj constraint_axis)
      as [[parent_pivot parent_axis]|] eqn:Cp; [|discriminate H].
    cbn [mbind option_bind] in H.
    destruct (compute_body_pivot_and_axis child joint_obj constraint_axis)
      as [[child_pivot child_axis]|] eqn:Cc; [|discriminate H].
    cbn [mbind option_bind] in H.
    export_tail H jd.
    injection H as Hk Hj Hl. subst key jd log.
    exists constraint, parent_h, child_h, parent, child, constraint_axis,
      parent_pivot, parent_axis, child_pivot, child_axis, offset_axis, angle, r.
    exists [PyStr.concat ["INFO: FOR BODY "; PyStr.dquote;
                          remove_namespace_prefix (ob_name joint_obj);
                          PyStr.dquote; " ADDING DETACHED JOINT"]].
    destruct (PyStr.in_list _ _); [destruct (ambf_enable_joint_props _)|]; export_fields.
  - destruct (compute_body_pivot_and_axis parent child constraint_axis)
      as [[parent_pivot parent_axis]|] eqn:Cp; [|discriminate H].
    cbn [mbind option_bind] in H.
    export_tail H jd.
    injection H as Hk Hj Hl. subst key jd log.
    exists constraint, parent_h, child_h, parent, child, constraint_axis,
      parent_pivot, parent_axis, (mkVec 0 0 0), constraint_axis, offset_axis, angle, r.
    exists [].
    destruct (PyStr.in_list _ _); [destruct (ambf_enable_joint_props _)|]; export_fields.
Qed.

Lemma ambf_export_inv objects joint_obj key jd log :
  generate_joint_data_from_ambf_constraint objects joint_obj =
    Some (mkEmitted (Some (key, jd)) log) ->
  exists parent_h child_h parent child constraint_axis
         parent_pivot parent_axis child_pivot child_axis offset_axis angle r,
    ambf_constraint_parent (ob_ambf joint_obj) = Some parent_h /\
    ambf_constraint_child (ob_ambf joint_obj) = Some child_h /\
    objects !! parent_h = Some parent /\ objects !! child_h = Some child /\
    get_axis_of_ambf_constraint joint_obj = Some constraint_axis /\
    compute_body_pivot_and_axis parent joint_obj constraint_axis =
      Some (parent_pivot, parent_axis) /\
    compute_body_pivot_and_axis child joint_obj constraint_axis =
      Some (child_pivot, child_axis) /\
    jd_detached jd = Some (YBool true) /\
    jd_name jd =
      (if bool_decide (ambf_constraint_name (ob_ambf joint_obj) = EmptyString)
       then PyStr.concat [remove_namespace_prefix (ob_name parent); "-";
                          remove_namespace_prefix (ob_name child)]
       else ambf_constraint_name (ob_ambf joint_obj)) /\
    jd_parent jd = add_body_prefix_str (remove_namespace_prefix (ob_name parent)) /\
    jd_child jd = add_body_prefix_str (remove_namespace_prefix (ob_name child)) /\
    key = add_joint_prefix_str (jd_name jd) /\
    jd_parent_pivot jd = Some (rounded_xyz parent_pivot) /\
    jd_parent_axis jd = Some (rounded_xyz parent_axis) /\
    jd_child_pivot jd = Some (rounded_xyz child_pivot) /\
    jd_child_axis jd = Some (rounded_xyz child_axis) /\
    offset_axis_angle parent child parent_axis child_axis = Some (offset_axis, angle, r) /\
    jd_offset jd = offset_written child_axis offset_axis angle /\
    log = offset_lines "generate_joint_data_from_ambf_constraint" (jd_name jd)
            child_axis offset_axis angle.
Proof.
  unfold generate_joint_data_from_ambf_constraint, nothing. intros H.
  destruct (bool_decide (ambf_object_type (ob_ambf joint_obj) ≠ "CONSTRAINT"));
    [discriminate H|].
  destruct (ob_hidden joint_obj); [discriminate H|].
  destruct (ambf_constraint_parent (ob_ambf joint_obj)) as [parent_h|] eqn:E1.
  2:{ cbn [mbind option_bind] in H.
      destruct (match ambf_constraint_child (ob_ambf joint_obj) with
                | Some h => _ | None => _ end); cbn [mbind option_bind andb negb] in H;
        discriminate H. }
  destruct (is_object_hidden objects (Some parent_h) ≫= _) as [valid_parent|];
    [|discriminate H].
  cbn [mbind option_bind] in H.
  destruct (ambf_constraint_child (ob_ambf joint_obj)) as [child_h|] eqn:E2.
  2:{ cbn [mbind option_bind] in H. rewrite andb_false_r in H. discriminate H. }
  destruct (is_object_hidden objects (Some child_h) ≫= _) as [valid_child|];
    [|discriminate H].
  cbn [mbind option_bind] in H.
  destruct (negb (valid_parent && valid_child)); [discriminate H|].
  destruct (objects !! parent_h) as [parent|] eqn:Ep; [|discriminate H].
  cbn [mbind option_bind] in H.
  destruct (objects !! child_h) as [child|] eqn:Ec; [|discriminate H].
  cbn [mbind option_bind] in H.
  destruct (get_axis_of_ambf_constraint joint_obj) as [constraint_axis|] eqn:Ea;
    [|discriminate H].
  cbn [mbind option_bind] in H.
  destruct (compute_body_pivot_and_axis parent joint_obj constraint_axis)
    as [[parent_pivot parent_axis]|] eqn:Cp; [|discriminate H].
  cbn [mbind option_bind] in H.
  destruct (compute_body_pivot_and_axis child joint_obj constraint_axis)
    as [[child_pivot child_axis]|] eqn:Cc; [|discriminate H].
  cbn [mbind option_bind] in H.
  destruct (bool_decide (ambf_constraint_name (ob_ambf joint_obj) = EmptyString));
    export_tail H jd;
    match type of H with context [jd_body_rotation ?j] =>
      destruct (jd_body_rotation j); [|discriminate H] end;
    cbn [mbind option_bind] in H; injection H as Hk Hj Hl; subst key jd log;
    exists parent_h, child_h, parent, child, constraint_axis,
      parent_pivot, parent_axis, child_pivot, child_axis, offset_axis, angle, r;
    export_fields.
Qed.
End ExporterProvenance.


(** ** C7: the sign of the stored offset *)

Section C7.
Local Open Scope R_scope.

(** The offset and the lines of the offset block, case by case. *)
Lemma offset_cases (fname name : string) (child_axis offset_axis : Vector) (angle : R)
    (offset : option R) (lines : list string) :
  offset = offset_written child_axis offset_axis angle ->
  lines = offset_lines fname name child_axis offset_axis angle ->
  (Rabs angle <= 1 / 100 -> offset = None /\ lines = []) /\
  (1 / 100 < Rabs angle ->
   (Rabs (1 - dot child_axis offset_axis) < 1 / 10 ->
    offset = Some (round angle 4) /\ lines = []) /\
   (1 / 10 <= Rabs (1 - dot child_axis offset_axis) ->
    Rabs (1 + dot child_axis offset_axis) < 1 / 10 ->
    offset = Some (- round angle 4) /\ lines = []) /\
   (1 / 10 <= Rabs (1 - dot child_axis offset_axis) ->
    1 / 10 <= Rabs (1 + dot child_axis offset_axis) ->
    offset = None /\ lines = [offset_error_line fname name])).
Proof.
  intros -> ->. unfold offset_written, offset_lines. split.
  - intros H. rewrite (proj2 (Rltb_false _ _) H). split; reflexivity.
  - intros H1. rewrite (proj2 (Rltb_true _ _) H1). split; [|split].
    + intros H2. rewrite (proj2 (Rltb_true _ _) H2). split; reflexivity.
    + intros H2 H3. rewrite (proj2 (Rltb_false _ _) H2), (proj2 (Rltb_true _ _) H3).
      split; reflexivity.
    + intros H2 H3. rewrite (proj2 (Rltb_false _ _) H2), (proj2 (Rltb_false _ _) H3).
      split; reflexivity.
Qed.

(** C7.  Whichever exporter writes a joint record, it has found its two
    bodies in the scene through the constraint, the nominal axis of the
    constraint, and the parent and child axes in the frames C6 tells; the
    residual rotation [offset_axis_angle] of these two bodies for these
    two axes then decides the offset.  At or below 0.01 rad in absolute
    value nothing is written.  Above, the offset is the angle rounded to
    four decimals if the residual axis is along the child axis (dot
    product within 0.1 of 1), minus that if it is against it (within 0.1
    of -1); in the remaining case no offset is written and the error line
    with the name of the joint is printed, the only line of the offset
    block ([info] is the line the legacy exporter prints before, for a
    detached joint). *)
Theorem C7_offset_sign_or_error (enable_legacy_loading : bool)
    (objects : gmap handle Object) (joint_obj : Object)
    (key : string) (jd : JointData) (log : list string) :
  generate_joint_data enable_legacy_loading objects joint_obj =
    Some (mkEmitted (Some (key, jd)) log) ->
  exists parent_h child_h parent child constraint_axis
         parent_pivot parent_axis child_pivot child_axis offset_axis angle r,
    (if enable_legacy_loading
     then exists constraint,
            ob_rigid_body_constraint joint_obj = Some constraint /\
            rbc_object1 constraint = Some parent_h /\
            rbc_object2 constraint = Some child_h /\
            get_default_axis_of_blender_constraint constraint = Some constraint_axis
     else ambf_constraint_parent (ob_ambf joint_obj) = Some parent_h /\
          ambf_constraint_child (ob_ambf joint_obj) = Some child_h /\
          get_axis_of_ambf_constraint joint_obj = Some constraint_axis) /\
    objects !! parent_h = Some parent /\ objects !! child_h = Some child /\
    (if negb enable_legacy_loading || is_detached_joint_object joint_obj
     then compute_body_pivot_and_axis parent joint_obj constraint_axis =
            Some (parent_pivot, parent_axis) /\
          compute_body_pivot_and_axis child joint_obj constraint_axis =
            Some (child_pivot, child_axis)
     else compute_body_pivot_and_axis parent child constraint_axis =
            Some (parent_pivot, parent_axis) /\
          child_pivot = mkVec 0 0 0 /\ child_axis = constraint_axis) /\
    offset_axis_angle parent child parent_axis child_axis = Some (offset_axis, angle, r) /\
    let info :=
      if enable_legacy_loading && is_detached_joint_object joint_obj
      then [PyStr.concat ["INFO: FOR BODY "; PyStr.dquote;
                          remove_namespace_prefix (ob_name joint_obj);
                          PyStr.dquote; " ADDING DETACHED JOINT"]]
      else [] in
    (Rabs angle <= 1 / 100 -> jd_offset jd = None /\ log = info) /\
    (1 / 100 < Rabs angle ->
     (Rabs (1 - dot child_axis offset_axis) < 1 / 10 ->
      jd_offset jd = Some (round angle 4) /\ log = info) /\
     (1 / 10 <= Rabs (1 - dot child_axis offset_axis) ->
      Rabs (1 + dot child_axis offset_axis) < 1 / 10 ->
      jd_offset jd = Some (- round angle 4) /\ log = info) /\
     (1 / 10 <= Rabs (1 - dot child_axis offset_axis) ->
      1 / 10 <= Rabs (1 + dot child_axis offset_axis) ->
      jd_offset jd = None /\
      log = info ++ [offset_error_line (co_name enable_legacy_loading) (jd_name jd)])).
Proof.
  intros H. destruct enable_legacy_loading; cbn [generate_joint_data co_name negb orb andb] in *.
  - apply legacy_export_inv in H.
    destruct H as (c & ph & ch & parent & child & ax & pp & pa & cp & ca & oa & an & r & l1
                   & Hc & H1 & H2 & Lp & Lc & Ha & Hd & _ & _ & _ & _ & _ & _ & _ & _
                   & Ho & W & L & L1).
    exists ph, ch, parent, child, ax, pp, pa, cp, ca, oa, an, r.
    split; [exists c; auto|]. split; [exact Lp|]. split; [exact Lc|].
    split; [destruct (is_detached_joint_object joint_obj); tauto|].
    split; [exact Ho|]. cbv zeta. rewrite <- L1.
    destruct (offset_cases "generate_joint_data_from_blender_constraint" (jd_name jd)
                ca oa an _ _ W eq_refl) as (C0 & C1).
    rewrite L. split.
    + intros X. destruct (C0 X) as [-> ->]. now rewrite app_nil_r.
    + intros X. destruct (C1 X) as (D1 & D2 & D3). split; [|split].
      * intros Y. destruct (D1 Y) as [-> ->]. now rewrite app_nil_r.
      * intros Y Z. destruct (D2 Y Z) as [-> ->]. now rewrite app_nil_r.
      * intros Y Z. destruct (D3 Y Z) as [-> ->]. split; reflexivity.
  - apply ambf_export_inv in H.
    destruct H as (ph & ch & parent & child & ax & pp & pa & cp & ca & oa & an & r
                   & H1 & H2 & Lp & Lc & Ha & C1 & C2 & _ & _ & _ & _ & _ & _ & _ & _ & _
                   & Ho & W & L).
    exists ph, ch, parent, child, ax, pp, pa, cp, ca, oa, an, r.
    split; [auto|]. split; [exact Lp|]. split; [exact Lc|]. split; [auto|].
    split; [exact Ho|]. cbv zeta.
    destruct (offset_cases "generate_joint_data_from_ambf_constraint" (jd_name jd)
                ca oa an _ _ W L) as (C0 & C3).
    split; [exact C0|]. exact C3.
Qed.

(** The tilted scene goes through the legacy exporter and C7 applies to
    what it writes. *)
Lemma C7_offset_sign_or_error_witness :
  exists parent_h child_h parent child constraint_axis
         parent_pivot parent_axis child_pivot child_axis offset_axis angle r,
    (exists constraint,
       ob_rigid_body_constraint tilted_child = Some constraint /\
       rbc_object1 constraint = Some parent_h /\
       rbc_object2 constraint = Some child_h /\
       get_default_axis_of_blender_constraint constraint = Some constraint_axis) /\
    tilted_objects !! parent_h = Some parent /\ tilted_objects !! child_h = Some child /\
    (if negb true || is_detached_joint_object tilted_child
     then compute_body_pivot_and_axis parent tilted_child constraint_axis =
            Some (parent_pivot, parent_axis) /\
          compute_body_pivot_and_axis child tilted_child constraint_axis =
            Some (child_pivot, child_axis)
     else compute_body_pivot_and_axis parent child constraint_axis =
            Some (parent_pivot, parent_axis) /\
          child_pivot = mkVec 0 0 0 /\ child_axis = constraint_axis) /\
    offset_axis_angle parent child parent_axis child_axis = Some (offset_axis, angle, r) /\
    let info :=
      if true && is_detached_joint_object tilted_child
      then [PyStr.concat ["INFO: FOR BODY "; PyStr.dquote;
                          remove_namespace_prefix (ob_name tilted_child);
                          PyStr.dquote; " ADDING DETACHED JOINT"]]
      else [] in
    (Rabs angle <= 1 / 100 ->
     jd_offset tilted_joint = None /\
     [offset_error_line "generate_joint_data_from_blender_constraint" "P-C"] = info) /\
    (1 / 100 < Rabs angle ->
     (Rabs (1 - dot child_axis offset_axis) < 1 / 10 ->
      jd_offset tilted_joint = Some (round angle 4) /\
      [offset_error_line "generate_joint_data_from_blender_constraint" "P-C"] = info) /\
     (1 / 10 <= Rabs (1 - dot child_axis offset_axis) ->
      Rabs (1 + dot child_axis offset_axis) < 1 / 10 ->
      jd_offset tilted_joint = Some (- round angle 4) /\
      [offset_error_line "generate_joint_data_from_blender_constraint" "P-C"] = info) /\
     (1 / 10 <= Rabs (1 - dot child_axis offset_axis) ->
      1 / 10 <= Rabs (1 + dot child_axis offset_axis) ->
      jd_offset tilted_joint = None /\
      [offset_error_line "generate_joint_data_from_blender_constraint" "P-C"] =
        info ++ [offset_error_line (co_name true) (jd_name tilted_joint)])).
Proof.
  exact (C7_offset_sign_or_error true tilted_objects tilted_child "JOINT P-C" tilted_joint
           [offset_error_line "generate_joint_data_from_blender_constraint" "P-C"]
           tilted_export).
Defined.

End C7.
(** ** Bodies that are not rotated against each other *)

Section Unrotated.
Local Open Scope R_scope.

Lemma to_quaternion_Identity3 : to_quaternion Identity3 = mkQuat 1 0 0 0.
Proof.
  unfold to_quaternion. rewrite normalize_m3_Identity3.
  unfold mat3_normalized_to_quat, Identity3. cbn [m00 m01 m02 m10 m11 m12 m20 m21 m22].
  replace (25 / 100 * (1 + 1 + 1 + 1)) with 1 by field.
  assert (E : Rltb (1 / 10 ^ 4) 1 = true) by (apply Rltb_true; rewrite pow10_4; lra).
  rewrite E, sqrt_1. rewrite normalize_qt_unit by (cbn [qw qx qy qz]; field).
  f_equal; field.
Qed.

Lemma to_axis_angle_unit_quaternion :
  to_axis_angle (mkQuat 1 0 0 0) = (mkVec 1 0 0, 0 * 2).
Proof.
  unfold to_axis_angle. rewrite normalize_qt_unit by (cbn [qw qx qy qz]; field).
  cbn [qw qx qy qz]. rewrite acos_1, sin_0.
  assert (E : Rltb (Rabs 0) (5 / 10000) = true) by (apply Rltb_true; rewrite Rabs_R0; lra).
  rewrite E.
  assert (D : Reqb (dot (mkVec (0 / 1) (0 / 1) (0 / 1)) (mkVec (0 / 1) (0 / 1) (0 / 1))) 0 = true)
    by (apply Reqb_true; mat_norm; field).
  now rewrite D.
Qed.

(** Two bodies with the same orientation as the world and joint axes that
    coincide leave no residual rotation. *)
Lemma offset_axis_angle_unrotated (parent child : Object) (a : Vector) :
  to_3x3 (ob_matrix_world parent) = Identity3 ->
  to_3x3 (ob_matrix_world child) = Identity3 ->
  dot a a = 1 ->
  offset_axis_angle parent child a a = Some (mkVec 1 0 0, 0 * 2, Identity3).
Proof.
  intros Hp Hc Ha. unfold offset_axis_angle.
  rewrite rot_matrix_from_vecs_near_parallel by (try assumption; rewrite Ha; lra).
  cbn [mbind option_bind]. rewrite invert3_Identity3. cbn [mbind option_bind].
  rewrite Hp, Hc, invert3_Identity3. cbn [mbind option_bind].
  rewrite !mul3_Identity3_l, to_quaternion_Identity3, to_axis_angle_unit_quaternion.
  reflexivity.
Qed.

End Unrotated.

(** ** When the exporters succeed *)

Ltac flag_cases :=
  repeat match goal with
  | |- context [ambf_constraint_limits_enable ?P] => destruct (ambf_constraint_limits_enable P)
  | |- context [ambf_constraint_enable_controller_gains ?P] =>
      destruct (ambf_constraint_enable_controller_gains P)
  end.

Section ExporterTotality.
Local Open Scope R_scope.

(** The parameter stage of the add-on's own constraints fails only on a
    record without ['joint limits'] or ['controller']. *)
Lemma assign_joint_params_from_ambf_constraint_total joint_obj jd lim gains :
  jd_joint_limits jd = Some lim -> jd_controller jd = Some gains ->
  exists jd', assign_joint_params_from_ambf_constraint joint_obj jd = Some jd'.
Proof.
  intros Hl Hc. unfold assign_joint_params_from_ambf_constraint, PyStr.in_list.
  cbv zeta. generalize (ambf_constraint_type (ob_ambf joint_obj)) as t. intros t.
  destruct (decide (t ∈ ["REVOLUTE"; "PRISMATIC"; "LINEAR_SPRING"; "TORSION_SPRING";
                          "FIXED"; "P2P"])) as [Hin|Hout].
  - repeat (apply elem_of_cons in Hin as [->|Hin]);
      [ .. | apply elem_of_nil in Hin; contradiction ];
      eval_decides; cbv iota;
      flag_cases;
      repeat first
        [ rewrite Hl | rewrite Hc
        | progress cbn [mbind option_bind jd_type set_type set_stiffness set_damping
                        set_joint_limits set_max_motor_impulse set_controller
                        jd_joint_limits jd_controller] ];
      eexists; reflexivity.
  - other_type Hout. rewrite !bool_decide_eq_false_2 by decide_false.
    cbv iota. flag_cases;
      repeat first
        [ rewrite Hl | rewrite Hc
        | progress cbn [mbind option_bind jd_type set_type set_stiffness set_damping
                        set_joint_limits set_max_motor_impulse set_controller
                        jd_joint_limits jd_controller] ];
      eexists; reflexivity.
Qed.

End ExporterTotality.

Section ExporterSucceeds.
Local Open Scope R_scope.

(** The exporter of the add-on's constraints writes a record for every
    visible constraint object whose two bodies exist and are visible,
    whose axis is X, Y or Z, and whose pivots and residual rotation can be
    computed (no singular world transform). *)
Lemma ambf_export_succeeds objects joint_obj ph ch parent child axis pp pa cp ca oa an r :
  ambf_object_type (ob_ambf joint_obj) = "CONSTRAINT" ->
  ob_hidden joint_obj = false ->
  ambf_constraint_parent (ob_ambf joint_obj) = Some ph ->
  ambf_constraint_child (ob_ambf joint_obj) = Some ch ->
  objects !! ph = Some parent -> objects !! ch = Some child ->
  ob_hidden parent = false -> ob_hidden child = false ->
  get_axis_of_ambf_constraint joint_obj = Some axis ->
  compute_body_pivot_and_axis parent joint_obj axis = Some (pp, pa) ->
  compute_body_pivot_and_axis child joint_obj axis = Some (cp, ca) ->
  offset_axis_angle parent child pa ca = Some (oa, an, r) ->
  exists key jd log,
    generate_joint_data_from_ambf_constraint objects joint_obj =
      Some (mkEmitted (Some (key, jd)) log).
Proof.
  intros Ht Hh Hp Hc Lp Lc Hhp Hhc Ha Cp Cc Ho.
  unfold generate_joint_data_from_ambf_constraint, is_object_hidden.
  rewrite Ht, Hh, Hp, Hc. cbn [mbind option_bind]. rewrite Lp, Lc.
  cbn [mbind option_bind]. rewrite Hhp, Hhc.
  change (bool_decide ("CONSTRAINT" ≠ "CONSTRAINT")) with false.
  cbn [negb andb mbind option_bind]. rewrite Ha. cbn [mbind option_bind].
  rewrite Cp. cbn [mbind option_bind]. rewrite Cc. cbn [mbind option_bind].
  match goal with |- context [assign_joint_params_from_ambf_constraint ?j ?d] =>
    edestruct (assign_joint_params_from_ambf_constraint_total j d) as [jd0 E0] end.
  { destruct (bool_decide _); reflexivity. }
  { destruct (bool_decide _); reflexivity. }
  rewrite E0. cbn [mbind option_bind]. rewrite Ho. cbn [mbind option_bind].
  apply assign_joint_params_from_ambf_constraint_keeps in E0.
  destruct E0 as ((_ & _ & _ & _ & _ & _ & _ & _ & BR) & _).
  destruct (store_offset _ ca oa an jd0) as [jd1 log2] eqn:Es.
  pose proof (store_offset_cases "generate_joint_data_from_ambf_constraint" ca oa an jd0) as C.
  cbv zeta in C. rewrite Es in C. cbn [fst snd] in C.
  destruct C as ((_ & _ & _ & _ & _ & _ & _ & _ & BR1) & _).
  rewrite BR1, BR.
  assert (B : jd_body_rotation
                (store_pivots_and_axes pp pa cp ca
                   (set_detached (Some (YBool true))
                      (set_child
                         (add_body_prefix_str (remove_namespace_prefix (ob_name child)))
                         (set_parent
                            (add_body_prefix_str (remove_namespace_prefix (ob_name parent)))
                            (if bool_decide (ambf_constraint_name (ob_ambf joint_obj) = EmptyString)
                             then set_name
                                    (PyStr.concat
                                       [remove_namespace_prefix (ob_name parent); "-";
                                        remove_namespace_prefix (ob_name child)])
                                    JointTemplate
                             else set_name (ambf_constraint_name (ob_ambf joint_obj))
                                    JointTemplate))))) =
              Some (mkMat3 0 0 0 0 0 0 0 0 0))
    by (destruct (bool_decide _); reflexivity).
  rewrite B. cbn [mbind option_bind]. eauto.
Qed.

End ExporterSucceeds.

(** ** C6: when a record is marked detached *)

Section C6.
Local Open Scope R_scope.

Lemma round_0 : round 0 4 = 0.
Proof. apply (round_to _ _ 0); field. Qed.

Lemma round_1 : round 1 4 = 1.
Proof. apply (round_to _ _ 10000); field. Qed.

(** The nominal axes are written as they are: rounding leaves 0 and 1. *)
Lemma rounded_default_axis constraint axis :
  get_default_axis_of_blender_constraint constraint = Some axis ->
  rounded_xyz axis = mkXYZ (vx axis) (vy axis) (vz axis).
Proof.
  unfold get_default_axis_of_blender_constraint. intros H.
  repeat match type of H with
  | context [bool_decide ?P] => destruct (bool_decide P)
  | context [PyStr.in_list ?a ?b] => destruct (PyStr.in_list a b)
  | context [use_limit ?a] => destruct (use_limit a)
  end; cbn [orb] in H; inv_opt; subst axis;
  unfold rounded_xyz; cbn [vx vy vz]; rewrite ?round_0, ?round_1; reflexivity.
Qed.

(** C6, as the code has it.  An exporter that writes a joint record has
    found its two bodies in the scene through the constraint, and the
    nominal axis of the constraint.  Which frame the pivots and axes of
    the record refer to, and whether it carries [detached: true], depends
    on the exporter.  The legacy exporter takes the joint object as the
    frame of both bodies, and marks the record, exactly when that object
    is an empty whose name (namespace removed) has one of the detached
    prefixes at index 0 as its last occurrence; otherwise the parent pivot
    and axis are those of the child in the parent, the child pivot is
    (0,0,0) and the child axis the nominal axis.  The exporter of the
    add-on's own constraints always takes the constraint object as the
    frame and always marks the record.  The four fields are written
    rounded to four decimals. *)
Theorem C6_detached_flag_and_frame (enable_legacy_loading : bool)
    (objects : gmap handle Object) (joint_obj : Object)
    (key : string) (jd : JointData) (log : list string) :
  generate_joint_data enable_legacy_loading objects joint_obj =
    Some (mkEmitted (Some (key, jd)) log) ->
  let frame_is_joint_object :=
    negb enable_legacy_loading || is_detached_joint_object joint_obj in
  jd_detached jd = (if frame_is_joint_object then Some (YBool true) else None) /\
  exists parent_h child_h parent child axis parent_pivot parent_axis child_pivot child_axis,
    (if enable_legacy_loading
     then exists constraint,
            ob_rigid_body_constraint joint_obj = Some constraint /\
            rbc_object1 constraint = Some parent_h /\
            rbc_object2 constraint = Some child_h /\
            get_default_axis_of_blender_constraint constraint = Some axis
     else ambf_constraint_parent (ob_ambf joint_obj) = Some parent_h /\
          ambf_constraint_child (ob_ambf joint_obj) = Some child_h /\
          get_axis_of_ambf_constraint joint_obj = Some axis) /\
    objects !! parent_h = Some parent /\ objects !! child_h = Some child /\
    jd_parent jd = add_body_prefix_str (remove_namespace_prefix (ob_name parent)) /\
    jd_child jd = add_body_prefix_str (remove_namespace_prefix (ob_name child)) /\
    jd_parent_pivot jd = Some (rounded_xyz parent_pivot) /\
    jd_parent_axis jd = Some (rounded_xyz parent_axis) /\
    jd_child_pivot jd = Some (rounded_xyz child_pivot) /\
    jd_child_axis jd = Some (rounded_xyz child_axis) /\
    (if frame_is_joint_object
     then compute_body_pivot_and_axis parent joint_obj axis =
            Some (parent_pivot, parent_axis) /\
          compute_body_pivot_and_axis child joint_obj axis =
            Some (child_pivot, child_axis)
     else compute_body_pivot_and_axis parent child axis =
            Some (parent_pivot, parent_axis) /\
          child_pivot = mkVec 0 0 0 /\ child_axis = axis /\
          jd_child_pivot jd = Some (mkXYZ 0 0 0) /\
          jd_child_axis jd = Some (mkXYZ (vx axis) (vy axis) (vz axis))).
Proof.
  intros H. destruct enable_legacy_loading; cbn [generate_joint_data negb orb] in *.
  - apply legacy_export_inv in H.
    destruct H as (c & ph & ch & parent & child & ax & pp & pa & cp & ca & oa & an & r & l1
                   & Hc & H1 & H2 & Lp & Lc & Ha & Hd & _ & HP & HC & _
                   & PP & PA & CP & CA & _).
    destruct (is_detached_joint_object joint_obj).
    + destruct Hd as (C1 & C2 & D). split; [exact D|].
      exists ph, ch, parent, child, ax, pp, pa, cp, ca. repeat split; try assumption.
      exists c. auto.
    + destruct Hd as (C1 & -> & -> & D). split; [exact D|].
      exists ph, ch, parent, child, ax, pp, pa, (mkVec 0 0 0), ax.
      repeat split; try assumption.
      * exists c. auto.
      * rewrite CP. unfold rounded_xyz. cbn [vx vy vz]. now rewrite round_0.
      * rewrite CA. f_equal. eapply rounded_default_axis; eassumption.
  - apply ambf_export_inv in H.
    destruct H as (ph & ch & parent & child & ax & pp & pa & cp & ca & oa & an & r
                   & H1 & H2 & Lp & Lc & Ha & C1 & C2 & D & _ & HP & HC & _
                   & PP & PA & CP & CA & _).
    split; [exact D|].
    exists ph, ch, parent, child, ax, pp, pa, cp, ca. repeat split; assumption.
Qed.

(** The tilted scene through the legacy exporter: not marked, child
    frame. *)
Lemma C6_detached_flag_and_frame_witness :
  let frame_is_joint_object := negb true || is_detached_joint_object tilted_child in
  jd_detached tilted_joint = (if frame_is_joint_object then Some (YBool true) else None) /\
  exists parent_h child_h parent child axis parent_pivot parent_axis child_pivot child_axis,
    (exists constraint,
       ob_rigid_body_constraint tilted_child = Some constraint /\
       rbc_object1 constraint = Some parent_h /\
       rbc_object2 constraint = Some child_h /\
       get_default_axis_of_blender_constraint constraint = Some axis) /\
    tilted_objects !! parent_h = Some parent /\ tilted_objects !! child_h = Some child /\
    jd_parent tilted_joint = add_body_prefix_str (remove_namespace_prefix (ob_name parent)) /\
    jd_child tilted_joint = add_body_prefix_str (remove_namespace_prefix (ob_name child)) /\
    jd_parent_pivot tilted_joint = Some (rounded_xyz parent_pivot) /\
    jd_parent_axis tilted_joint = Some (rounded_xyz parent_axis) /\
    jd_child_pivot tilted_joint = Some (rounded_xyz child_pivot) /\
    jd_child_axis tilted_joint = Some (rounded_xyz child_axis) /\
    (if frame_is_joint_object
     then compute_body_pivot_and_axis parent tilted_child axis =
            Some (parent_pivot, parent_axis) /\
          compute_body_pivot_and_axis child tilted_child axis =
            Some (child_pivot, child_axis)
     else compute_body_pivot_and_axis parent child axis =
            Some (parent_pivot, parent_axis) /\
          child_pivot = mkVec 0 0 0 /\ child_axis = axis /\
          jd_child_pivot tilted_joint = Some (mkXYZ 0 0 0) /\
          jd_child_axis tilted_joint = Some (mkXYZ (vx axis) (vy axis) (vz axis))).
Proof.
  exact (C6_detached_flag_and_frame true tilted_objects tilted_child "JOINT P-C" tilted_joint
           [offset_error_line "generate_joint_data_from_blender_constraint" "P-C"]
           tilted_export).
Defined.

(** Against C6 as claimed.  In the parented scene C hangs under P and the
    constraint object J has no detached prefix: the joint is not a
    detached one.  The exporter of the add-on's constraints still writes
    [detached: true], with a child pivot that is not (0,0,0). *)
Lemma C6_counterexample :
  is_detached_joint_object plain_constraint_object = false /\
  (exists child, parented_objects !! 1%nat = Some child /\ ob_parent child = Some 0%nat) /\
  exists key jd log,
    generate_joint_data false parented_objects plain_constraint_object =
      Some (mkEmitted (Some (key, jd)) log) /\
    jd_detached jd = Some (YBool true) /\
    jd_child_pivot jd = Some (mkXYZ 1 0 0) /\
    jd_child_pivot jd <> Some (mkXYZ 0 0 0).
Proof.
  split; [reflexivity|]. split; [eexists; split; reflexivity|].
  assert (L0 : parented_objects !! 0%nat = Some (mesh_body "P" Identity4 None)) by reflexivity.
  assert (L1 : parented_objects !! 1%nat = Some (mesh_body "C" Identity4 (Some 0%nat)))
    by reflexivity.
  assert (Cj : forall b, ob_matrix_world b = Identity4 ->
             compute_body_pivot_and_axis b plain_constraint_object (mkVec 0 0 1) =
               Some (mkVec 1 0 0, mulv Identity3 (mkVec 0 0 1))).
  { intros b Hb. rewrite compute_body_pivot_and_axis_parent_at_origin;
      [reflexivity|exact Hb|apply rigid_of_identity_rotation; reflexivity]. }
  destruct (ambf_export_succeeds parented_objects plain_constraint_object 0%nat 1%nat
              (mesh_body "P" Identity4 None) (mesh_body "C" Identity4 (Some 0%nat))
              (mkVec 0 0 1) (mkVec 1 0 0) (mulv Identity3 (mkVec 0 0 1))
              (mkVec 1 0 0) (mulv Identity3 (mkVec 0 0 1)) (mkVec 1 0 0) (0 * 2) Identity3)
    as (key & jd & log & E); try reflexivity.
  - apply Cj. reflexivity.
  - apply Cj. reflexivity.
  - apply offset_axis_angle_unrotated; try reflexivity. mat_norm. ring.
  - exists key, jd, log. split; [exact E|].
    apply ambf_export_inv in E.
    destruct E as (ph & ch & parent & child & ax & pp & pa & cp & ca & oa & an & r
                   & Hp & Hc & Lp & Lc & Ha & C1 & C2 & D & _ & _ & _ & _ & _ & _ & CP & _).
    change (ambf_constraint_child (ob_ambf plain_constraint_object)) with (Some 1%nat) in Hc.
    injection Hc as <-. unfold handle in *. rewrite L1 in Lc. injection Lc as <-.
    change (get_axis_of_ambf_constraint plain_constraint_object) with (Some (mkVec 0 0 1)) in Ha.
    injection Ha as <-. rewrite Cj in C2 by reflexivity. injection C2 as <- <-.
    assert (P : jd_child_pivot jd = Some (mkXYZ 1 0 0)).
    { rewrite CP. unfold rounded_xyz. cbn [vx vy vz]. now rewrite round_0, round_1. }
    split; [exact D|]. split; [exact P|]. rewrite P. intros Q. injection Q as Q. lra.
Qed.

End C6.

(** ** C4: the order of the hierarchy pass *)

Section BeforeFacts.
Import Hierarchy.

Lemma before_app_l (l e : list handle) a x : before l a x -> before (l ++ e) a x.
Proof.
  intros (i & j & Hi & Hj & Hij). exists i, j.
  split; [now apply lookup_app_l_Some|]. split; [now apply lookup_app_l_Some|exact Hij].
Qed.

Lemma before_snoc (l : list handle) a x : a ∈ l -> before (l ++ [x]) a x.
Proof.
  intros Ha. apply list_elem_of_lookup in Ha as [i Hi].
  exists i, (List.length l). split; [now apply lookup_app_l_Some|].
  split; [now apply list_lookup_middle|]. now apply lookup_lt_Some in Hi.
Qed.

Lemma before_trans (l : list handle) a p x :
  NoDup l -> before l a p -> before l p x -> before l a x.
Proof.
  intros Hl (i & j & Hi & Hj & Hij) (j' & k & Hj' & Hk & Hjk).
  assert (j = j') by (eapply NoDup_lookup; eassumption). subst j'.
  exists i, k. repeat split; try assumption. lia.
Qed.

End BeforeFacts.

Ltac split5 := refine (conj _ (conj _ (conj _ (conj _ _)))).

Section C4.
Import Hierarchy.
Variable objects : list handle.
Variable parent : handle -> option handle.
Variable rank : handle -> nat.
Variable bound : nat.
Hypothesis parent_closed : forall c p, c ∈ objects -> parent c = Some p -> p ∈ objects.
Hypothesis rank_parent : forall c p, parent c = Some p -> rank p < rank c.
Hypothesis rank_bound : forall x, x ∈ objects -> rank x < bound.

Lemma children_spec b c : c ∈ children objects parent b <-> parent c = Some b /\ c ∈ objects.
Proof. unfold children. now rewrite list_elem_of_filter. Qed.

Lemma get_grand_parent_total fuel x :
  rank x < fuel -> exists g, get_grand_parent parent fuel x = Some g.
Proof.
  revert x. induction fuel as [|fuel IH]; intros x Hx; [lia|].
  cbn. destruct (parent x) as [p|] eqn:Hp; [|eauto].
  apply IH. specialize (rank_parent _ _ Hp). lia.
Qed.

Lemma get_grand_parent_spec fuel x g :
  get_grand_parent parent fuel x = Some g -> x ∈ objects ->
  g ∈ objects /\ parent g = None /\
  forall l, closed_but objects parent [] l -> g ∈ l -> x ∈ l.
Proof.
  revert x. induction fuel as [|fuel IH]; intros x H Hx; [discriminate|].
  cbn in H. destruct (parent x) as [p|] eqn:Hp.
  - destruct (IH p H (parent_closed _ _ Hx Hp)) as (Hg & Hn & Hc).
    repeat split; try assumption. intros l Hl Hgl.
    apply (Hl p x); [now apply Hc|apply not_elem_of_nil|assumption|assumption].
  - injection H as <-. repeat split; try assumption. auto.
Qed.

(** Appending a body that is not listed yet, whose parent (if any) is. *)
Lemma pass_invariant_append l added b :
  pass_invariant objects parent (l, added) -> b ∈ objects -> b ∉ l ->
  (forall p, parent b = Some p -> p ∈ l) ->
  pass_invariant objects parent (l ++ [b], <[b := true]> added).
Proof.
  intros (Hn & Hs & Hf & Ho) Hb Hbl Hp. unfold pass_invariant. cbn [fst snd] in *.
  split; [|split; [|split]].
  - apply NoDup_app. split; [assumption|]. split; [|apply NoDup_singleton].
    intros x Hx Hx'. apply list_elem_of_singleton in Hx'. now subst.
  - intros x Hx. apply elem_of_app in Hx as [Hx|Hx]; [now apply Hs|].
    apply list_elem_of_singleton in Hx. now subst.
  - intros x Hx. destruct (decide (b = x)) as [->|Hne].
    + rewrite lookup_insert_eq. f_equal. symmetry. apply bool_decide_eq_true_2.
      apply elem_of_app. right. apply list_elem_of_here.
    + rewrite lookup_insert_ne by assumption. rewrite Hf by assumption. f_equal.
      apply bool_decide_ext. rewrite elem_of_app, list_elem_of_singleton. intuition congruence.
  - intros x p Hx Hxp. apply elem_of_app in Hx as [Hx|Hx].
    + apply before_app_l. now apply Ho.
    + apply list_elem_of_singleton in Hx. subst x. apply before_snoc. now apply Hp.
Qed.

Lemma downward_tree_pass_ok fuel :
  forall b st stack,
    pass_invariant objects parent st -> closed_but objects parent stack (fst st) ->
    b ∈ objects -> bound <= fuel + rank b ->
    (forall p, parent b = Some p -> p ∈ fst st) ->
    exists st',
      downward_tree_pass objects parent fuel b st = Some st' /\
      pass_invariant objects parent st' /\ closed_but objects parent stack (fst st') /\
      (exists ext, fst st' = fst st ++ ext) /\ b ∈ fst st'.
Proof.
  induction fuel as [|fuel IH]; intros b [l added] stack Hinv Hcl Hb Hf Hp.
  { specialize (rank_bound _ Hb). lia. }
  cbn [downward_tree_pass fst snd] in *.
  pose proof Hinv as (Hn & Hs & Hfl & Ho). cbn [fst snd] in *.
  rewrite (Hfl _ Hb). destruct (bool_decide (b ∈ l)) eqn:Hbl.
  { apply bool_decide_eq_true_1 in Hbl. exists (l, added). cbn [fst].
    split5; try assumption; [reflexivity|]. exists []. now rewrite app_nil_r. }
  apply bool_decide_eq_false_1 in Hbl.
  assert (Hinv1 := pass_invariant_append l added b Hinv Hb Hbl Hp).
  assert (Hcl1 : closed_but objects parent (b :: stack) (l ++ [b])).
  { intros x c Hx Hxs Hc Hcx. apply not_elem_of_cons in Hxs as [Hxb Hxs].
    apply elem_of_app in Hx as [Hx|Hx].
    - apply elem_of_app. left. now apply (Hcl x c).
    - apply list_elem_of_singleton in Hx. contradiction. }
  assert (Hfold : forall cs st,
            (forall c, c ∈ cs -> parent c = Some b /\ c ∈ objects) ->
            pass_invariant objects parent st ->
            closed_but objects parent (b :: stack) (fst st) -> b ∈ fst st ->
            exists st',
              foldl (fun acc child =>
                       st ← acc; downward_tree_pass objects parent fuel child st)
                    (Some st) cs = Some st' /\
              pass_invariant objects parent st' /\
              closed_but objects parent (b :: stack) (fst st') /\
              (exists ext, fst st' = fst st ++ ext) /\
              forall c, c ∈ cs -> c ∈ fst st').
  { induction cs as [|c cs IHcs]; intros st Hcs Hi Hc Hbst.
    - exists st. cbn [foldl]. split5; try assumption; [reflexivity| |].
      + exists []. now rewrite app_nil_r.
      + intros c Hc'. now apply elem_of_nil in Hc'.
    - destruct (Hcs c (list_elem_of_here _ _)) as (Hpc & Hco).
      destruct (IH c st (b :: stack) Hi Hc Hco) as (st1 & E1 & Hi1 & Hc1 & (e1 & He1) & Hc1in).
      { specialize (rank_parent _ _ Hpc). lia. }
      { intros p Hp'. rewrite Hpc in Hp'. injection Hp' as <-. exact Hbst. }
      destruct (IHcs st1) as (st2 & E2 & Hi2 & Hc2 & (e2 & He2) & Hin2); try assumption.
      { intros c' Hc'. apply Hcs. now apply list_elem_of_further. }
      { rewrite He1. apply elem_of_app. now left. }
      exists st2. cbn [foldl mbind option_bind]. rewrite E1. split5; try assumption.
      + exists (e1 ++ e2). rewrite He2, He1. now rewrite app_assoc.
      + intros c' Hc'. apply elem_of_cons in Hc' as [->|Hc']; [|now apply Hin2].
        rewrite He2. apply elem_of_app. now left. }
  destruct (Hfold (children objects parent b) (l ++ [b], <[b := true]> added))
    as (st' & E & Hi' & Hc' & (e & He) & Hin); try assumption.
  { intros c Hc. now apply children_spec. }
  { cbn [fst]. apply elem_of_app. right. apply list_elem_of_here. }
  cbn [fst] in He. exists st'. split5; try assumption.
  - intros x c Hx Hxs Hc Hcx. destruct (decide (x = b)) as [->|Hne].
    + apply Hin. now apply children_spec.
    + apply (Hc' x c); try assumption. apply not_elem_of_cons. now split.
  - exists ([b] ++ e). rewrite He. now rewrite app_assoc.
  - rewrite He. apply elem_of_app. left. apply elem_of_app. right. apply list_elem_of_here.
Qed.

Lemma initial_flags (xs : list handle) (m : gmap handle bool) x :
  foldl (fun m obj_handle => <[obj_handle := false]> m) m xs !! x =
    if bool_decide (x ∈ xs) then Some false else m !! x.
Proof.
  revert m. induction xs as [|y xs IH]; intros m; cbn [foldl].
  - rewrite bool_decide_eq_false_2; [reflexivity|apply not_elem_of_nil].
  - rewrite IH. destruct (decide (x ∈ xs)) as [Hin|Hout].
    + rewrite !bool_decide_eq_true_2; [reflexivity| |assumption]. now apply list_elem_of_further.
    + rewrite (bool_decide_eq_false_2 _ Hout). destruct (decide (y = x)) as [->|Hne].
      * rewrite lookup_insert_eq. rewrite bool_decide_eq_true_2; [reflexivity|].
        apply list_elem_of_here.
      * rewrite lookup_insert_ne by assumption. rewrite bool_decide_eq_false_2; [reflexivity|].
        intros H. apply elem_of_cons in H as [->|H]; [now apply Hne|now apply Hout].
Qed.

(** C4.  On a forest (parents are scene objects, and a rank that grows
    from parent to child makes the links acyclic) and with fuel above
    every rank, the ordering pass returns a list that holds every scene
    object exactly once, and in which every object comes after each of its
    structural ancestors. *)
Theorem C4_hierarchy_order :
  exists l,
    populate_heirarchial_tree objects parent bound = Some l /\
    NoDup l /\
    (forall x, x ∈ l <-> x ∈ objects) /\
    (forall a x, x ∈ objects -> ancestor parent a x -> before l a x).
Proof.
  unfold populate_heirarchial_tree. cbv zeta.
  set (st0 := (([] : list handle),
               foldl (fun m obj_handle => <[obj_handle := false]> m)
                     (∅ : gmap handle bool) objects)).
  assert (Hinv0 : pass_invariant objects parent st0).
  { unfold pass_invariant, st0. cbn [fst snd]. split; [|split; [|split]].
    - now apply NoDup_nil.
    - intros x Hx. now apply elem_of_nil in Hx.
    - intros x Hx. rewrite initial_flags. rewrite (bool_decide_eq_true_2 _ Hx).
      rewrite (bool_decide_eq_false_2 (x ∈ [])) by apply not_elem_of_nil. reflexivity.
    - intros x p Hx. now apply elem_of_nil in Hx. }
  assert (Hcl0 : closed_but objects parent [] (fst st0)).
  { intros x c Hx. now apply elem_of_nil in Hx. }
  assert (Hloop : forall xs st,
            (forall x, x ∈ xs -> x ∈ objects) ->
            pass_invariant objects parent st -> closed_but objects parent [] (fst st) ->
            exists st',
              foldl (fun acc obj_handle =>
                       st ← acc;
                       grand_parent ← get_grand_parent parent bound obj_handle;
                       downward_tree_pass objects parent bound grand_parent st)
                    (Some st) xs = Some st' /\
              pass_invariant objects parent st' /\ closed_but objects parent [] (fst st') /\
              (exists ext, fst st' = fst st ++ ext) /\
              forall x, x ∈ xs -> x ∈ fst st').
  { induction xs as [|x xs IHxs]; intros st Hxs Hi Hc.
    - exists st. cbn [foldl]. split5; try assumption; [reflexivity| |].
      + exists []. now rewrite app_nil_r.
      + intros x Hx. now apply elem_of_nil in Hx.
    - assert (Hx : x ∈ objects) by (apply Hxs, list_elem_of_here).
      destruct (get_grand_parent_total bound x (rank_bound _ Hx)) as [g Hg].
      destruct (get_grand_parent_spec _ _ _ Hg Hx) as (Hgo & Hgn & Hgc).
      destruct (downward_tree_pass_ok bound g st [] Hi Hc Hgo)
        as (st1 & E1 & Hi1 & Hc1 & (e1 & He1) & Hg1).
      { lia. }
      { intros p Hp. congruence. }
      destruct (IHxs st1) as (st2 & E2 & Hi2 & Hc2 & (e2 & He2) & Hin2); try assumption.
      { intros y Hy. apply Hxs. now apply list_elem_of_further. }
      exists st2. cbn [foldl mbind option_bind]. rewrite Hg. cbn [mbind option_bind].
      rewrite E1. split5; try assumption.
      + exists (e1 ++ e2). rewrite He2, He1. now rewrite app_assoc.
      + intros y Hy. apply elem_of_cons in Hy as [->|Hy]; [|now apply Hin2].
        rewrite He2. apply elem_of_app. left. now apply Hgc. }
  destruct (Hloop objects st0) as (st' & E & (Hn & Hs & Hf & Ho) & Hc & _ & Hin);
    try assumption; [auto|].
  exists (fst st').
  split; [exact (f_equal (fun o : option pass_state => st ← o; Some (fst st)) E)|]. split; [assumption|]. split; [split; [apply Hs|apply Hin]|].
  intros a x Hx Ha. idtac.
  - idtac. induction Ha as [x p Hp|x p a Hp Ha IH].
    + apply Ho; [now apply Hin|assumption].
    + apply before_trans with p; [assumption| |].
      * apply IH. eapply parent_closed; eassumption.
      * apply Ho; [now apply Hin|assumption].
Qed.

End C4.

(** The pass on the forest of five bodies. *)
Lemma populate_heirarchial_tree_forest :
  Hierarchy.populate_heirarchial_tree forest_objects forest_parent 3 =
    Some [0; 2; 1; 3; 4]%nat.
Proof. vm_compute. reflexivity. Qed.

Lemma C4_hierarchy_order_witness :
  exists l,
    Hierarchy.populate_heirarchial_tree forest_objects forest_parent 3 = Some l /\
    NoDup l /\
    (forall x, x ∈ l <-> x ∈ forest_objects) /\
    (forall a x, x ∈ forest_objects -> Hierarchy.ancestor forest_parent a x ->
                 Hierarchy.before l a x).
Proof.
  apply (C4_hierarchy_order forest_objects forest_parent forest_rank 3).
  - intros c p Hc Hp. unfold forest_objects in *.
    repeat (apply elem_of_cons in Hc as [->|Hc]); try (now apply elem_of_nil in Hc);
      cbn in Hp; try discriminate Hp; injection Hp as <-;
      repeat first [apply list_elem_of_here | apply list_elem_of_further].
  - intros c p Hp.
    destruct c as [|[|[|[|c]]]]; cbn in Hp; try discriminate Hp; injection Hp as <-;
      cbn; lia.
  - intros x Hx. unfold forest_objects in *.
    repeat (apply elem_of_cons in Hx as [->|Hx]); try (now apply elem_of_nil in Hx);
      cbn; lia.
Defined.

(** ** Rounding error and rotations about Z *)

Section RoundTripMath.
Local Open Scope R_scope.




Lemma rotation_about_z_unit_cols (theta : R) :
  dot (col0 (rotation_about_z theta)) (col0 (rotation_about_z theta)) = 1 /\
  dot (col1 (rotation_about_z theta)) (col1 (rotation_about_z theta)) = 1 /\
  dot (col2 (rotation_about_z theta)) (col2 (rotation_about_z theta)) = 1.
Proof.
  pose proof (sin2_cos2 theta) as H. unfold Rsqr in H.
  unfold rotation_about_z. mat_norm. repeat split; lra.
Qed.

Lemma half_angle_bounds (phi : R) :
  0 <= phi <= 1 -> 1 / 2 <= cos phi <= 1 /\ 0 <= sin phi /\ phi <= PI.
Proof.
  intros H. pose proof PI_lower. pose proof (cos_lower phi). pose proof (COS_bound phi).
  assert (0 <= sin phi) by (apply sin_ge_0; lra).
  repeat split; try lra; nra.
Qed.


Lemma to_quaternion_rotation_about_z (phi : R) :
  0 <= phi <= 1 ->
  to_quaternion (rotation_about_z (2 * phi)) = mkQuat (cos phi) 0 0 (sin phi).
Proof.
  intros H. destruct (half_angle_bounds phi H) as ((C1 & C2) & S & _).
  destruct (rotation_about_z_unit_cols (2 * phi)) as (U0 & U1 & U2).
  unfold to_quaternion. rewrite (normalize_m3_unit_cols _ U0 U1 U2).
  unfold mat3_normalized_to_quat, rotation_about_z.
  cbn [m00 m01 m02 m10 m11 m12 m20 m21 m22].
  rewrite cos_2a_cos, sin_2a.
  replace (25 / 100 * (1 + (2 * cos phi * cos phi - 1) + (2 * cos phi * cos phi - 1) + 1))
    with (cos phi * cos phi) by field.
  assert (E : Rltb (1 / 10 ^ 4) (cos phi * cos phi) = true)
    by (apply Rltb_true; rewrite pow10_4; nra).
  rewrite E, (sqrt_val (cos phi * cos phi) (cos phi)) by lra.
  pose proof (sin2_cos2 phi) as Q. unfold Rsqr in Q. cbv zeta.
  match goal with |- normalize_qt ?q = _ =>
    assert (QE : q = mkQuat (cos phi) 0 0 (sin phi)) by (f_equal; field; lra) end.
  rewrite QE. apply normalize_qt_unit. cbn [qw qx qy qz]. lra.
Qed.

Lemma to_axis_angle_half (phi : R) :
  0 <= phi <= 1 ->
  snd (to_axis_angle (mkQuat (cos phi) 0 0 (sin phi))) = phi * 2 /\
  (5 / 10000 <= sin phi ->
   fst (to_axis_angle (mkQuat (cos phi) 0 0 (sin phi))) = mkVec 0 0 1).
Proof.
  intros H. destruct (half_angle_bounds phi H) as ((C1 & C2) & S & P).
  pose proof (sin2_cos2 phi) as Q. unfold Rsqr in Q.
  unfold to_axis_angle. rewrite normalize_qt_unit by (cbn [qw qx qy qz]; lra).
  cbn [qw qx qy qz fst snd]. rewrite acos_cos by lra. split; [reflexivity|].
  intros Hs.
  assert (E : Rltb (Rabs (sin phi)) (5 / 10000) = false)
    by (apply Rltb_false; rewrite Rabs_pos_eq; lra).
  rewrite E.
  assert (A : mkVec (0 / sin phi) (0 / sin phi) (sin phi / sin phi) = mkVec 0 0 1)
    by (f_equal; field; lra).
  rewrite A.
  assert (D : Reqb (dot (mkVec 0 0 1) (mkVec 0 0 1)) 0 = false)
    by (apply Reqb_false; mat_norm; lra).
  now rewrite D.
Qed.


Lemma rotation_angle_between_about_z (a b : R) :
  rotation_angle_between (rotation_about_z a) (rotation_about_z b) = acos (cos (a - b)).
Proof.
  unfold rotation_angle_between, rotation_about_z. mat_norm. f_equal.
  rewrite cos_minus. field.
Qed.


End RoundTripMath.

(** ** When the legacy exporter succeeds *)

Section LegacySucceeds.
Local Open Scope R_scope.

(** The constraints the legacy parameter stage gives a type: the four
    simple ones, and the generic ones with a limit in use. *)
Lemma assign_joint_params_from_blender_constraint_total constraint jd a b :
  jd_joint_limits jd = Some (mkLimits (Some a) (Some b)) ->
  rbc_type constraint ∈ ["HINGE"; "SLIDER"; "POINT"; "FIXED"] \/
  (rbc_type constraint ∈ ["GENERIC"; "GENERIC_SPRING"] /\ first_limited constraint <> None) ->
  exists jd', assign_joint_params_from_blender_constraint constraint jd = Some jd'.
Proof.
  intros Hl Ht. unfold assign_joint_params_from_blender_constraint, PyStr.in_list. cbv zeta.
  destruct Ht as [Ht|[Ht Hf]].
  - repeat (apply elem_of_cons in Ht as [->|Ht]); [ .. | now apply elem_of_nil in Ht ];
      eval_decides; cbv iota;
      repeat match goal with
             | |- context [use_limit ?x] => destruct (use_limit x)
             end;
      cbn [mbind option_bind jd_type set_type jd_joint_limits]; eval_decides; cbv iota;
      rewrite ?Hl; cbn [mbind option_bind low high]; eexists; reflexivity.
  - destruct (first_limited constraint) as [[linear lim]|]; [|congruence].
    repeat (apply elem_of_cons in Ht as [->|Ht]); [ .. | now apply elem_of_nil in Ht ];
      eval_decides; cbv iota;
      destruct linear;
      repeat match goal with
             | |- context [use_spring ?x] => destruct (use_spring x)
             end;
      cbn [mbind option_bind jd_type set_type set_stiffness set_damping jd_joint_limits];
      eval_decides; cbv iota;
      rewrite ?Hl; cbn [mbind option_bind low high]; eexists; reflexivity.
Qed.

Lemma default_axis_of_typed_constraint constraint :
  rbc_type constraint ∈ ["HINGE"; "SLIDER"; "POINT"; "FIXED"; "GENERIC"; "GENERIC_SPRING"] ->
  negb (PyStr.in_list (rbc_type constraint)
          ["FIXED"; "HINGE"; "SLIDER"; "POINT"; "GENERIC"; "GENERIC_SPRING"]) = false /\
  exists axis, get_default_axis_of_blender_constraint constraint = Some axis.
Proof.
  intros Ht. unfold get_default_axis_of_blender_constraint, PyStr.in_list.
  repeat (apply elem_of_cons in Ht as [->|Ht]); [ .. | now apply elem_of_nil in Ht ];
    eval_decides; cbv iota; (split; [reflexivity|]);
    repeat match goal with
           | |- context [use_limit ?x] => destruct (use_limit x)
           end; cbn [orb]; eexists; reflexivity.
Qed.

(** The legacy exporter writes a record for every visible object that
    carries a constraint of a type the parameter stage knows, between two
    visible scene objects, when the pivot and the residual rotation can be
    computed (no singular world transform).  Stated for joint objects
    without a detached prefix. *)
Lemma legacy_export_succeeds objects joint_obj constraint ph ch parent child axis pp pa oa an r :
  ob_hidden joint_obj = false ->
  ob_rigid_body_constraint joint_obj = Some constraint ->
  rbc_object1 constraint = Some ph -> rbc_object2 constraint = Some ch ->
  objects !! ph = Some parent -> objects !! ch = Some child ->
  ob_hidden parent = false -> ob_hidden child = false ->
  rbc_type constraint ∈ ["HINGE"; "SLIDER"; "POINT"; "FIXED"] \/
  (rbc_type constraint ∈ ["GENERIC"; "GENERIC_SPRING"] /\ first_limited constraint <> None) ->
  is_detached_joint_object joint_obj = false ->
  get_default_axis_of_blender_constraint constraint = Some axis ->
  compute_body_pivot_and_axis parent child axis = Some (pp, pa) ->
  offset_axis_angle parent child pa axis = Some (oa, an, r) ->
  exists key jd log,
    generate_joint_data_from_blender_constraint objects joint_obj =
      Some (mkEmitted (Some (key, jd)) log).
Proof.
  intros Hh Hc H1 H2 Lp Lc Hhp Hhc Ht Hd Ha Cp Ho.
  assert (Ht6 : rbc_type constraint ∈
                  ["HINGE"; "SLIDER"; "POINT"; "FIXED"; "GENERIC"; "GENERIC_SPRING"]).
  { destruct Ht as [Ht|[Ht _]]; revert Ht; rewrite !elem_of_cons, !elem_of_nil; tauto. }
  destruct (default_axis_of_typed_constraint constraint Ht6) as (Hin & _).
  unfold generate_joint_data_from_blender_constraint, is_object_hidden.
  rewrite Hh, Hc, H1, H2. cbn [mbind option_bind]. rewrite Lp, Lc. cbn [mbind option_bind].
  rewrite Hhp, Hhc, Hin. cbn [orb mbind option_bind]. rewrite Ha. cbn [mbind option_bind].
  rewrite Hd, Cp. cbn [mbind option_bind].
  match goal with |- context [assign_joint_params_from_blender_constraint ?c ?d] =>
    edestruct (assign_joint_params_from_blender_constraint_total c d) as [jd0 E0] end;
    [reflexivity|exact Ht|].
  rewrite E0. cbn [mbind option_bind]. rewrite Ho. cbn [mbind option_bind].
  destruct (store_offset _ axis oa an jd0) as [jd1 log2]. eauto.
Qed.

End LegacySucceeds.

(** ** A child turned about the joint axis *)

Section Turns.
Local Open Scope R_scope.


















End Turns.
(** ** Rotations that move the joint axis *)

Section Tilts.
Local Open Scope R_scope.
























End Tilts.
(** ** C1: exporting a joint and composing it again *)

Section C1.
Local Open Scope R_scope.

























End C1.

(** * Further properties of the exporters *)

Section ExporterFurther.
Local Open Scope R_scope.

Lemma four_decimals_opp (x : R) : four_decimals x -> four_decimals (- x).
Proof.
  intros [k ->]. exists (- k)%Z. rewrite opp_IZR. field.
Qed.

Lemma rounded_xyz_four_decimals (v : Vector) :
  four_decimals (xyz_x (rounded_xyz v)) /\ four_decimals (xyz_y (rounded_xyz v)) /\
  four_decimals (xyz_z (rounded_xyz v)).
Proof. unfold rounded_xyz. cbn. repeat split; apply round_four_decimals. Qed.

Lemma offset_written_four_decimals child_axis offset_axis angle a :
  offset_written child_axis offset_axis angle = Some a -> four_decimals a.
Proof.
  unfold offset_written. intros H.
  repeat match type of H with
         | context [Rltb ?x ?y] => destruct (Rltb x y)
         end; try discriminate H; injection H as <-.
  - apply round_four_decimals.
  - apply four_decimals_opp, round_four_decimals.
Qed.

(** What both exporters share, read off [legacy_export_inv] and
    [ambf_export_inv]. *)
Lemma export_inv (enable_legacy_loading : bool) objects joint_obj key jd log :
  generate_joint_data enable_legacy_loading objects joint_obj =
    Some (mkEmitted (Some (key, jd)) log) ->
  exists parent child parent_pivot parent_axis child_pivot child_axis offset_axis angle r,
    key = add_joint_prefix_str (jd_name jd) /\
    jd_parent jd = add_body_prefix_str (remove_namespace_prefix (ob_name parent)) /\
    jd_child jd = add_body_prefix_str (remove_namespace_prefix (ob_name child)) /\
    jd_parent_pivot jd = Some (rounded_xyz parent_pivot) /\
    jd_parent_axis jd = Some (rounded_xyz parent_axis) /\
    jd_child_pivot jd = Some (rounded_xyz child_pivot) /\
    jd_child_axis jd = Some (rounded_xyz child_axis) /\
    offset_axis_angle parent child parent_axis child_axis = Some (offset_axis, angle, r) /\
    jd_offset jd = offset_written child_axis offset_axis angle.
Proof.
  intros H. destruct enable_legacy_loading; cbn [generate_joint_data] in H.
  - apply legacy_export_inv in H.
    destruct H as (c & ph & ch & parent & child & ax & pp & pa & cp & ca & oa & an & r & l1
                   & _ & _ & _ & _ & _ & _ & _ & _ & HP & HC & HK & PP & PA & CP & CA
                   & Ho & Hoff & _).
    exists parent, child, pp, pa, cp, ca, oa, an, r. repeat split; assumption.
  - apply ambf_export_inv in H.
    destruct H as (ph & ch & parent & child & ax & pp & pa & cp & ca & oa & an & r
                   & _ & _ & _ & _ & _ & _ & _ & _ & _ & HP & HC & HK & PP & PA & CP & CA
                   & Ho & Hoff & _).
    exists parent, child, pp, pa, cp, ca, oa, an, r. repeat split; assumption.
Qed.

(** X1.  Every joint record an exporter writes is stored under the key
    "JOINT " followed by the record's name, and its parent and child are
    "BODY " followed by the names, without namespace, of two scene
    objects. *)
Theorem X1_emitted_key_and_body_names (enable_legacy_loading : bool)
    (objects : gmap handle Object) (joint_obj : Object)
    (key : string) (jd : JointData) (log : list string) :
  generate_joint_data enable_legacy_loading objects joint_obj =
    Some (mkEmitted (Some (key, jd)) log) ->
  key = String.append "JOINT " (jd_name jd) /\
  exists ph ch parent child,
    objects !! ph = Some parent /\ objects !! ch = Some child /\
    jd_parent jd = String.append "BODY " (remove_namespace_prefix (ob_name parent)) /\
    jd_child jd = String.append "BODY " (remove_namespace_prefix (ob_name child)).
Proof.
  intros H. destruct enable_legacy_loading; cbn [generate_joint_data] in H.
  - apply legacy_export_inv in H.
    destruct H as (c & ph & ch & parent & child & ax & pp & pa & cp & ca & oa & an & r & l1
                   & _ & _ & _ & Lp & Lc & _ & _ & _ & HP & HC & HK & _).
    split; [exact HK|]. exists ph, ch, parent, child. repeat split; assumption.
  - apply ambf_export_inv in H.
    destruct H as (ph & ch & parent & child & ax & pp & pa & cp & ca & oa & an & r
                   & _ & _ & Lp & Lc & _ & _ & _ & _ & _ & HP & HC & HK & _).
    split; [exact HK|]. exists ph, ch, parent, child. repeat split; assumption.
Qed.

Lemma X1_emitted_key_and_body_names_witness :
  "JOINT P-C" = String.append "JOINT " (jd_name tilted_joint) /\
  exists ph ch parent child,
    tilted_objects !! ph = Some parent /\ tilted_objects !! ch = Some child /\
    jd_parent tilted_joint = String.append "BODY " (remove_namespace_prefix (ob_name parent)) /\
    jd_child tilted_joint = String.append "BODY " (remove_namespace_prefix (ob_name child)).
Proof.
  exact (X1_emitted_key_and_body_names true tilted_objects tilted_child "JOINT P-C"
           tilted_joint
           [offset_error_line "generate_joint_data_from_blender_constraint" "P-C"]
           tilted_export).
Defined.

(** X2.  In every joint record an exporter writes, the two pivots and the
    two axes are present and each of their coordinates is a multiple of
    1e-4, and so is the offset when there is one. *)
Theorem X2_emitted_geometry_four_decimals (enable_legacy_loading : bool)
    (objects : gmap handle Object) (joint_obj : Object)
    (key : string) (jd : JointData) (log : list string) :
  generate_joint_data enable_legacy_loading objects joint_obj =
    Some (mkEmitted (Some (key, jd)) log) ->
  (forall field, field ∈ [jd_parent_pivot jd; jd_parent_axis jd;
                          jd_child_pivot jd; jd_child_axis jd] ->
     exists v, field = Some v /\
       four_decimals (xyz_x v) /\ four_decimals (xyz_y v) /\ four_decimals (xyz_z v)) /\
  (forall a, jd_offset jd = Some a -> four_decimals a).
Proof.
  intros H. apply export_inv in H.
  destruct H as (parent & child & pp & pa & cp & ca & oa & an & r
                 & _ & _ & _ & PP & PA & CP & CA & _ & Hoff).
  split.
  - intros field Hf.
    repeat (apply elem_of_cons in Hf as [->|Hf]); [ .. | now apply elem_of_nil in Hf ];
      eexists; (split; [eassumption|apply rounded_xyz_four_decimals]).
  - intros a Ha. rewrite Hoff in Ha. eapply offset_written_four_decimals; eassumption.
Qed.

Lemma X2_emitted_geometry_four_decimals_witness :
  (forall field, field ∈ [jd_parent_pivot tilted_joint; jd_parent_axis tilted_joint;
                          jd_child_pivot tilted_joint; jd_child_axis tilted_joint] ->
     exists v, field = Some v /\
       four_decimals (xyz_x v) /\ four_decimals (xyz_y v) /\ four_decimals (xyz_z v)) /\
  (forall a, jd_offset tilted_joint = Some a -> four_decimals a).
Proof.
  exact (X2_emitted_geometry_four_decimals true tilted_objects tilted_child "JOINT P-C"
           tilted_joint
           [offset_error_line "generate_joint_data_from_blender_constraint" "P-C"]
           tilted_export).
Defined.



End ExporterFurther.

(** * Further properties of the parameter stages *)

Section StageFurther.
Local Open Scope R_scope.

(** A constraint the legacy parameter stage gives no type leaves the
    record without ['type'], and the method fails on reading it. *)
Lemma assign_joint_params_from_blender_constraint_untyped constraint jd :
  jd_type jd = None ->
  ~ (rbc_type constraint ∈ ["HINGE"; "SLIDER"; "POINT"; "FIXED"] \/
     (rbc_type constraint ∈ ["GENERIC"; "GENERIC_SPRING"] /\
      first_limited constraint <> None)) ->
  assign_joint_params_from_blender_constraint constraint jd = None.
Proof.
  intros Ht Hn. unfold assign_joint_params_from_blender_constraint. cbv zeta.
  destruct (decide (rbc_type constraint ∈ ["HINGE"; "SLIDER"; "POINT"; "FIXED"]))
    as [Hin|Hout]; [exfalso; apply Hn; now left|].
  destruct (decide (rbc_type constraint ∈ ["GENERIC"; "GENERIC_SPRING"])) as [Hg|Hg].
  - destruct (first_limited constraint) as [p|] eqn:Hf.
    { exfalso. apply Hn. right. split; [assumption|congruence]. }
    repeat (apply elem_of_cons in Hg as [->|Hg]); [ .. | now apply elem_of_nil in Hg ];
      eval_decides; cbv iota; rewrite Ht; reflexivity.
  - rewrite !not_elem_of_cons in Hout. rewrite !not_elem_of_cons in Hg.
    destruct Hout as (? & ? & ? & ? & _). destruct Hg as (? & ? & _).
    rewrite !bool_decide_eq_false_2 by assumption. cbv iota. rewrite Ht. reflexivity.
Qed.

(** X4.  On a record that has its low and high joint limits and no type
    yet, as the exporter passes it, the legacy parameter stage succeeds
    exactly for the constraint types HINGE, SLIDER, POINT and FIXED, and for
    GENERIC and GENERIC_SPRING with at least one limit in use; for any
    other constraint it fails on the missing ['type']. *)
Theorem X4_legacy_stage_succeeds_iff_typed (constraint : Constraint) (jd : JointData)
    (a b : R) :
  jd_type jd = None ->
  jd_joint_limits jd = Some (mkLimits (Some a) (Some b)) ->
  (is_Some (assign_joint_params_from_blender_constraint constraint jd) <->
   rbc_type constraint ∈ ["HINGE"; "SLIDER"; "POINT"; "FIXED"] \/
   (rbc_type constraint ∈ ["GENERIC"; "GENERIC_SPRING"] /\
    first_limited constraint <> None)).
Proof.
  intros Ht Hl. split.
  - unfold is_Some. intros [jd' H].
    destruct (decide (rbc_type constraint ∈ ["HINGE"; "SLIDER"; "POINT"; "FIXED"]))
      as [Hin|Hout]; [now left|].
    destruct (decide (rbc_type constraint ∈ ["GENERIC"; "GENERIC_SPRING"])) as [Hg|Hg].
    + destruct (first_limited constraint) as [p|] eqn:Hf.
      * right. split; [assumption|discriminate].
      * rewrite assign_joint_params_from_blender_constraint_untyped in H;
          [discriminate|assumption|]. rewrite Hf. tauto.
    + rewrite assign_joint_params_from_blender_constraint_untyped in H;
        [discriminate|assumption|tauto].
  - intros H.
    destruct (assign_joint_params_from_blender_constraint_total constraint jd a b Hl H)
      as [jd' E]. rewrite E. now exists jd'.
Qed.

Lemma X4_legacy_stage_succeeds_iff_typed_witness :
  is_Some (assign_joint_params_from_blender_constraint (hinge_constraint 0%nat 1%nat)
             JointTemplate) <->
  rbc_type (hinge_constraint 0%nat 1%nat) ∈ ["HINGE"; "SLIDER"; "POINT"; "FIXED"] \/
  (rbc_type (hinge_constraint 0%nat 1%nat) ∈ ["GENERIC"; "GENERIC_SPRING"] /\
   first_limited (hinge_constraint 0%nat 1%nat) <> None).
Proof.
  exact (X4_legacy_stage_succeeds_iff_typed (hinge_constraint 0%nat 1%nat) JointTemplate
           (- (12 / 10)) (12 / 10) eq_refl eq_refl).
Defined.

(** X5.  The parameter stage of the add-on's own constraints never fails
    on a record that has ['joint limits'] and ['controller'], whatever the
    constraint type and the flags of the constraint object. *)
Theorem X5_ambf_stage_total (joint_obj : Object) (jd : JointData)
    (lim : joint_limits) (gains : pid_gains) :
  jd_joint_limits jd = Some lim -> jd_controller jd = Some gains ->
  is_Some (assign_joint_params_from_ambf_constraint joint_obj jd).
Proof.
  intros Hl Hc.
  destruct (assign_joint_params_from_ambf_constraint_total joint_obj jd lim gains Hl Hc)
    as [jd' E].
  rewrite E. now exists jd'.
Qed.

Lemma X5_ambf_stage_total_witness :
  is_Some (assign_joint_params_from_ambf_constraint plain_constraint_object JointTemplate).
Proof.
  exact (X5_ambf_stage_total plain_constraint_object JointTemplate
           (mkLimits (Some (- (12 / 10))) (Some (12 / 10))) (mkGains 1000 0 1)
           eq_refl eq_refl).
Defined.

(** X6.  Neither parameter stage touches the identity or the geometry of
    the record: name, parent, child, the two pivots, the two axes, the
    offset, the detached flag and the body rotation are what they were. *)
Theorem X6_stages_keep_geometry (constraint : Constraint) (joint_obj : Object)
    (jd jd' : JointData) :
  assign_joint_params_from_blender_constraint constraint jd = Some jd' \/
  assign_joint_params_from_ambf_constraint joint_obj jd = Some jd' ->
  jd_name jd' = jd_name jd /\ jd_parent jd' = jd_parent jd /\ jd_child jd' = jd_child jd /\
  jd_parent_pivot jd' = jd_parent_pivot jd /\ jd_parent_axis jd' = jd_parent_axis jd /\
  jd_child_pivot jd' = jd_child_pivot jd /\ jd_child_axis jd' = jd_child_axis jd /\
  jd_detached jd' = jd_detached jd /\ jd_body_rotation jd' = jd_body_rotation jd /\
  jd_offset jd' = jd_offset jd.
Proof.
  intros [H|H].
  - apply assign_joint_params_from_blender_constraint_keeps in H.
    destruct H as ((N & P & C & PP & PA & CP & CA & D & BR) & O). repeat split; assumption.
  - apply assign_joint_params_from_ambf_constraint_keeps in H.
    destruct H as ((N & P & C & PP & PA & CP & CA & D & BR) & O). repeat split; assumption.
Qed.

Lemma X6_stages_keep_geometry_witness :
  exists jd',
    assign_joint_params_from_ambf_constraint plain_constraint_object JointTemplate =
      Some jd' /\
    jd_name jd' = jd_name JointTemplate /\ jd_parent jd' = jd_parent JointTemplate /\
    jd_child jd' = jd_child JointTemplate /\
    jd_parent_pivot jd' = jd_parent_pivot JointTemplate /\
    jd_parent_axis jd' = jd_parent_axis JointTemplate /\
    jd_child_pivot jd' = jd_child_pivot JointTemplate /\
    jd_child_axis jd' = jd_child_axis JointTemplate /\
    jd_detached jd' = jd_detached JointTemplate /\
    jd_body_rotation jd' = jd_body_rotation JointTemplate /\
    jd_offset jd' = jd_offset JointTemplate.
Proof.
  destruct (assign_joint_params_from_ambf_constraint_total plain_constraint_object
              JointTemplate (mkLimits (Some (- (12 / 10))) (Some (12 / 10)))
              (mkGains 1000 0 1) eq_refl eq_refl) as [jd' E].
  exists jd'. split; [exact E|].
  exact (X6_stages_keep_geometry (hinge_constraint 0%nat 1%nat) plain_constraint_object
           JointTemplate jd' (or_intror E)).
Defined.

End StageFurther.

(** * When the exporters write a record *)

Section SuccessFurther.
Local Open Scope R_scope.

(** X7.  The legacy exporter writes a joint record for every visible
    object without a detached prefix that carries a constraint between two
    visible scene objects, of type HINGE, SLIDER, POINT or FIXED, or GENERIC
    or GENERIC_SPRING with a limit in use, as soon as the pivot and the
    residual rotation can be computed (no singular world transform). *)
Theorem X7_legacy_exporter_writes_a_record
    (objects : gmap handle Object) (joint_obj : Object) (constraint : Constraint)
    (ph ch : handle) (parent child : Object) (axis pp pa oa : Vector) (an : R) (r : Matrix3) :
  ob_hidden joint_obj = false ->
  ob_rigid_body_constraint joint_obj = Some constraint ->
  rbc_object1 constraint = Some ph -> rbc_object2 constraint = Some ch ->
  objects !! ph = Some parent -> objects !! ch = Some child ->
  ob_hidden parent = false -> ob_hidden child = false ->
  rbc_type constraint ∈ ["HINGE"; "SLIDER"; "POINT"; "FIXED"] \/
  (rbc_type constraint ∈ ["GENERIC"; "GENERIC_SPRING"] /\ first_limited constraint <> None) ->
  is_detached_joint_object joint_obj = false ->
  get_default_axis_of_blender_constraint constraint = Some axis ->
  compute_body_pivot_and_axis parent child axis = Some (pp, pa) ->
  offset_axis_angle parent child pa axis = Some (oa, an, r) ->
  exists key jd log,
    generate_joint_data_from_blender_constraint objects joint_obj =
      Some (mkEmitted (Some (key, jd)) log).
Proof. apply legacy_export_succeeds. Qed.

Lemma X7_legacy_exporter_writes_a_record_witness :
  exists key jd log,
    generate_joint_data_from_blender_constraint tilted_objects tilted_child =
      Some (mkEmitted (Some (key, jd)) log).
Proof.
  apply (X7_legacy_exporter_writes_a_record tilted_objects tilted_child
           (hinge_constraint 0%nat 1%nat) 0%nat 1%nat
           (mesh_body "P" Identity4 None) tilted_child (mkVec 0 0 1)
           (translation (ob_matrix_world tilted_child))
           (mulv (to_3x3 (ob_matrix_world tilted_child)) (mkVec 0 0 1))
           (mkVec (14 / 100 / sqrt (396 / 10000)) (- (2 / 100) / sqrt (396 / 10000))
                  (14 / 100 / sqrt (396 / 10000)))
           (acos (98 / 100) * 2) tilted_rotation); try reflexivity.
  - left. apply list_elem_of_here.
  - apply compute_body_pivot_and_axis_parent_at_origin; [reflexivity|exact tilted_world_rigid].
  - exact offset_axis_angle_tilted.
Defined.

(** X8.  The exporter of the add-on's own constraints writes a joint
    record for every visible constraint object whose parent and child are
    visible scene objects and whose axis is X, Y or Z, as soon as the two
    pivots and the residual rotation can be computed. *)
Theorem X8_ambf_exporter_writes_a_record
    (objects : gmap handle Object) (joint_obj : Object)
    (ph ch : handle) (parent child : Object) (axis pp pa cp ca oa : Vector)
    (an : R) (r : Matrix3) :
  ambf_object_type (ob_ambf joint_obj) = "CONSTRAINT" ->
  ob_hidden joint_obj = false ->
  ambf_constraint_parent (ob_ambf joint_obj) = Some ph ->
  ambf_constraint_child (ob_ambf joint_obj) = Some ch ->
  objects !! ph = Some parent -> objects !! ch = Some child ->
  ob_hidden parent = false -> ob_hidden child = false ->
  get_axis_of_ambf_constraint joint_obj = Some axis ->
  compute_body_pivot_and_axis parent joint_obj axis = Some (pp, pa) ->
  compute_body_pivot_and_axis child joint_obj axis = Some (cp, ca) ->
  offset_axis_angle parent child pa ca = Some (oa, an, r) ->
  exists key jd log,
    generate_joint_data_from_ambf_constraint objects joint_obj =
      Some (mkEmitted (Some (key, jd)) log).
Proof. apply ambf_export_succeeds. Qed.

Lemma X8_ambf_exporter_writes_a_record_witness :
  exists key jd log,
    generate_joint_data_from_ambf_constraint parented_objects plain_constraint_object =
      Some (mkEmitted (Some (key, jd)) log).
Proof.
  assert (Cj : forall b, ob_matrix_world b = Identity4 ->
             compute_body_pivot_and_axis b plain_constraint_object (mkVec 0 0 1) =
               Some (mkVec 1 0 0, mulv Identity3 (mkVec 0 0 1))).
  { intros b Hb. rewrite compute_body_pivot_and_axis_parent_at_origin;
      [reflexivity|exact Hb|apply rigid_of_identity_rotation; reflexivity]. }
  apply (X8_ambf_exporter_writes_a_record parented_objects plain_constraint_object
           0%nat 1%nat
           (mesh_body "P" Identity4 None) (mesh_body "C" Identity4 (Some 0%nat))
           (mkVec 0 0 1) (mkVec 1 0 0) (mulv Identity3 (mkVec 0 0 1))
           (mkVec 1 0 0) (mulv Identity3 (mkVec 0 0 1)) (mkVec 1 0 0) (0 * 2) Identity3);
    try reflexivity.
  - apply Cj. reflexivity.
  - apply Cj. reflexivity.
  - apply offset_axis_angle_unrotated; try reflexivity. mat_norm. ring.
Defined.

End SuccessFurther.

(** * Further properties of the composer *)

Section ComposerFurther.
Local Open Scope R_scope.

(** X9.  [get_standard_pivot_and_axis_data] fails only on a record without
    ['type'].  Otherwise the pivot is the origin; the axis is X for the
    prismatic and linear spring kinds and Z for every other string; and
    the error line is printed exactly for the strings outside the
    vocabulary, for which Z is still answered. *)
Theorem X9_standard_pivot_and_axis (jd : JointData) :
  (jd_type jd = None -> get_standard_pivot_and_axis_data jd = None) /\
  (forall t, jd_type jd = Some t ->
     exists axis lines,
       get_standard_pivot_and_axis_data jd = Some (mkXYZ 0 0 0, axis, lines) /\
       axis = (if bool_decide (t ∈ ["prismatic"; "slider"; "spring"; "linear spring"])
               then mkXYZ 1 0 0 else mkXYZ 0 0 1) /\
       (lines = [] <-> t ∈ joint_type_vocabulary)).
Proof.
  split.
  - intros H. unfold get_standard_pivot_and_axis_data. now rewrite H.
  - intros t H. unfold get_standard_pivot_and_axis_data, PyStr.in_list. rewrite H.
    cbn [mbind option_bind]. cbv zeta.
    destruct (decide (t ∈ joint_type_vocabulary)) as [Hin|Hout].
    + unfold joint_type_vocabulary in Hin.
      repeat (apply elem_of_cons in Hin as [->|Hin]); [ .. | now apply elem_of_nil in Hin ];
        eval_decides; cbv iota; do 2 eexists;
        (split; [reflexivity|]); (split; [reflexivity|]);
        (split; [intros _|reflexivity]); unfold joint_type_vocabulary;
        rewrite !elem_of_cons; tauto.
    + assert (Hout' := Hout). unfold joint_type_vocabulary in Hout'.
      rewrite !not_elem_of_cons in Hout'.
      destruct Hout' as (? & ? & ? & ? & ? & ? & ? & ? & ? & ? & ? & ? & ? & _).
      rewrite !bool_decide_eq_false_2
        by (rewrite !elem_of_cons, elem_of_nil; intuition congruence).
      do 2 eexists. split; [reflexivity|]. split; [reflexivity|].
      split; [discriminate|contradiction].
Qed.

Lemma X9_standard_pivot_and_axis_witness :
  (jd_type (plain_joint "j" "P" "C" (mkXYZ 1 0 0)) = None ->
   get_standard_pivot_and_axis_data (plain_joint "j" "P" "C" (mkXYZ 1 0 0)) = None) /\
  (forall t, jd_type (plain_joint "j" "P" "C" (mkXYZ 1 0 0)) = Some t ->
     exists axis lines,
       get_standard_pivot_and_axis_data (plain_joint "j" "P" "C" (mkXYZ 1 0 0)) =
         Some (mkXYZ 0 0 0, axis, lines) /\
       axis = (if bool_decide (t ∈ ["prismatic"; "slider"; "spring"; "linear spring"])
               then mkXYZ 1 0 0 else mkXYZ 0 0 1) /\
       (lines = [] <-> t ∈ joint_type_vocabulary)).
Proof. exact (X9_standard_pivot_and_axis (plain_joint "j" "P" "C" (mkXYZ 1 0 0))). Defined.

(** X10.  The composer on a plain record (both axes Z, child pivot at the
    origin, no offset) whose parent has no correction frame: the child's
    world transform is the parent's world transform followed by the
    translation to the parent pivot. *)
Theorem X10_child_lands_at_parent_pivot (st : Loader) (joint_data : JointData)
    (ph ch : handle) (pob : Object) (piv : xyz) :
  blender_remapped_body_names st !! jd_parent joint_data = Some ph ->
  blender_remapped_body_names st !! jd_child joint_data = Some ch ->
  objects st !! ph = Some pob ->
  body_T_j_c st !! jd_parent joint_data = Some Identity4 ->
  jd_parent_pivot joint_data = Some piv ->
  jd_parent_axis joint_data = Some (mkXYZ 0 0 1) ->
  jd_child_pivot joint_data = Some (mkXYZ 0 0 0) ->
  jd_child_axis joint_data = Some (mkXYZ 0 0 1) ->
  jd_offset joint_data = None ->
  get_child_in_world_transform st joint_data =
    Some (mul4 (ob_matrix_world pob) (pivot_matrix piv)).
Proof. apply get_child_in_world_transform_plain. Qed.

Lemma X10_child_lands_at_parent_pivot_witness :
  get_child_in_world_transform (loop_scene false) (plain_joint "j" "P" "C" (mkXYZ 1 0 0)) =
    Some (mul4 (ob_matrix_world (mesh_body "P" Identity4 None))
               (pivot_matrix (mkXYZ 1 0 0))).
Proof.
  apply (X10_child_lands_at_parent_pivot (loop_scene false)
           (plain_joint "j" "P" "C" (mkXYZ 1 0 0)) 0%nat 1%nat
           (mesh_body "P" Identity4 None) (mkXYZ 1 0 0)); reflexivity.
Defined.

(** X11.  For two bodies without scale, [compute_body_pivot_and_axis]
    answers the position of the second body in the frame of the first as
    pivot, and the nominal axis of the second body as the first sees it
    as axis. *)
Theorem X11_pivot_and_axis_of_rigid_bodies (parent child : Object) (axis : Vector) :
  rigid_pose (ob_matrix_world parent) -> rigid_pose (ob_matrix_world child) ->
  compute_body_pivot_and_axis parent child axis =
    Some (mulv (transpose3 (to_3x3 (ob_matrix_world parent)))
               (vsub (translation (ob_matrix_world child))
                     (translation (ob_matrix_world parent))),
          mulv (mul3 (transpose3 (to_3x3 (ob_matrix_world parent)))
                     (to_3x3 (ob_matrix_world child))) axis).
Proof. apply compute_body_pivot_and_axis_rigid. Qed.

Lemma X11_pivot_and_axis_of_rigid_bodies_witness :
  compute_body_pivot_and_axis (mesh_body "P" Identity4 None) tilted_child (mkVec 0 0 1) =
    Some (mulv (transpose3 (to_3x3 (ob_matrix_world (mesh_body "P" Identity4 None))))
               (vsub (translation (ob_matrix_world tilted_child))
                     (translation (ob_matrix_world (mesh_body "P" Identity4 None)))),
          mulv (mul3 (transpose3 (to_3x3 (ob_matrix_world (mesh_body "P" Identity4 None))))
                     (to_3x3 (ob_matrix_world tilted_child))) (mkVec 0 0 1)).
Proof.
  exact (X11_pivot_and_axis_of_rigid_bodies (mesh_body "P" Identity4 None) tilted_child
           (mkVec 0 0 1) Identity4_rigid tilted_world_rigid).
Defined.

End ComposerFurther.

(** * The axis-angle variant of the rotation between two vectors *)

Section AxisAngleFurther.
Local Open Scope R_scope.

Lemma tiny_lt8 : 1 / 10 ^ 35 < 1 / 100000000.
Proof.
  assert (H8 : 10 ^ 8 = 100000000) by (cbn [pow]; ring).
  assert (H : 10 ^ 35 = 100000000 * 10 ^ 27)
    by (rewrite <- H8, <- pow_add; reflexivity).
  assert (P : 1 < 10 ^ 27) by (apply Rlt_pow_R1; [lra|lia]).
  rewrite H. unfold Rdiv. rewrite Rinv_mult.
  assert (Q : / 10 ^ 27 < 1) by (rewrite <- Rinv_1; apply Rinv_lt_contravar; lra).
  assert (0 < / 100000000) by lra. nra.
Qed.

Lemma Rotation3_about_y (theta : R) :
  Rotation3 theta (mkVec 0 1 0) =
    mkMat3 (cos theta) 0 (sin theta) 0 1 0 (- sin theta) 0 (cos theta).
Proof.
  assert (U : dot (mkVec 0 1 0) (mkVec 0 1 0) = 1) by (mat_norm; ring).
  unfold Rotation3. rewrite (normalize_of_unit _ U), U.
  assert (E : Reqb 1 0 = false) by (apply Reqb_false; lra).
  rewrite E. cbn [vx vy vz]. f_equal; ring.
Qed.

(** X12.  For two unit vectors at most 0.1 rad apart,
    [get_rot_mat_from_vecs] answers the rotation about Y by the angle
    between them, with that angle; this is the identity only when the
    two vectors are equal in direction (dot product 1). *)
Theorem X12_near_parallel_rotates_about_y (a b : Vector) :
  dot a a = 1 -> dot b b = 1 -> acos (dot a b) <= 1 / 10 ->
  get_rot_mat_from_vecs a b =
    Some (Rotation4 (acos (dot a b)) (mkVec 0 1 0), acos (dot a b)) /\
  (Rotation4 (acos (dot a b)) (mkVec 0 1 0) = Identity4 <-> dot a b = 1).
Proof.
  intros Ha Hb H. pose proof (dot_unit_bounds a b Ha Hb) as Hd.
  pose proof (acos_bound (dot a b)) as [Hp _]. split.
  - unfold get_rot_mat_from_vecs. rewrite (angle_unit a b Ha Hb).
    cbn [mbind option_bind]. unfold rot_axis_from_vecs.
    assert (E : Rleb (Rabs (acos (dot a b))) (1 / 10) = true)
      by (apply Rleb_true; rewrite Rabs_pos_eq; lra).
    rewrite E. reflexivity.
  - split.
    + intros E. unfold Rotation4, to_4x4, Identity4 in E. injection E as E.
      rewrite Rotation3_about_y in E. unfold Identity3 in E. injection E as Ec _ _ _.
      rewrite cos_acos in Ec by lra. exact Ec.
    + intros ->. rewrite acos_1. apply Rotation4_zero.
Qed.

Lemma X12_near_parallel_rotates_about_y_witness :
  get_rot_mat_from_vecs (mkVec 0 0 1) (mkVec 0 0 1) =
    Some (Rotation4 (acos (dot (mkVec 0 0 1) (mkVec 0 0 1))) (mkVec 0 1 0),
          acos (dot (mkVec 0 0 1) (mkVec 0 0 1))) /\
  (Rotation4 (acos (dot (mkVec 0 0 1) (mkVec 0 0 1))) (mkVec 0 1 0) = Identity4 <->
   dot (mkVec 0 0 1) (mkVec 0 0 1) = 1).
Proof.
  assert (U : dot (mkVec 0 0 1) (mkVec 0 0 1) = 1) by (mat_norm; ring).
  apply (X12_near_parallel_rotates_about_y (mkVec 0 0 1) (mkVec 0 0 1) U U).
  rewrite U, acos_1. lra.
Defined.

(** Rodrigues' matrix applied to a vector. *)
Lemma rodrigues_apply (n a : Vector) (co si : R) :
  mulv (mkMat3 (vx n * vx n * (1 - co) + co) (vx n * vy n * (1 - co) - vz n * si)
               (vx n * vz n * (1 - co) + vy n * si)
               (vx n * vy n * (1 - co) + vz n * si) (vy n * vy n * (1 - co) + co)
               (vy n * vz n * (1 - co) - vx n * si)
               (vx n * vz n * (1 - co) - vy n * si) (vy n * vz n * (1 - co) + vx n * si)
               (vz n * vz n * (1 - co) + co)) a =
  vadd (vscale co a) (vadd (vscale si (cross n a)) (vscale ((1 - co) * dot n a) n)).
Proof. destruct n, a. mat_norm. f_equal; ring. Qed.

(** The rotation about [a x b] by the angle between two unit vectors
    that are neither parallel nor opposite takes [a] to [b]. *)
Lemma rotation_about_cross (a b : Vector) :
  dot a a = 1 -> dot b b = 1 ->
  1 / 100000000 <= 1 - dot a b * dot a b ->
  mulv (Rotation3 (acos (dot a b)) (cross a b)) a = b.
Proof.
  intros Ha Hb Hs. pose proof (dot_unit_bounds a b Ha Hb) as Hd.
  pose proof tiny_lt8 as Ht.
  assert (Hc : dot (cross a b) (cross a b) = 1 - dot a b * dot a b)
    by (rewrite lagrange, Ha, Hb; ring).
  destruct (Rotation3_unit_axis (acos (dot a b)) (cross a b)) as [U E]; [lra|].
  rewrite E, rodrigues_apply, cos_acos, sin_acos by lra.
  rewrite Hc. unfold Rsqr.
  set (s := sqrt (1 - dot a b * dot a b)).
  assert (Hs2 : s * s = 1 - dot a b * dot a b) by (apply sqrt_sqrt; lra).
  assert (Hs0 : s <> 0) by (intros Z; rewrite Z in Hs2; lra).
  assert (Hk : s * (1 / s) = 1) by (field; exact Hs0).
  set (k := 1 / s) in *. clearbody k s.
  destruct a as [a1 a2 a3], b as [b1 b2 b3].
  mat_norm_in Ha. mat_norm. f_equal.
  - transitivity (b1 * (a1 * a1 + a2 * a2 + a3 * a3) +
                  (1 - s * k) * (a1 * (a1 * b1 + a2 * b2 + a3 * b3) -
                                 b1 * (a1 * a1 + a2 * a2 + a3 * a3)));
      [ring|rewrite Ha, Hk; ring].
  - transitivity (b2 * (a1 * a1 + a2 * a2 + a3 * a3) +
                  (1 - s * k) * (a2 * (a1 * b1 + a2 * b2 + a3 * b3) -
                                 b2 * (a1 * a1 + a2 * a2 + a3 * a3)));
      [ring|rewrite Ha, Hk; ring].
  - transitivity (b3 * (a1 * a1 + a2 * a2 + a3 * a3) +
                  (1 - s * k) * (a3 * (a1 * b1 + a2 * b2 + a3 * b3) -
                                 b3 * (a1 * a1 + a2 * a2 + a3 * a3)));
      [ring|rewrite Ha, Hk; ring].
Qed.


(** X13.  For two unit vectors more than 0.1 rad and less than 3.13 rad
    apart, [get_rot_mat_from_vecs] answers the rotation about their cross
    product by the angle between them, and that rotation takes the first
    vector to the second. *)
Theorem X13_mid_range_takes_first_to_second (a b : Vector) :
  dot a a = 1 -> dot b b = 1 -> 1 / 10 < acos (dot a b) < 313 / 100 ->
  get_rot_mat_from_vecs a b =
    Some (Rotation4 (acos (dot a b)) (cross a b), acos (dot a b)) /\
  mulv (to_3x3 (Rotation4 (acos (dot a b)) (cross a b))) a = b.
Proof.
  intros Ha Hb [Hlo Hhi]. pose proof (dot_unit_bounds a b Ha Hb) as Hd.
  pose proof PI_lower as HP. split.
  - unfold get_rot_mat_from_vecs. rewrite (angle_unit a b Ha Hb).
    cbn [mbind option_bind]. unfold rot_axis_from_vecs.
    assert (E1 : Rleb (Rabs (acos (dot a b))) (1 / 10) = false)
      by (apply Rleb_false; rewrite Rabs_pos_eq; lra).
    assert (E2 : Rleb (313 / 100) (Rabs (acos (dot a b))) = false)
      by (apply Rleb_false; rewrite Rabs_pos_eq; lra).
    rewrite E1, E2. reflexivity.
  - cbn [Rotation4 to_4x4 to_3x3]. apply rotation_about_cross; [assumption..|].
    assert (U : dot a b < cos (1 / 10)).
    { destruct (Rlt_dec (dot a b) (cos (1 / 10))) as [L|L]; [exact L|exfalso].
      apply Rnot_lt_le in L. apply Rle_lt_or_eq_dec in L as [L|L].
      - pose proof (acos_lt (dot a b) (1 / 10) Hd ltac:(lra) L). lra.
      - rewrite <- L, acos_cos in Hlo; lra. }
    assert (D : cos (313 / 100) < dot a b).
    { destruct (Rlt_dec (cos (313 / 100)) (dot a b)) as [L|L]; [exact L|exfalso].
      apply Rnot_lt_le in L. apply Rle_lt_or_eq_dec in L as [L|L].
      - pose proof (acos_gt (dot a b) (313 / 100) Hd ltac:(lra) L). lra.
      - rewrite L, acos_cos in Hhi; lra. }
    pose proof cos_013_upper. pose proof cos_313_bounds.
    destruct (Rle_dec 0 (dot a b)); nra.
Qed.

Lemma X13_mid_range_takes_first_to_second_witness :
  get_rot_mat_from_vecs (mkVec 1 0 0) (mkVec 0 1 0) =
    Some (Rotation4 (acos (dot (mkVec 1 0 0) (mkVec 0 1 0)))
                    (cross (mkVec 1 0 0) (mkVec 0 1 0)),
          acos (dot (mkVec 1 0 0) (mkVec 0 1 0))) /\
  mulv (to_3x3 (Rotation4 (acos (dot (mkVec 1 0 0) (mkVec 0 1 0)))
                          (cross (mkVec 1 0 0) (mkVec 0 1 0))))
       (mkVec 1 0 0) = mkVec 0 1 0.
Proof.
  apply (X13_mid_range_takes_first_to_second (mkVec 1 0 0) (mkVec 0 1 0)).
  - mat_norm; ring.
  - mat_norm; ring.
  - assert (E : dot (mkVec 1 0 0) (mkVec 0 1 0) = 0) by (mat_norm; ring).
    rewrite E, acos_0. pose proof PI_lower. pose proof PI_upper. lra.
Defined.

End AxisAngleFurther.

(** * The root an object hangs under *)

Section GrandParentFurther.
Import Hierarchy.

(** X14.  In a scene whose parent links go down a rank, [get_grand_parent]
    ends (its loop runs at most as many times as the rank of the body)
    on a parentless object that is the body itself or one of its
    ancestors. *)
Theorem X14_grand_parent_is_a_root (parent : handle -> option handle)
    (rank : handle -> nat) (fuel : nat) (x : handle) :
  (forall c p, parent c = Some p -> rank p < rank c) -> rank x < fuel ->
  exists g, get_grand_parent parent fuel x = Some g /\ parent g = None /\
            (g = x \/ ancestor parent g x).
Proof.
  intros Hr. revert x. induction fuel as [|fuel IH]; intros x Hx; [lia|].
  cbn. destruct (parent x) as [p|] eqn:Hp.
  - destruct (IH p) as (g & Hg & Hn & Ha); [specialize (Hr _ _ Hp); lia|].
    exists g. split; [exact Hg|]. split; [exact Hn|]. right.
    destruct Ha as [->|Ha].
    + now apply ancestor_parent.
    + now apply ancestor_step with p.
  - exists x. auto.
Qed.

Lemma X14_grand_parent_is_a_root_witness :
  exists g, get_grand_parent forest_parent 3 3%nat = Some g /\ forest_parent g = None /\
            (g = 3%nat \/ ancestor forest_parent g 3%nat).
Proof.
  apply (X14_grand_parent_is_a_root forest_parent forest_rank 3 3%nat).
  - intros c p Hp.
    destruct c as [|[|[|[|c]]]]; cbn in Hp; try discriminate Hp; injection Hp as <-;
      cbn; lia.
  - cbn; lia.
Defined.

End GrandParentFurther.

(** * Namespaces of object names *)

Section NamespaceFurther.
Import Namespace.

Lemma substring_all (s : string) : String.substring 0 (String.length s) s = s.
Proof. induction s as [|c s IH]; cbn; [reflexivity|now rewrite IH]. Qed.

Lemma substring_split (s : string) (i : nat) :
  String.append (String.substring 0 i s)
                (String.substring i (String.length s - i) s) = s.
Proof.
  revert i. induction s as [|c s IH]; intros [|i]; cbn; try reflexivity.
  - now rewrite substring_all.
  - exact (f_equal (String c) (IH i)).
Qed.

Lemma rfind_from_shift (s sub : string) (i : nat) :
  PyStr.rfind_from i s sub = (fun j => (i + j)%nat) <$> PyStr.rfind_from 0 s sub.
Proof.
  revert i. induction s as [|c s IH]; intros i; cbn [PyStr.rfind_from].
  - destruct (String.prefix sub ""); cbn; [f_equal; lia|reflexivity].
  - rewrite (IH (S i)), (IH 1%nat).
    destruct (PyStr.rfind_from 0 s sub) as [j|]; cbn [fmap option_fmap option_map].
    + f_equal. lia.
    + destruct (String.prefix sub (String c s)); cbn; [f_equal; lia|reflexivity].
Qed.

Lemma prefix_slash (s : string) :
  String.prefix "/" s = true -> exists s', s = String.append "/" s'.
Proof.
  destruct s as [|c s]; cbn [String.prefix]; [discriminate|].
  match goal with
  | |- context [Ascii.ascii_dec ?a c] => destruct (Ascii.ascii_dec a c) as [<-|]
  end; [intros _; exists s; reflexivity|discriminate].
Qed.

Lemma rfind_zero (s : string) :
  PyStr.rfind s "/" = 0%Z ->
  exists s', s = String.append "/" s' /\ PyStr.rfind s' "/" = (-1)%Z.
Proof.
  unfold PyStr.rfind. destruct s as [|c s]; cbn [PyStr.rfind_from].
  - cbn. discriminate.
  - rewrite (rfind_from_shift s "/" 1).
    destruct (PyStr.rfind_from 0 s "/") as [j|] eqn:E; cbn [fmap option_fmap option_map].
    + intros H. lia.
    + destruct (String.prefix "/" (String c s)) eqn:P; [|discriminate].
      intros _. destruct (prefix_slash _ P) as [s' H].
      cbv beta iota delta [String.append] in H. injection H as -> ->.
      exists s'. split; [reflexivity|]. now rewrite E.
Qed.

Lemma rfind_leading_slash (s : string) :
  PyStr.rfind s "/" = (-1)%Z -> PyStr.rfind (String.append "/" s) "/" = 0%Z.
Proof.
  cbv beta iota delta [String.append]. unfold PyStr.rfind. cbn [PyStr.rfind_from]. rewrite (rfind_from_shift s "/" 1).
  destruct (PyStr.rfind_from 0 s "/") as [j|]; [lia|]. intros _.
  cbn [fmap option_fmap option_map String.prefix].
  match goal with
  | |- context [Ascii.ascii_dec ?a ?a] => destruct (Ascii.ascii_dec a a) as [_|N]
  end; [|now destruct N].
  destruct s; reflexivity.
Qed.

(** X15.  Unless the last ['/'] of a name is its first character, the
    namespace [get_body_namespace] cuts off and the name
    [remove_namespace_prefix] keeps are the two halves of the name:
    joined again they give it back.  A name without ['/'] has the empty
    namespace and is kept whole. *)
Theorem X15_namespace_and_name_rejoin (fullname : string) :
  PyStr.rfind fullname "/" <> 0%Z ->
  String.append (get_body_namespace fullname) (remove_namespace_prefix fullname) = fullname.
Proof.
  unfold get_body_namespace, remove_namespace_prefix, PyStr.rfind, PyStr.slice_from, slice_to.
  destruct (PyStr.rfind_from 0 fullname "/") as [j|]; intros H.
  - assert (L : (0 <=? Z.of_nat j)%Z = true) by (apply Z.leb_le; lia).
    assert (P : (0 <? Z.of_nat j)%Z = true) by (apply Z.ltb_lt; lia).
    rewrite L, P. apply substring_split.
  - reflexivity.
Qed.

Lemma X15_namespace_and_name_rejoin_witness :
  String.append (get_body_namespace "/ambf/env/link1")
                (remove_namespace_prefix "/ambf/env/link1") = "/ambf/env/link1".
Proof.
  apply (X15_namespace_and_name_rejoin "/ambf/env/link1"). vm_compute. discriminate.
Defined.

(** X16.  When the only ['/'] of a name is its first character,
    [get_body_namespace] answers ["/"] but [remove_namespace_prefix]
    keeps the whole name, slash included: the test there is
    [last_occurance > 0], not [>= 0]. *)
Theorem X16_leading_slash_is_kept (fullname : string) :
  PyStr.rfind fullname "/" = 0%Z ->
  get_body_namespace fullname = "/" /\ remove_namespace_prefix fullname = fullname.
Proof.
  intros H. destruct (rfind_zero _ H) as (s' & -> & _).
  unfold get_body_namespace, remove_namespace_prefix. rewrite H.
  split; [destruct s'; reflexivity|reflexivity].
Qed.

Lemma X16_leading_slash_is_kept_witness :
  get_body_namespace "/link1" = "/" /\ remove_namespace_prefix "/link1" = "/link1".
Proof. apply (X16_leading_slash_is_kept "/link1"). vm_compute. reflexivity. Defined.

Lemma last_char_slash (s c : string) :
  last_char s = Some c -> exists a, s = String.append a c.
Proof.
  induction s as [|x s IH]; cbn [last_char]; [discriminate|].
  destruct s as [|y s].
  - intros H. injection H as <-. exists EmptyString. reflexivity.
  - intros H. destruct (IH H) as [a E]. exists (String x a).
    exact (f_equal (String x) E).
Qed.

Lemma last_char_append (a : string) : last_char (String.append a "/") = Some "/".
Proof.
  induction a as [|x a IH]; [reflexivity|].
  change (String.append (String x a) "/") with (String x (String.append a "/")).
  cbn [last_char]. destruct (String.append a "/") eqn:E; [|exact IH].
  destruct a; discriminate E.
Qed.

Lemma rfind_from_after_namespace (a name : string) :
  slash_free name ->
  PyStr.rfind_from 0 (String.append (String.append a "/") name) "/" =
    Some (String.length a).
Proof.
  intros Hn. induction a as [|x a IH].
  - pose proof (rfind_leading_slash name Hn) as H. unfold PyStr.rfind in H.
    change (String.append (String.append "" "/") name) with (String.append "/" name).
    destruct (PyStr.rfind_from 0 (String.append "/" name) "/") as [j|]; [|discriminate H].
    f_equal. cbn [String.length]. lia.
  - change (String.append (String.append (String x a) "/") name)
      with (String x (String.append (String.append a "/") name)).
    cbn [PyStr.rfind_from]. rewrite rfind_from_shift, IH. reflexivity.
Qed.

Lemma substring_namespace (a name : string) :
  String.substring 0 (S (String.length a)) (String.append (String.append a "/") name) =
    String.append a "/".
Proof.
  induction a as [|x a IH].
  - destruct name; reflexivity.
  - exact (f_equal (String x) IH).
Qed.

Lemma substring_name (a name : string) :
  String.substring (S (String.length a))
    (String.length (String.append (String.append a "/") name) - S (String.length a))
    (String.append (String.append a "/") name) = name.
Proof.
  induction a as [|x a IH].
  - change (String.substring 0 (String.length name - 0) name = name).
    rewrite Nat.sub_0_r. apply substring_all.
  - exact IH.
Qed.

(** X17.  With the global namespace as [set_global_namespace] leaves it
    and a body name without ['/'], the name [add_namespace_prefix] builds
    is split again as it was built: [get_body_namespace] gives the
    global namespace back, [compare_body_namespace_with_global] says
    the two are the same, and, unless that namespace is the bare ["/"],
    [remove_namespace_prefix] gives the body name back. *)
Theorem X17_prefixed_name_splits_back (namespace ns name : string) (lines : list string) :
  set_global_namespace namespace = Some (ns, lines) -> slash_free name ->
  get_body_namespace (add_namespace_prefix ns name) = ns /\
  compare_body_namespace_with_global ns (add_namespace_prefix ns name) = true /\
  (ns <> "/" -> remove_namespace_prefix (add_namespace_prefix ns name) = name).
Proof.
  intros Hs Hn.
  assert (Hl : last_char ns = Some "/").
  { unfold set_global_namespace in Hs.
    destruct (last_char namespace) as [c|] eqn:E; [|discriminate Hs].
    cbn [mbind option_bind] in Hs. case_bool_decide as Hc.
    - injection Hs as <- _. apply last_char_append.
    - injection Hs as <- _. now rewrite E, Hc. }
  destruct (last_char_slash _ _ Hl) as [a ->].
  pose proof (rfind_from_after_namespace a name Hn) as Hr.
  assert (Hz : (0 <=? Z.of_nat (String.length a))%Z = true) by (apply Z.leb_le; lia).
  assert (Ht : Z.to_nat (Z.of_nat (String.length a) + 1) = S (String.length a)) by lia.
  unfold get_body_namespace, compare_body_namespace_with_global, remove_namespace_prefix,
    add_namespace_prefix, PyStr.rfind, PyStr.slice_from, slice_to.
  rewrite Hr, Hz, Ht, substring_namespace. split; [reflexivity|]. split.
  - now rewrite bool_decide_eq_true_2.
  - intros Hne. destruct a as [|x a]; [now destruct Hne|].
    assert (Hp : (0 <? Z.of_nat (String.length (String x a)))%Z = true)
      by (apply Z.ltb_lt; cbn [String.length]; lia).
    rewrite Hp. apply substring_name.
Qed.

Lemma X17_prefixed_name_splits_back_witness :
  get_body_namespace (add_namespace_prefix "/ambf/env/" "link1") = "/ambf/env/" /\
  compare_body_namespace_with_global "/ambf/env/"
    (add_namespace_prefix "/ambf/env/" "link1") = true /\
  ("/ambf/env/" <> "/" ->
   remove_namespace_prefix (add_namespace_prefix "/ambf/env/" "link1") = "link1").
Proof.
  apply (X17_prefixed_name_splits_back "/ambf/env" "/ambf/env/" "link1"
           ["WARNING, MULTI-BODY NAMESPACE SHOULD END WITH '/'"]).
  - vm_compute. reflexivity.
  - vm_compute. reflexivity.
Defined.

(** X18.  [set_global_namespace] fails (the [IndexError] of
    [namespace[-1]]) exactly on the empty string.  Otherwise the
    namespace it leaves ends with ['/']: the given one when it already
    does, with nothing printed, and the given one with ['/'] appended
    after one warning line when it does not; so setting its result again
    changes nothing and prints nothing. *)
Theorem X18_global_namespace_ends_with_slash (namespace : string) :
  match set_global_namespace namespace with
  | None => namespace = EmptyString
  | Some (ns, lines) =>
      namespace <> EmptyString /\ last_char ns = Some "/" /\
      ((last_char namespace = Some "/" /\ ns = namespace /\ lines = []) \/
       (last_char namespace <> Some "/" /\ ns = String.append namespace "/" /\
        List.length lines = 1%nat)) /\
      set_global_namespace ns = Some (ns, [])
  end.
Proof.
  unfold set_global_namespace at 1.
  destruct (last_char namespace) as [c|] eqn:E; cbn [mbind option_bind].
  - assert (Hne : namespace <> EmptyString) by (intros ->; discriminate E).
    assert (Hset : forall ns, last_char ns = Some "/" ->
                              set_global_namespace ns = Some (ns, [])).
    { intros ns H. unfold set_global_namespace. rewrite H. cbn [mbind option_bind].
      rewrite bool_decide_eq_false_2; [reflexivity|]. intros N. now apply N. }
    case_bool_decide as Hc.
    + split; [exact Hne|]. split; [apply last_char_append|]. split.
      * right. split; [|split; reflexivity]. intros H. injection H as ->. now apply Hc.
      * apply Hset, last_char_append.
    + subst c. split; [exact Hne|]. split; [exact E|]. split.
      * left. auto.
      * now apply Hset.
  - destruct namespace as [|x [|y s]]; [reflexivity|discriminate E|].
    cbn [last_char] in E. 
    assert (F : forall s x, last_char (String x s) <> None).
    { clear. induction s as [|y s IH]; intros x; cbn [last_char]; [discriminate|apply IH]. }
    now destruct (F s y).
Qed.

End NamespaceFurther.

(** * Axes of a bounding box *)

Ltac decide_cmp :=
  match goal with
  | |- context [Rltb ?a ?b] =>
      first [rewrite (proj2 (Rltb_true a b)) by lra | rewrite (proj2 (Rltb_false a b)) by lra]
  | |- context [Reqb ?a ?b] =>
      first [rewrite (proj2 (Reqb_true a b)) by lra | rewrite (proj2 (Reqb_false a b)) by lra]
  end.

Ltac eval_closed :=
  match goal with
  | |- context [Axes.set_item ?l ?i ?v] =>
      let t := eval vm_compute in (Axes.set_item l i v) in
      change (Axes.set_item l i v) with t
  | |- context [Axes.py_max Z.ltb ?l] =>
      let t := eval vm_compute in (Axes.py_max Z.ltb l) in
      change (Axes.py_max Z.ltb l) with t
  | |- context [Axes.py_index Z.eqb ?m ?l] =>
      let t := eval vm_compute in (Axes.py_index Z.eqb m l) in
      change (Axes.py_index Z.eqb m l) with t
  end.

Section AxesFurther.
Import Axes.
Local Open Scope R_scope.

Lemma axis_lookups :
  axis !! 0%nat = Some "x" /\ axis !! 1%nat = Some "y" /\ axis !! 2%nat = Some "z".
Proof. repeat split; reflexivity. Qed.

Lemma collinear_distances (x y z : R) :
  Rabs (x - y) = Rabs (x - z) + Rabs (y - z) \/
  Rabs (x - z) = Rabs (x - y) + Rabs (y - z) \/
  Rabs (y - z) = Rabs (x - y) + Rabs (x - z).
Proof. unfold Rabs. repeat destruct Rcase_abs; lra. Qed.

(** X19.  On every bounding box [get_major_axis], [get_minor_axis] and
    [get_median_axis] answer (none raises), each with the letter of its
    index, and the three indices are the three axes, each once.  The
    dimension on the median axis lies between the other two, and the
    major axis is the one whose dimension is at least as far from it as
    the minor one's: the odd one out of the three. *)
Theorem X19_axes_partition (dims : Vector) :
  exists (cM cm ce : string) (M m e : nat),
    get_major_axis dims = Some (cM, M) /\
    get_minor_axis dims = Some (cm, m) /\
    get_median_axis dims = Some (ce, e) /\
    axis !! M = Some cM /\ axis !! m = Some cm /\ axis !! e = Some ce /\
    M <> m /\ m <> e /\ M <> e /\
    Rabs (component dims M - component dims m) =
      Rabs (component dims M - component dims e) +
      Rabs (component dims e - component dims m) /\
    Rabs (component dims m - component dims e) <=
      Rabs (component dims M - component dims e).
Proof.
  destruct dims as [x y z].
  destruct axis_lookups as (A0 & A1 & A2).
  pose proof (collinear_distances x y z) as L.
  pose proof (Rabs_pos (x - y)) as Pp. pose proof (Rabs_pos (x - z)) as Pq.
  pose proof (Rabs_pos (y - z)) as Pr.
  pose proof (Rabs_minus_sym y x) as Sp. pose proof (Rabs_minus_sym z x) as Sq.
  pose proof (Rabs_minus_sym z y) as Sr.
  unfold get_median_axis, get_major_axis, get_minor_axis, sum_diff, component.
  cbn [vx vy vz lookup list_lookup mbind option_bind].
  rewrite Sp, Sq, Sr.
  set (p := Rabs (x - y)) in *. set (q := Rabs (x - z)) in *. set (r := Rabs (y - z)) in *.
  cbn [py_max py_min foldl py_index].
  destruct (Rtotal_order p q) as [C1|[C1|C1]], (Rtotal_order q r) as [C2|[C2|C2]],
    (Rtotal_order p r) as [C3|[C3|C3]]; try (exfalso; lra).
  all: repeat first [decide_cmp | progress cbn [andb fmap option_fmap option_map mbind option_bind]
                    | rewrite A0 | rewrite A1 | rewrite A2 | eval_closed].
  all: do 6 eexists; repeat split; try reflexivity; try (intros N; discriminate N).
  all: rewrite ?Sp, ?Sq, ?Sr; fold p q r; destruct L as [L|[L|L]]; lra.
Qed.

End AxesFurther.

(** * Principal inertias of the collision shapes *)

Section InertiaFurther.
Import Inertia.
Local Open Scope R_scope.

(** X20.  The inertia of a box of positive mass and positive sides is one
    a rigid body can have: three positive moments, none larger than the
    sum of the other two. *)
Theorem X20_box_inertia_admissible (mass lx ly lz : R) :
  0 < mass -> 0 < lx -> 0 < ly -> 0 < lz ->
  admissible_inertia (inertia_of_box mass lx ly lz).
Proof.
  intros Hm Hx Hy Hz. unfold admissible_inertia, inertia_of_box. cbn [vx vy vz].
  assert (0 < lx * lx) by nra. assert (0 < ly * ly) by nra. assert (0 < lz * lz) by nra.
  repeat split; nra.
Qed.

Lemma X20_box_inertia_admissible_witness : admissible_inertia (inertia_of_box 12 1 2 3).
Proof. apply (X20_box_inertia_admissible 12 1 2 3); lra. Defined.

(** X21.  For an axis index from 0 to 2 the cylinder and the cone get the
    moment of the shape about its own axis on that index and the same
    transverse moment on the two others; an index past 2 is the
    [IndexError] of the first assignment. *)
Theorem X21_cylinder_and_cone_by_axis (mass r h : R) (axis : nat) :
  (axis < 3)%nat ->
  (exists I, inertia_of_cylinder mass r h axis = Some I /\
     component I axis = 1 / 2 * mass * (r * r) /\
     component I ((axis + 1) mod 3) = 1 / 4 * mass * (r * r) + 1 / 12 * mass * (h * h) /\
     component I ((axis + 2) mod 3) = 1 / 4 * mass * (r * r) + 1 / 12 * mass * (h * h)) /\
  (exists I, inertia_of_cone mass r h axis = Some I /\
     component I axis = 3 / 10 * mass * (r * r) /\
     component I ((axis + 1) mod 3) = 3 / 20 * mass * (r * r) + 3 / 5 * mass * (h * h) /\
     component I ((axis + 2) mod 3) = 3 / 20 * mass * (r * r) + 3 / 5 * mass * (h * h)) /\
  inertia_of_cylinder mass r h (axis + 3) = None /\
  inertia_of_cone mass r h (axis + 3) = None.
Proof.
  intros H. destruct axis as [|[|[|n]]]; [| | |lia];
    (split; [eexists; split; [reflexivity|repeat split; reflexivity]|]);
    (split; [eexists; split; [reflexivity|repeat split; reflexivity]|]);
    split; reflexivity.
Qed.

Lemma X21_cylinder_and_cone_by_axis_witness :
  (exists I, inertia_of_cylinder 2 1 3 1 = Some I /\
     component I 1 = 1 / 2 * 2 * (1 * 1) /\
     component I ((1 + 1) mod 3) = 1 / 4 * 2 * (1 * 1) + 1 / 12 * 2 * (3 * 3) /\
     component I ((1 + 2) mod 3) = 1 / 4 * 2 * (1 * 1) + 1 / 12 * 2 * (3 * 3)) /\
  (exists I, inertia_of_cone 2 1 3 1 = Some I /\
     component I 1 = 3 / 10 * 2 * (1 * 1) /\
     component I ((1 + 1) mod 3) = 3 / 20 * 2 * (1 * 1) + 3 / 5 * 2 * (3 * 3) /\
     component I ((1 + 2) mod 3) = 3 / 20 * 2 * (1 * 1) + 3 / 5 * 2 * (3 * 3)) /\
  inertia_of_cylinder 2 1 3 (1 + 3) = None /\
  inertia_of_cone 2 1 3 (1 + 3) = None.
Proof. apply (X21_cylinder_and_cone_by_axis 2 1 3 1). lia. Defined.

(** X22.  A capsule whose trunk (total height less two radii) is at most
    a millimetre long gets the inertia of the sphere of its radius,
    whatever the axis index, even one past 2; with a longer trunk and an
    index from 0 to 2, the two transverse moments are equal. *)
Theorem X22_capsule_inertia (mass r h_total : R) (axis : nat) :
  (h_total - r * 2 <= 1 / 1000 ->
   inertia_of_capsule mass r h_total axis = Some (inertia_of_sphere mass r)) /\
  (1 / 1000 < h_total - r * 2 -> (axis < 3)%nat ->
   exists I, inertia_of_capsule mass r h_total axis = Some I /\
     component I ((axis + 1) mod 3) = component I ((axis + 2) mod 3)).
Proof.
  unfold inertia_of_capsule. split.
  - intros H. now rewrite (proj2 (Rleb_true _ _) H).
  - intros H Ha. rewrite (proj2 (Rleb_false _ _) H).
    destruct axis as [|[|[|n]]]; [| | |lia]; eexists; split; reflexivity.
Qed.

End InertiaFurther.
